(** * OriginsSwapProvider: a shallow embedding and its verified properties

    The development models [src/swaps/origins/OriginsSwapProvider.js], the
    swap provider that drives a SOV -> ZERO contribution on RSK: quote,
    allowance check, approval, swap submission and confirmation polling.

    - Part 1 models the libraries the provider computes with: JavaScript
      strings, bignumber.js ([BN]) and ethers' [BigNumber.from].
    - Part 2 gives the effect model: a provider method is a finite tree of
      calls to external collaborators (chain client, contracts, store), with
      JavaScript exceptions and try/catch/finally.
    - Part 3 is the provider itself, method by method.
    - Part 4 is a pool semantics for concurrently running invocations.
    - Part 5 names the notions the properties are stated with, and Part 6
      is a sample deployment on which the methods run.
    - Part 7 models the store action of
      [src/store/actions/requestOriginAccess.js], which asks the user to
      let a web origin use the wallet.
    - Part 8 holds the lemmas and the theorems. *)

From Stdlib Require Import ZArith QArith Qpower Ascii String List Lia Bool.
From stdpp Require Import gmap strings list.

Local Open Scope Z_scope.

(* ===================================================================== *)
(** * Part 1: strings and numbers                                         *)
(* ===================================================================== *)

(** ** JavaScript strings *)

Module JsString.

(** [String.prototype.toLowerCase], on the ASCII letters. *)
Definition lower_ascii (c : ascii) : ascii :=
  let n := nat_of_ascii c in
  if ((65 <=? n)%nat && (n <=? 90)%nat)%bool then ascii_of_nat (n + 32) else c.

Definition toLowerCase (s : string) : string :=
  string_of_list_ascii (map lower_ascii (list_ascii_of_string s)).

(** Decimal digits. *)
Definition digit_char (d : Z) : ascii := ascii_of_nat (48 + Z.to_nat d).

Definition digit_val (c : ascii) : option Z :=
  let n := nat_of_ascii c in
  if ((48 <=? n)%nat && (n <=? 57)%nat)%bool then Some (Z.of_nat (n - 48)) else None.

Definition is_digit (c : ascii) : Prop := exists d, 0 <= d < 10 /\ c = digit_char d.

(** The last [w] decimal digits of [n], most significant first. *)
Fixpoint digits_fixed (w : nat) (n : Z) : list ascii :=
  match w with
  | O => []
  | S k => digits_fixed k (n / 10) ++ [digit_char (n mod 10)]
  end.

Fixpoint strip_zeros (l : list ascii) : list ascii :=
  match l with
  | [] => []
  | c :: r =>
      match r with
      | [] => l
      | _ :: _ => if Ascii.eqb c "0" then strip_zeros r else l
      end
  end.

(** The decimal digits of a non-negative integer, without leading zeros. *)
Definition digits (n : Z) : list ascii :=
  strip_zeros (digits_fixed (S (Z.to_nat (Z.log2 n))) n).

Fixpoint parse_digits_acc (acc : Z) (l : list ascii) : option Z :=
  match l with
  | [] => Some acc
  | c :: r =>
      match digit_val c with
      | Some d => parse_digits_acc (acc * 10 + d) r
      | None => None
      end
  end.

Definition parse_digits (l : list ascii) : option Z := parse_digits_acc 0 l.

(** Everything before the first character satisfying [p], and what
    follows that character, if there is one. *)
Fixpoint split_on (p : ascii -> bool) (l : list ascii)
  : list ascii * option (list ascii) :=
  match l with
  | [] => ([], None)
  | c :: r =>
      if p c then ([], Some r)
      else let '(a, b) := split_on p r in (c :: a, b)
  end.

Definition is_dot (c : ascii) : bool := Ascii.eqb c ".".
Definition is_e (c : ascii) : bool := (Ascii.eqb c "e" || Ascii.eqb c "E")%bool.

(** [String(z)] for an integer, as produced by [toString()] of an ethers
    [BigNumber] and by [Number.prototype.toString] on a safe integer. *)
Definition of_Z (z : Z) : string :=
  string_of_list_ascii
    ((if z <? 0 then ["-"%char] else []) ++ digits (Z.abs z)).

End JsString.

(** ** bignumber.js

    [BN] values are arbitrary-precision decimals: a finite value is an
    integer coefficient times a power of ten, kept without trailing zeros,
    and there are the two infinities and NaN.  The model follows the
    library's default configuration (DECIMAL_PLACES = 20, ROUNDING_MODE =
    ROUND_HALF_UP, EXPONENTIAL_AT = [-7, 20]); it does not model negative
    zero nor the exponent RANGE of 1e9, which no value of the provider
    reaches. *)

Module BN.
Import JsString.

Inductive t : Type :=
| Fin (c e : Z)      (* c * 10^e *)
| Inf (neg : bool)
| NaN.

Fixpoint strip10 (fuel : nat) (c e : Z) : Z * Z :=
  match fuel with
  | O => (c, e)
  | S f => if c mod 10 =? 0 then strip10 f (c / 10) (e + 1) else (c, e)
  end.

(** The canonical finite value [c * 10^e]. *)
Definition mk (c e : Z) : t :=
  if c =? 0 then Fin 0 0
  else let '(c', e') := strip10 (S (Z.to_nat (Z.log2 (Z.abs c)))) c e in
       Fin c' e'.

Definition of_Z (z : Z) : t := mk z 0.

(** [BN(x)] for an argument that is already a BigNumber. *)
Definition of_BN (x : t) : t :=
  match x with Fin c e => mk c e | _ => x end.

Definition negated (x : t) : t :=
  match x with
  | Fin c e => Fin (- c) e
  | Inf neg => Inf (negb neg)
  | NaN => NaN
  end.

Definition is_zero (x : t) : bool :=
  match x with Fin c _ => c =? 0 | _ => false end.

Definition is_neg (x : t) : bool :=
  match x with Fin c _ => c <? 0 | Inf neg => neg | NaN => false end.

(** [x.times(y)]: exact. *)
Definition times (x y : t) : t :=
  match x, y with
  | NaN, _ | _, NaN => NaN
  | Fin c1 e1, Fin c2 e2 => mk (c1 * c2) (e1 + e2)
  | Inf _, _ | _, Inf _ =>
      if (is_zero x || is_zero y)%bool then NaN
      else Inf (xorb (is_neg x) (is_neg y))
  end.

Definition DECIMAL_PLACES : Z := 20.

(** The integer nearest to [n / d], ties away from zero (ROUND_HALF_UP). *)
Definition round_half_up_div (n d : Z) : Z :=
  Z.sgn n * Z.sgn d * ((2 * Z.abs n + Z.abs d) / (2 * Z.abs d)).

(** [x.dividedBy(y)]: rounded to DECIMAL_PLACES decimal places. *)
Definition dividedBy (x y : t) : t :=
  match x, y with
  | NaN, _ | _, NaN => NaN
  | Inf _, Inf _ => NaN
  | Inf n, Fin c _ => Inf (xorb n (c <? 0))
  | Fin _ _, Inf _ => Fin 0 0
  | Fin c1 e1, Fin c2 e2 =>
      if c2 =? 0 then (if c1 =? 0 then NaN else Inf (c1 <? 0))
      else
        let k := e1 - e2 + DECIMAL_PLACES in
        let q := if 0 <=? k then round_half_up_div (c1 * 10 ^ k) c2
                 else round_half_up_div c1 (c2 * 10 ^ (- k)) in
        mk q (- DECIMAL_PLACES)
  end.

(** [x.pow(n)] for a non-negative integer [n]: exact. *)
Definition pow (x : t) (n : nat) : t :=
  match n with
  | O => Fin 1 0
  | _ =>
      match x with
      | Fin c e => mk (c ^ Z.of_nat n) (e * Z.of_nat n)
      | Inf neg => Inf (neg && Nat.odd n)
      | NaN => NaN
      end
  end.

Definition sign_chars (c : Z) : list ascii :=
  if c <? 0 then ["-"%char] else [].

(** The digits of [c * 10^e], [0 <= c], in normal notation. *)
Definition fixed_body (c e : Z) : list ascii :=
  if 0 <=? e then digits (c * 10 ^ e)
  else digits (c / 10 ^ (- e))
       ++ "."%char :: digits_fixed (Z.to_nat (- e)) (c mod 10 ^ (- e)).

(** [x.toFixed()]: normal notation, unrounded. *)
Definition toFixed_chars (x : t) : list ascii :=
  match x with
  | NaN => list_ascii_of_string "NaN"
  | Inf neg => (if neg then ["-"%char] else []) ++ list_ascii_of_string "Infinity"
  | Fin c e => sign_chars c ++ fixed_body (Z.abs c) e
  end.

Definition toFixed (x : t) : string := string_of_list_ascii (toFixed_chars x).

Definition TO_EXP_NEG : Z := -7.
Definition TO_EXP_POS : Z := 21.

(** The coefficient digits [d] and the exponent [E] in exponential
    notation: one digit, the point and the other digits if there are any,
    then the signed exponent. *)
Definition exp_body (d : list ascii) (E : Z) : list ascii :=
  match d with
  | [] => []
  | d0 :: [] => [d0]
  | d0 :: r => d0 :: "."%char :: r
  end
  ++ "e"%char :: (if E <? 0 then "-"%char else "+"%char) :: digits (Z.abs E).

(** [x.toString()]: exponential notation when the exponent of the leading
    digit is at most TO_EXP_NEG or at least TO_EXP_POS. *)
Definition toString_chars (x : t) : list ascii :=
  match x with
  | Fin c e =>
      if c =? 0 then ["0"%char]
      else
        let d := digits (Z.abs c) in
        let E := Z.of_nat (length d) - 1 + e in
        if ((E <=? TO_EXP_NEG) || (TO_EXP_POS <=? E))%bool
        then sign_chars c ++ exp_body d E
        else toFixed_chars x
  | _ => toFixed_chars x
  end.

Definition toString (x : t) : string := string_of_list_ascii (toString_chars x).

(** The exponent part of a numeric string: an optional sign, then digits. *)
Definition parse_exponent (l : list ascii) : option Z :=
  match l with
  | [] => None
  | c :: r =>
      if Ascii.eqb c "-" then
        match r with [] => None | _ => option_map Z.opp (parse_digits r) end
      else if Ascii.eqb c "+" then
        match r with [] => None | _ => parse_digits r end
      else parse_digits l
  end.

(** The mantissa: digits with an optional point, at least one digit in
    all.  Returns its digits as an integer and the number of decimal
    places. *)
Definition parse_mantissa (l : list ascii) : option (Z * Z) :=
  match split_on is_dot l with
  | (ip, None) =>
      match ip with
      | [] => None
      | _ => option_map (fun v => (v, 0)) (parse_digits ip)
      end
  | (ip, Some fp) =>
      match ip, fp with
      | [], [] => None
      | _, _ => option_map (fun v => (v, Z.of_nat (length fp))) (parse_digits (ip ++ fp))
      end
  end.

Definition parse_unsigned (l : list ascii) : t :=
  if decide (l = list_ascii_of_string "NaN") then NaN
  else if decide (l = list_ascii_of_string "Infinity") then Inf false
  else
    let '(m, ex) := split_on is_e l in
    match parse_mantissa m,
          match ex with None => Some 0 | Some x => parse_exponent x end with
    | Some (v, s), Some x => mk v (x - s)
    | _, _ => NaN
    end.

(** [BN(s)] for a string: NaN when [s] is not numeric. *)
Definition of_string (s : string) : t :=
  match list_ascii_of_string s with
  | c :: r =>
      if Ascii.eqb c "-" then negated (parse_unsigned r)
      else parse_unsigned (c :: r)
  | [] => NaN
  end.

(** [x <= 0] in JavaScript for a BigNumber [x]: [x.valueOf()] is turned
    into a Number, the nearest double with ties to even, and compared
    with 0.  A positive decimal becomes the Number 0 exactly when it is at
    most [2^-1075], half the least positive double. *)
Definition js_le_zero (x : t) : bool :=
  match x with
  | NaN => false
  | Inf neg => neg
  | Fin c e =>
      ((c <=? 0)
       || (if 0 <=? e then false else c * 2 ^ 1075 <=? 10 ^ (- e)))%bool
  end.

(** The rational [c * 10^e], and the rational a finite BigNumber stands
    for. *)
Definition value (c e : Z) : Q := (inject_Z c * (10 # 1) ^ e)%Q.

Definition to_Q (x : t) : option Q :=
  match x with
  | Fin c e => Some (value c e)
  | _ => None
  end.

(** [x <= 0] as a comparison of decimals. *)
Definition le_zero (x : t) : Prop :=
  match x with
  | Fin c _ => c <= 0
  | Inf neg => neg = true
  | NaN => False
  end.

(** Canonical values: what every operation of the library returns. *)
Definition canonical (x : t) : Prop :=
  match x with
  | Fin c e => (c = 0 /\ e = 0) \/ c mod 10 <> 0
  | _ => True
  end.

Definition is_integer (x : t) : bool :=
  match x with Fin c e => (0 <=? e) || (c =? 0) | _ => false end.

(** [x.toFixed(0)]: rounded to an integer, ties away from zero.  The sign
    is the one of [x], also when the rounded value is zero: -0.4 gives
    "-0". *)
Definition toFixed0 (x : t) : string :=
  match x with
  | Fin c e =>
      if 0 <=? e then toFixed x
      else string_of_list_ascii
             (sign_chars c ++ digits (Z.abs (round_half_up_div c (10 ^ (- e)))))
  | _ => toFixed x
  end.

(** BigNumbers as keys of a finite map. *)
Definition encode (x : t) : (Z * Z) + (bool + unit) :=
  match x with
  | Fin c e => inl (c, e)
  | Inf neg => inr (inl neg)
  | NaN => inr (inr tt)
  end.

Definition decode (y : (Z * Z) + (bool + unit)) : t :=
  match y with
  | inl (c, e) => Fin c e
  | inr (inl neg) => Inf neg
  | inr (inr _) => NaN
  end.

Lemma decode_encode x : decode (encode x) = x.
Proof. by destruct x. Qed.

End BN.

#[global] Instance BN_eq_dec : EqDecision BN.t.
Proof. solve_decision. Defined.
#[global] Instance BN_countable : Countable BN.t :=
  inj_countable' BN.encode BN.decode BN.decode_encode.


(** ** JavaScript exceptions *)

Record JsError : Type := { name : string; message : string }.

Definition TypeError (msg : string) : JsError :=
  {| name := "TypeError"; message := msg |}.
Definition Error (msg : string) : JsError :=
  {| name := "Error"; message := msg |}.

Inductive Result (A : Type) : Type :=
| Ok (a : A)
| Err (e : JsError).
Arguments Ok {A} a.
Arguments Err {A} e.

(** ** ethers *)

Module ethers.

(** [ethers.BigNumber.from(s)] for the strings [BN.toFixed] produces: a
    decimal integer is accepted, anything else ("0.5", "NaN", "Infinity")
    raises.  Hexadecimal strings, which [toFixed] never returns, are not
    modelled. *)
Definition BigNumber_from (s : string) : Result Z :=
  let invalid := Err (Error "invalid BigNumber string") in
  match list_ascii_of_string s with
  | [] => invalid
  | c :: r =>
      if Ascii.eqb c "-" then
        match r with
        | [] => invalid
        | _ => match JsString.parse_digits r with
               | Some v => Ok (- v)
               | None => invalid
               end
        end
      else match JsString.parse_digits (c :: r) with
           | Some v => Ok v
           | None => invalid
           end
  end.

(** An RPC provider handle ([StaticJsonRpcProvider]). *)
Definition Provider : Type := nat.

(** [new ethers.Contract(address, abi, provider)]. *)
Record Contract : Type := { address : string; provider : Provider }.

(** The constructor raises on a null or undefined address. *)
Definition new_Contract (addr : option string) (api : Provider) : Result Contract :=
  match addr with
  | Some a => Ok {| address := a; provider := api |}
  | None => Err (Error "invalid contract address or ENS name")
  end.

(** An argument of an encoded contract call. *)
Inductive AbiArg : Type :=
| ArgAddress (a : string)
| ArgUint (v : Z)       (* passed as [v.toHexString()] *).

End ethers.

(* ===================================================================== *)
(** * Part 2: data and effects                                            *)
(* ===================================================================== *)

(** ** The data of the provider *)

(** An entry of the [cryptoassets] table. *)
Record AssetInfo : Type :=
  { chain : string; decimals : nat; contractAddress : option string }.

(** An entry of [ChainNetworks[chain]] and an entry of [chains]. *)
Record ChainNetwork : Type := { chainId : Z }.
Record ChainInfo : Type := { nativeAsset : string }.

(** A JavaScript value holding an amount: a string or a BigNumber object. *)
Inductive Amount : Type :=
| AmountString (s : string)
| AmountBN (b : BN.t).

(** [BN(v)]. *)
Definition BN_ (v : Amount) : BN.t :=
  match v with
  | AmountString s => BN.of_string s
  | AmountBN b => BN.of_BN b
  end.

(** A quote object; [fee] and the account ids are set by the caller and are
    [None] while absent. *)
Record Quote : Type :=
  { from : string;
    to : string;
    fromAmount : Amount;
    toAmount : Amount;
    fee : option BN.t;
    fromAccountId : option string;
    toAccountId : option string }.

(** A swap record: the quote it was created from and the state kept by the
    store.  In JavaScript the two are one flat object, so a swap can be
    passed where a quote is expected. *)
Record Swap : Type :=
  { quote :> Quote;
    status : string;
    approveTxHash : option string;
    swapTxHash : option string }.

(** What the chain client returns. *)
Record Tx : Type := { hash : string }.
Record TxInfo : Type := { confirmations : Z }.
(** [receiptStatus] is [Number(status)] of the receipt. *)
Record Receipt : Type := { receiptStatus : Z }.
Record Account : Type := { type : string }.

Definition Client : Type := nat.

Inductive TxValue : Type :=
| ValueNumber (n : Z)
| ValueBN (b : BN.t).

Module TxData.
Record t : Type :=
  { from : option string;
    to : option string;
    value : TxValue;
    data : string;
    fee : option BN.t }.
End TxData.

Module RawTx.
Record t : Type :=
  { from : option string; to : option string; data : string; value : string }.
End RawTx.

(** The partial update of a swap record returned by a step. *)
Module Updates.
Record t : Type :=
  { status : string;
    endTime : option Z;
    approveTx : option Tx;
    approveTxHash : option string;
    swapTx : option Tx;
    swapTxHash : option string }.

Definition of_status (s : string) : t :=
  {| status := s; endTime := None; approveTx := None;
     approveTxHash := None; swapTx := None; swapTxHash := None |}.
End Updates.

Record NewSwap : Type :=
  { id : string; newSwap_fee : option BN.t; slippage : Z; updates : Updates.t }.

(** ** Calls to external collaborators

    Every interaction of the provider with the outside is a call: the chain
    client, the contracts behind the RPC provider, the store, the clock, the
    console, the provider's own [_apiCache] object and the asset lock.  A
    call that can raise answers with a [Result]. *)

Definition LockKey : Type := (string * string)%type.   (* (network, asset) *)

Inductive Call : Type -> Type :=
| GetClient (network walletId asset : string) (accountId : option string)
  : Call (Result Client)
| GetAccount (accountId : option string) : Call (Result (option Account))
| SendTransaction (client : Client) (tx : TxData.t) : Call (Result Tx)
| GetTransactionByHash (client : Client) (h : option string)
  : Call (Result (option TxInfo))
| GetTransactionReceipt (client : Client) (h : option string)
  : Call (Result (option Receipt))
| EstimateGas (client : Client) (tx : RawTx.t) : Call (Result Z)
| UpdateBalances (network walletId : string) (assets : list string) : Call unit
| GetUnusedAddresses (network walletId : string) (assets : list string)
    (accountId : option string) : Call (Result (list string))
| IsClosed (c : ethers.Contract) : Call (Result bool)
| PPM (c : ethers.Contract) : Call (Result Z)
| ExchangeRate (c : ethers.Contract) : Call (Result Z)
| Allowance (c : ethers.Contract) (owner spender : string) : Call (Result Z)
| DateNow : Call Z
| ConsoleWarn (e : JsError) : Call unit
| Uuidv4 : Call string
| NewRpcProvider (url : string) : Call (Result ethers.Provider)
| ApiCacheGet (chainId : Z) : Call (option ethers.Provider)
| ApiCachePut (chainId : Z) (api : ethers.Provider) : Call unit
| LockAcquire (key : LockKey) : Call unit
| LockRelease (key : LockKey) : Call unit.

(** A call together with its answer, as recorded in a trace. *)
Inductive Event : Type :=
| EvGetClient (network walletId asset : string) (accountId : option string)
    (r : Result Client)
| EvGetAccount (accountId : option string) (r : Result (option Account))
| EvSendTransaction (client : Client) (tx : TxData.t) (r : Result Tx)
| EvGetTransactionByHash (client : Client) (h : option string)
    (r : Result (option TxInfo))
| EvGetTransactionReceipt (client : Client) (h : option string)
    (r : Result (option Receipt))
| EvEstimateGas (client : Client) (tx : RawTx.t) (r : Result Z)
| EvUpdateBalances (network walletId : string) (assets : list string)
| EvGetUnusedAddresses (network walletId : string) (assets : list string)
    (accountId : option string) (r : Result (list string))
| EvIsClosed (c : ethers.Contract) (r : Result bool)
| EvPPM (c : ethers.Contract) (r : Result Z)
| EvExchangeRate (c : ethers.Contract) (r : Result Z)
| EvAllowance (c : ethers.Contract) (owner spender : string) (r : Result Z)
| EvDateNow (now : Z)
| EvConsoleWarn (e : JsError)
| EvUuidv4 (u : string)
| EvNewRpcProvider (url : string) (r : Result ethers.Provider)
| EvApiCacheGet (chainId : Z) (r : option ethers.Provider)
| EvApiCachePut (chainId : Z) (api : ethers.Provider)
| EvLockAcquire (key : LockKey)
| EvLockRelease (key : LockKey).

Definition event_of {R : Type} (c : Call R) : R -> Event :=
  match c in Call R return R -> Event with
  | GetClient n w a acc => EvGetClient n w a acc
  | GetAccount acc => EvGetAccount acc
  | SendTransaction cl tx => EvSendTransaction cl tx
  | GetTransactionByHash cl h => EvGetTransactionByHash cl h
  | GetTransactionReceipt cl h => EvGetTransactionReceipt cl h
  | EstimateGas cl tx => EvEstimateGas cl tx
  | UpdateBalances n w assets => fun _ => EvUpdateBalances n w assets
  | GetUnusedAddresses n w assets acc => EvGetUnusedAddresses n w assets acc
  | IsClosed c => EvIsClosed c
  | PPM c => EvPPM c
  | ExchangeRate c => EvExchangeRate c
  | Allowance c o s => EvAllowance c o s
  | DateNow => EvDateNow
  | ConsoleWarn e => fun _ => EvConsoleWarn e
  | Uuidv4 => EvUuidv4
  | NewRpcProvider url => EvNewRpcProvider url
  | ApiCacheGet cid => EvApiCacheGet cid
  | ApiCachePut cid api => fun _ => EvApiCachePut cid api
  | LockAcquire k => fun _ => EvLockAcquire k
  | LockRelease k => fun _ => EvLockRelease k
  end.

(** ** Programs

    An (async) method is a finite tree: it returns, throws, or performs a
    call and continues with the answer. *)

Inductive Prog (A : Type) : Type :=
| Ret (a : A)
| Throw (e : JsError)
| Op {R : Type} (c : Call R) (k : R -> Prog A).
Arguments Ret {A} a.
Arguments Throw {A} e.
Arguments Op {A R} c k.

Fixpoint bind {A B : Type} (p : Prog A) (f : A -> Prog B) : Prog B :=
  match p with
  | Ret a => f a
  | Throw e => Throw e
  | Op c k => Op c (fun r => bind (k r) f)
  end.

Notation "x <- p ;; q" := (bind p (fun x => q))
  (at level 100, p at next level, right associativity).
Notation "p ;;; q" := (bind p (fun _ => q))
  (at level 100, q at level 200, right associativity).

(** A call that cannot raise. *)
Definition call {R : Type} (c : Call R) : Prog R := Op c Ret.

(** [await] of a call that can raise (a rejected promise throws). *)
Definition await {A : Type} (c : Call (Result A)) : Prog A :=
  Op c (fun r => match r with Ok a => Ret a | Err e => Throw e end).

(** A synchronous computation that can raise. *)
Definition lift {A : Type} (r : Result A) : Prog A :=
  match r with Ok a => Ret a | Err e => Throw e end.

(** [try { p } catch (e) { h e }]. *)
Fixpoint try_catch {A : Type} (p : Prog A) (h : JsError -> Prog A) : Prog A :=
  match p with
  | Ret a => Ret a
  | Throw e => h e
  | Op c k => Op c (fun r => try_catch (k r) h)
  end.

(** [try { p } finally { f }]. *)
Fixpoint try_finally {A : Type} (p : Prog A) (f : Prog unit) : Prog A :=
  match p with
  | Ret a => f ;;; Ret a
  | Throw e => f ;;; Throw e
  | Op c k => Op c (fun r => try_finally (k r) f)
  end.

(** ** Semantics

    [exec p t r]: the program [p] can run to the outcome [r], the
    collaborators answering as recorded in the trace [t].  Nothing is
    assumed about the answers. *)

Fixpoint exec {A : Type} (p : Prog A) (t : list Event) (res : Result A) : Prop :=
  match p with
  | Ret a => t = [] /\ res = Ok a
  | Throw e => t = [] /\ res = Err e
  | Op c k => exists r t', t = event_of c r :: t' /\ exec (k r) t' res
  end.

(** An executable semantics: [h] answers every call from a state [W] of the
    collaborators. *)
Definition Handler (W : Type) : Type := forall R, Call R -> W -> R * W.

Fixpoint run {W A : Type} (h : Handler W) (p : Prog A) (w : W)
  : Result A * list Event * W :=
  match p with
  | Ret a => (Ok a, [], w)
  | Throw e => (Err e, [], w)
  | Op c k =>
      let '(r, w1) := h _ c w in
      let '(res, t, w2) := run h (k r) w1 in
      (res, event_of c r :: t, w2)
  end.

(* ===================================================================== *)
(** * Part 3: the provider                                                *)
(* ===================================================================== *)

Record Config : Type :=
  { rpcURL : string; presaleAddress : string; controllerAddress : string }.

(** The provider instance ([this.config]) together with what the module
    imports from outside the provider's source: the asset and chain tables,
    the [isERC20] helper of [utils/asset] and the ABI encoder of the
    contract interfaces ([contract.interface.encodeFunctionData]). *)
Record OriginsSwapProvider : Type :=
  { config : Config;
    cryptoassets : gmap string AssetInfo;
    ChainNetworks : gmap string (gmap string ChainNetwork);
    chains : gmap string ChainInfo;
    isERC20 : string -> bool;
    encodeFunctionData : string -> list ethers.AbiArg -> Result string }.

(** Reading the property [prop] of [o] raises a TypeError when [o] is
    undefined; otherwise the object is at hand. *)
Definition deref {A : Type} (o : option A) (prop : string) : Prog A :=
  match o with
  | Some a => Ret a
  | None =>
      Throw (TypeError ("Cannot read property '" ++ prop ++ "' of undefined"))
  end.

(** [currencyToUnit] and [unitToCurrency] of @liquality/cryptoassets. *)
Definition currencyToUnit (asset : AssetInfo) (value : BN.t) : BN.t :=
  let multiplier := BN.pow (BN.of_Z 10) (decimals asset) in
  BN.times (BN.of_BN value) multiplier.

Definition unitToCurrency (asset : AssetInfo) (value : BN.t) : BN.t :=
  let multiplier := BN.pow (BN.of_Z 10) (decimals asset) in
  BN.dividedBy (BN.of_BN value) multiplier.

(** [n.toString(16)] for a non-negative integer Number. *)
Definition hex_char (d : Z) : ascii :=
  if d <? 10 then JsString.digit_char d else ascii_of_nat (87 + Z.to_nat d).

Fixpoint hex_fixed (w : nat) (n : Z) : list ascii :=
  match w with
  | O => []
  | S k => hex_fixed k (n / 16) ++ [hex_char (n mod 16)]
  end.

Definition toString16 (n : Z) : string :=
  string_of_list_ascii
    (JsString.strip_zeros (hex_fixed (S (Z.to_nat (Z.log2 n))) n)).

(** [value.toString(16)] of a transaction value.  Only the Number case
    occurs ([buildApprovalTx] sets the Number 0); for a BigNumber the
    integer part is rendered. *)
Definition TxValue_toString16 (v : TxValue) : string :=
  match v with
  | ValueNumber n => toString16 n
  | ValueBN (BN.Fin c e) => toString16 (if 0 <=? e then c * 10 ^ e else c / 10 ^ (- e))
  | ValueBN b => BN.toFixed b
  end.

Definition fromTxType : string := "SWAP".

(** The static [statuses] table: step and filter status of each status. *)
Definition statuses : list (string * (Z * string)) :=
  [ ("WAITING_FOR_APPROVE_CONFIRMATIONS", (0, "PENDING"));
    ("APPROVE_CONFIRMED", (1, "PENDING"));
    ("WAITING_FOR_SWAP_CONFIRMATIONS", (1, "PENDING"));
    ("SUCCESS", (2, "COMPLETED"));
    ("FAILED", (2, "REFUNDED")) ]%string.

Definition totalSteps : Z := 3.

(** Modelled from the spec: [withInterval] of
    [store/actions/performNextAction/utils], which is not among the sources.
    The spec describes it as "a retrying-task abstraction (attempt-once
    semantics; the caller owns interval/backoff)": one invocation makes one
    attempt and hands back what the attempt returns. *)
Definition withInterval {A : Type} (func : Prog A) : Prog A := func.

(** Modelled from the spec: [withLock] of
    [store/actions/performNextAction/utils], which is not among the sources.
    The spec: "transaction submission is serialized by acquiring an exclusive
    lock keyed by (network, asset) before dispatching a mutating
    transaction; the lock is held only for the duration of the submission
    attempt and is released on every exit path (success or failure)".  The
    store, the item and the wallet id are passed as in the source and do
    not enter the key. *)
Definition withLock {A : Type} (store : unit) (item : Swap)
    (network walletId asset : string) (func : Prog A) : Prog A :=
  call (LockAcquire (network, asset)) ;;;
  try_finally func (call (LockRelease (network, asset))).

Section Provider.

Variable this : OriginsSwapProvider.

Definition getSupportedPairs : Prog (list (string * string)) := Ret [].

(* ======== HELPER METHODS ======== *)

Definition _getApi (network asset : string) : Prog ethers.Provider :=
  info <- deref (cryptoassets this !! asset) "chain" ;;
  let chain := chain info in
  nets <- deref (ChainNetworks this !! chain) network ;;
  net <- deref (nets !! network) "chainId" ;;
  let chainId := chainId net in
  cached <- call (ApiCacheGet chainId) ;;
  match cached with
  | Some api => Ret api
  | None =>
      api <- await (NewRpcProvider (rpcURL (config this))) ;;
      call (ApiCachePut chainId api) ;;;
      Ret api
  end.

(* ======== QUOTE ======== *)

Definition checkSaleClosed (network : string) : Prog bool :=
  api <- _getApi network "ZERO" ;;
  erc20 <- lift (ethers.new_Contract (Some (presaleAddress (config this))) api) ;;
  isClosed <- await (IsClosed erc20) ;;
  Ret isClosed.

Definition getDepositRate (network : string) : Prog string :=
  api <- _getApi network "ZERO" ;;
  erc20 <- lift (ethers.new_Contract (Some (presaleAddress (config this))) api) ;;
  ppm <- await (PPM erc20) ;;
  let PPM := JsString.of_Z ppm in
  rate <- await (ExchangeRate erc20) ;;
  let exchangeRate := JsString.of_Z rate in
  Ret (BN.toString (BN.dividedBy (BN.of_string exchangeRate) (BN.of_string PPM))).

Definition getQuote (network from to : string) (amount : BN.t)
  : Prog (option Quote) :=
  let fromInfo := cryptoassets this !! from in
  let toInfo := cryptoassets this !! to in
  (* only RSK network swaps *)
  fromInfo <- deref fromInfo "chain" ;;
  if negb (String.eqb (chain fromInfo) "rsk") then Ret None else
  toInfo <- deref toInfo "chain" ;;
  if (negb (String.eqb (chain toInfo) "rsk") || BN.js_le_zero amount)%bool
  then Ret None else
  (* this provider supports only SOV->ZERO. *)
  if (negb (String.eqb from "SOV") || negb (String.eqb to "ZERO"))%bool
  then Ret None else
  isClosed <- checkSaleClosed network ;;
  if isClosed : bool then Ret None else
  (* calculate rates *)
  rate <- getDepositRate network ;;
  let fromAmountInUnit := BN.toFixed (currencyToUnit fromInfo (BN.of_BN amount)) in
  let toAmountInUnit := BN.times (BN.of_string fromAmountInUnit) (BN.of_string rate) in
  Ret (Some {| from := from;
               to := to;
               fromAmount := AmountString fromAmountInUnit;
               toAmount := AmountBN toAmountInUnit;
               fee := None; fromAccountId := None; toAccountId := None |}).

(* ======== APPROVAL ======== *)

Definition inputAmount_of (quote : Quote) : Prog Z :=
  lift (ethers.BigNumber_from (BN.toFixed (BN_ (fromAmount quote)))).

Definition requiresApproval (network walletId : string) (quote : Quote)
  : Prog bool :=
  if negb (isERC20 this (from quote)) then Ret false else
  let fromInfo := cryptoassets this !! from quote in
  fromInfo <- deref fromInfo "contractAddress" ;;
  contractAddress <- deref (contractAddress fromInfo) "toLowerCase" ;;
  api <- _getApi network (from quote) ;;
  erc20 <- lift (ethers.new_Contract (Some (JsString.toLowerCase contractAddress)) api) ;;
  addresses <- await (GetUnusedAddresses network walletId [from quote] (toAccountId quote)) ;;
  let fromAddress := head addresses in
  let spender := JsString.toLowerCase (presaleAddress (config this)) in
  fromAddress <- deref fromAddress "toLowerCase" ;;
  allowance <- await (Allowance erc20 (JsString.toLowerCase fromAddress) spender) ;;
  inputAmount <- inputAmount_of quote ;;
  if allowance >=? inputAmount then Ret false else
  Ret true.

Definition buildApprovalTx (network walletId : string) (quote : Quote)
  : Prog TxData.t :=
  let fromInfo := cryptoassets this !! from quote in
  addresses <- await (GetUnusedAddresses network walletId [from quote] (toAccountId quote)) ;;
  let fromAddress := head addresses in
  api <- _getApi network (from quote) ;;
  erc20 <- lift (ethers.new_Contract fromAddress api) ;;
  inputAmount <- inputAmount_of quote ;;
  let spender := JsString.toLowerCase (presaleAddress (config this)) in
  encodedData <- lift (encodeFunctionData this "approve"
                         [ethers.ArgAddress spender; ethers.ArgUint inputAmount]) ;;
  fromInfo <- deref fromInfo "contractAddress" ;;
  Ret {| TxData.from := fromAddress;
         TxData.to := contractAddress fromInfo;
         TxData.value := ValueNumber 0;
         TxData.data := encodedData;
         TxData.fee := fee quote |}.

Definition approveTokens (network walletId : string) (quote : Quote)
  : Prog Updates.t :=
  requiresApproval <- requiresApproval network walletId quote ;;
  if negb requiresApproval then
    Ret (Updates.of_status "APPROVE_CONFIRMED")
  else
  txData <- buildApprovalTx network walletId quote ;;
  client <- await (GetClient network walletId (from quote) (fromAccountId quote)) ;;
  approveTx <- await (SendTransaction client txData) ;;
  Ret {| Updates.status := "WAITING_FOR_APPROVE_CONFIRMATIONS";
         Updates.endTime := None;
         Updates.approveTx := Some approveTx;
         Updates.approveTxHash := Some (hash approveTx);
         Updates.swapTx := None;
         Updates.swapTxHash := None |}.

(* ======== SWAP ======== *)

Definition buildSwapTx (network walletId : string) (quote : Quote)
  : Prog TxData.t :=
  api <- _getApi network (from quote) ;;
  ctrlContract <- lift (ethers.new_Contract (Some (controllerAddress (config this))) api) ;;
  inputAmount <- inputAmount_of quote ;;
  encodedData <- lift (encodeFunctionData this "contribute" [ethers.ArgUint inputAmount]) ;;
  let value := if isERC20 this (from quote) then ValueNumber 0
               else ValueBN (BN_ (fromAmount quote)) in
  Ret {| TxData.from := fromAccountId quote;
         TxData.to := Some (controllerAddress (config this));
         TxData.value := value;
         TxData.data := encodedData;
         TxData.fee := fee quote |}.

Definition sendSwap (network walletId : string) (quote : Quote)
  : Prog Updates.t :=
  txData <- buildSwapTx network walletId quote ;;
  client <- await (GetClient network walletId (from quote) (fromAccountId quote)) ;;
  swapTx <- await (SendTransaction client txData) ;;
  Ret {| Updates.status := "WAITING_FOR_SWAP_CONFIRMATIONS";
         Updates.endTime := None;
         Updates.approveTx := None;
         Updates.approveTxHash := None;
         Updates.swapTx := Some swapTx;
         Updates.swapTxHash := Some (hash swapTx) |}.

Definition newSwap (network walletId : string) (quote : Quote) : Prog NewSwap :=
  let approvalRequired := isERC20 this (from quote) in
  updates <- (if approvalRequired
              then approveTokens network walletId quote
              else sendSwap network walletId quote) ;;
  id <- call Uuidv4 ;;
  Ret {| id := id; newSwap_fee := fee quote; slippage := 50; updates := updates |}.

(*  ======== FEES ======== *)

(** The loop over [feePrices] filling the [fees] object, keyed by the fee
    price. *)
Fixpoint estimateFees_loop (gasLimit : Z) (nativeAsset : string)
    (feePrices : list BN.t) (fees : gmap BN.t string)
  : Prog (gmap BN.t string) :=
  match feePrices with
  | [] => Ret fees
  | feePrice :: rest =>
      let gasPrice := BN.times (BN.of_BN feePrice) (BN.of_Z (10 ^ 9)) in
      let fee := BN.times (BN.times (BN.of_Z gasLimit) (BN.mk 11 (-1))) gasPrice in
      native <- deref (cryptoassets this !! nativeAsset) "decimals" ;;
      estimateFees_loop gasLimit nativeAsset rest
        (<[feePrice := BN.toFixed (unitToCurrency native fee)]> fees)
  end.

Definition estimateFees (network walletId asset txType : string)
    (quote : Quote) (feePrices : list BN.t) : Prog (gmap BN.t string) :=
  if negb (String.eqb txType fromTxType)
  then Throw (Error ("Invalid tx type " ++ txType)) else
  info <- deref (cryptoassets this !! asset) "chain" ;;
  chainInfo <- deref (chains this !! chain info) "nativeAsset" ;;
  let nativeAsset := nativeAsset chainInfo in
  account <- await (GetAccount (fromAccountId quote)) ;;
  client <- await (GetClient network walletId (from quote) (type <$> account)) ;;
  let gasLimit := 0 in
  approve <- requiresApproval network walletId quote ;;
  gasLimit <- (if approve : bool then
                 approvalTx <- buildApprovalTx network walletId quote ;;
                 let rawApprovalTx :=
                   {| RawTx.from := TxData.from approvalTx;
                      RawTx.to := TxData.to approvalTx;
                      RawTx.data := TxData.data approvalTx;
                      RawTx.value := "0x" ++ TxValue_toString16 (TxData.value approvalTx) |} in
                 gas <- await (EstimateGas client rawApprovalTx) ;;
                 Ret (gasLimit + gas)
               else Ret gasLimit) ;;
  (* the gas used by the swap transaction is hardcoded to 750k *)
  let gasLimit := gasLimit + 750000 in
  estimateFees_loop gasLimit nativeAsset feePrices ∅.

(* ======== STATE TRANSITIONS ======== *)

Definition catch_TxNotFoundError {A : Type} (e : JsError) : Prog (option A) :=
  if String.eqb (name e) "TxNotFoundError"
  then call (ConsoleWarn e) ;;; Ret None
  else Throw e.

Definition waitForApproveConfirmations (swap : Swap) (network walletId : string)
  : Prog (option Updates.t) :=
  client <- await (GetClient network walletId (from swap) (fromAccountId swap)) ;;
  try_catch
    (tx <- await (GetTransactionByHash client (approveTxHash swap)) ;;
     match tx with
     | Some tx =>
         if confirmations tx >? 0 then
           now <- call DateNow ;;
           Ret (Some {| Updates.endTime := Some now;
                        Updates.status := "APPROVE_CONFIRMED";
                        Updates.approveTx := None;
                        Updates.approveTxHash := None;
                        Updates.swapTx := None;
                        Updates.swapTxHash := None |})
         else Ret None
     | None => Ret None
     end)
    catch_TxNotFoundError.

Definition waitForSwapConfirmations (swap : Swap) (network walletId : string)
  : Prog (option Updates.t) :=
  client <- await (GetClient network walletId (from swap) (fromAccountId swap)) ;;
  try_catch
    (tx <- await (GetTransactionByHash client (swapTxHash swap)) ;;
     match tx with
     | Some tx =>
         if confirmations tx >? 0 then
           (* Check transaction status - it may fail due to slippage *)
           receipt <- await (GetTransactionReceipt client (swapTxHash swap)) ;;
           receipt <- deref receipt "status" ;;
           let status := receiptStatus receipt in
           call (UpdateBalances network walletId [from swap]) ;;;
           now <- call DateNow ;;
           Ret (Some {| Updates.endTime := Some now;
                        Updates.status :=
                          if status =? 1 then "SUCCESS" else "FAILED";
                        Updates.approveTx := None;
                        Updates.approveTxHash := None;
                        Updates.swapTx := None;
                        Updates.swapTxHash := None |})
         else Ret None
     | None => Ret None
     end)
    catch_TxNotFoundError.

Definition performNextSwapAction (store : unit) (network walletId : string)
    (swap : Swap) : Prog (option Updates.t) :=
  if String.eqb (status swap) "WAITING_FOR_APPROVE_CONFIRMATIONS" then
    withInterval (waitForApproveConfirmations swap network walletId)
  else if String.eqb (status swap) "APPROVE_CONFIRMED" then
    withLock store swap network walletId (from swap)
      (updates <- sendSwap network walletId swap ;; Ret (Some updates))
  else if String.eqb (status swap) "WAITING_FOR_SWAP_CONFIRMATIONS" then
    withInterval (waitForSwapConfirmations swap network walletId)
  else Ret None.

(** 0.5 slippage *)
Definition _calculateSlippage (amount : Amount) : string :=
  BN.toFixed0 (BN.times (BN_ amount) (BN.mk 995 (-3))).

End Provider.

(* ===================================================================== *)
(** * Part 4: concurrently running invocations                            *)
(* ===================================================================== *)

(** The lock operation of a call: [Some (true, key)] for an acquisition,
    [Some (false, key)] for a release. *)
Definition lock_op {R : Type} (c : Call R) : option (bool * LockKey) :=
  match c with
  | LockAcquire key => Some (true, key)
  | LockRelease key => Some (false, key)
  | _ => None
  end.

(** A program that never touches a lock. *)
Fixpoint lock_free {A : Type} (p : Prog A) : Prop :=
  match p with
  | Op c k => lock_op c = None /\ forall r, lock_free (k r)
  | _ => True
  end.

(** A pool: the locks that are held and the invocations in progress.  The
    scheduler picks any invocation that is at a call; the call is answered
    and the invocation moves on.  An acquisition is enabled only while the
    key is free: until then the invocation waits. *)
Definition Pool (A : Type) : Type := (gset LockKey * list (Prog A))%type.

Definition pool_step {A : Type} (s : Pool A) (l : nat * Event) (s' : Pool A) : Prop :=
  let '(held, ts) := s in
  let '(i, ev) := l in
  exists p, ts !! i = Some p /\
    match p with
    | Op c k =>
        exists r, ev = event_of c r /\
          match lock_op c with
          | Some (true, key) => (key ∉ held) /\ s' = ({[key]} ∪ held, <[i := (k r)]> ts)
          | Some (false, key) => s' = (held ∖ {[key]}, <[i := (k r)]> ts)
          | None => s' = (held, <[i := (k r)]> ts)
          end
    | _ => False
    end.

(** [pool_exec s t s']: the pool [s] can reach [s'], [t] listing in order
    which invocation performed which call. *)
Inductive pool_exec {A : Type} (s : Pool A) : list (nat * Event) -> Pool A -> Prop :=
| pool_exec_nil : pool_exec s [] s
| pool_exec_snoc t s1 l s2 :
    pool_exec s t s1 -> pool_step s1 l s2 -> pool_exec s (t ++ [l]) s2.

(** Whether invocation [i] holds [key] after the trace [t]: its last lock
    event on [key] is an acquisition. *)
Definition holds_after (key : LockKey) (i : nat) (acc : bool) (l : nat * Event) : bool :=
  let '(j, ev) := l in
  if (j =? i)%nat then
    match ev with
    | EvLockAcquire k => if decide (k = key) then true else acc
    | EvLockRelease k => if decide (k = key) then false else acc
    | _ => acc
    end
  else acc.

Definition in_critical_section (key : LockKey) (i : nat) (t : list (nat * Event)) : bool :=
  foldl (holds_after key i) false t.

(** An executable scheduler: the invocations named in [schedule] take one
    step each, in that order, [h] answering their calls; an invocation that
    has finished, or that waits for a lock that is held, is skipped. *)
Definition pool_next {W A : Type} (h : Handler W) (i : nat) (s : Pool A) (w : W)
  : option (Event * Pool A * W) :=
  match snd s !! i with
  | Some (Op c k) =>
      let '(r, w') := h _ c w in
      match lock_op c with
      | Some (true, key) =>
          if decide (key ∈ fst s) then None
          else Some (event_of c r, ({[key]} ∪ fst s, <[i := (k r)]> (snd s)), w')
      | Some (false, key) =>
          Some (event_of c r, (fst s ∖ {[key]}, <[i := (k r)]> (snd s)), w')
      | None => Some (event_of c r, (fst s, <[i := (k r)]> (snd s)), w')
      end
  | _ => None
  end.

Fixpoint pool_run {W A : Type} (h : Handler W) (schedule : list nat) (s : Pool A) (w : W)
  : list (nat * Event) * Pool A :=
  match schedule with
  | [] => ([], s)
  | i :: rest =>
      match pool_next h i s w with
      | Some (ev, s', w') =>
          let '(t, s'') := pool_run h rest s' w' in ((i, ev) :: t, s'')
      | None => pool_run h rest s w
      end
  end.

(** An attempt under the lock [key]: it acquires the lock, runs a body that
    does not touch locks and releases the lock in a finally block. *)
Definition locked_attempt {A : Type} (key : LockKey) (p : Prog A) : Prop :=
  exists body, lock_free body /\
    p = (call (LockAcquire key) ;;; try_finally body (call (LockRelease key))).

Definition finished {A : Type} (p : Prog A) : Prop :=
  match p with Op _ _ => False | _ => True end.

(** The state of an attempt: inside its critical section ([true]) it is the
    rest of its body, still to be followed by the release; outside
    ([false]) it has not started or it has finished. *)
Definition attempt_state {A : Type} (key : LockKey) (p : Prog A) (inside : bool) : Prop :=
  if inside
  then exists q, lock_free q /\ p = try_finally q (call (LockRelease key))
  else locked_attempt key p \/ finished p.

(** The state of a member of a pool: an attempt under the lock, or an
    invocation that never touches a lock and so is never inside. *)
Definition member_state {A : Type} (key : LockKey) (attempt : bool) (p : Prog A)
    (inside : bool) : Prop :=
  if attempt then attempt_state key p inside
  else lock_free p /\ inside = false.

(** The invariant of a pool whose first [n] members are attempts under one
    lock and whose other members never touch a lock. *)
Definition pool_inv {A : Type} (key : LockKey) (n : nat) (t : list (nat * Event))
    (s : Pool A) : Prop :=
  (forall i p, snd s !! i = Some p ->
     member_state key (i <? n)%nat p (in_critical_section key i t)) /\
  (forall i, in_critical_section key i t = true ->
     key ∈ fst s /\ (i < length (snd s))%nat) /\
  (forall i j, in_critical_section key i t = true ->
     in_critical_section key j t = true -> i = j).

Definition is_dispatch (ev : Event) : bool :=
  match ev with EvSendTransaction _ _ _ => true | _ => false end.

(* ===================================================================== *)
(** * Part 5: vocabulary of the properties                                 *)
(* ===================================================================== *)

(** The position of a status on the path
    WAITING_FOR_APPROVE_CONFIRMATIONS, APPROVE_CONFIRMED,
    WAITING_FOR_SWAP_CONFIRMATIONS, SUCCESS or FAILED. *)
Definition path_index (s : string) : option nat :=
  if String.eqb s "WAITING_FOR_APPROVE_CONFIRMATIONS" then Some 0%nat
  else if String.eqb s "APPROVE_CONFIRMED" then Some 1%nat
  else if String.eqb s "WAITING_FOR_SWAP_CONFIRMATIONS" then Some 2%nat
  else if String.eqb s "SUCCESS" then Some 3%nat
  else if String.eqb s "FAILED" then Some 3%nat
  else None.

(** The events of [_getApi]: the provider's cache and the creation of an
    RPC provider. *)
Definition is_api_event (ev : Event) : bool :=
  match ev with
  | EvApiCacheGet _ _ | EvNewRpcProvider _ _ | EvApiCachePut _ _ => true
  | _ => false
  end.

(** A string that is a decimal integer: an optional minus sign and digits. *)
Definition is_integer_string (s : string) : bool :=
  match list_ascii_of_string s with
  | [] => false
  | c :: r =>
      if Ascii.eqb c "-"
      then match r with [] => false | _ => bool_decide (is_Some (JsString.parse_digits r)) end
      else bool_decide (is_Some (JsString.parse_digits (c :: r)))
  end.

(** The fee for a gas budget at a fee price given in gwei, in the unit of
    the native asset: gasBudget * 1.1 * (feePrice * 10^9), divided by
    10^decimals. *)
Definition fee_in_native (native : AssetInfo) (gasBudget : Z) (feePrice : BN.t) : BN.t :=
  unitToCurrency native
    (BN.times (BN.times (BN.of_Z gasBudget) (BN.mk 11 (-1)))
       (BN.times (BN.of_BN feePrice) (BN.of_Z (10 ^ 9)))).

(** A quote whose amounts are base-unit integer-valued decimal strings and
    that carries a fee. *)
Definition is_base_unit_quote (q : Quote) : Prop :=
  is_Some (fee q) /\
  (exists s, fromAmount q = AmountString s /\ is_integer_string s = true) /\
  (exists s, toAmount q = AmountString s /\ is_integer_string s = true).

(** What the chain client answers for a transaction it does not know, and
    for one that has no confirmation yet. *)
Definition not_found (r : Result (option TxInfo)) : Prop :=
  r = Ok None \/ (exists e, r = Err e /\ name e = "TxNotFoundError"%string).

Definition unconfirmed (r : Result (option TxInfo)) : Prop :=
  exists tx, r = Ok (Some tx) /\ confirmations tx <= 0.

(** The transactions submitted in a trace. *)
Definition dispatches (t : list Event) : list Event := List.filter is_dispatch t.

(** The provider's [_apiCache] object.  [apiCache_coherent cache t]: in the
    trace [t], started with the cache holding [cache], every read of the
    cache is answered with the entry stored last under the chain id; nothing
    is said about the other collaborators.  [apiCache_after cache t] is the
    cache once [t] has run. *)
Definition apiCache_put (cache : gmap Z ethers.Provider) (ev : Event)
  : gmap Z ethers.Provider :=
  match ev with
  | EvApiCachePut cid api => <[cid := api]> cache
  | _ => cache
  end.

Fixpoint apiCache_coherent (cache : gmap Z ethers.Provider) (t : list Event) : Prop :=
  match t with
  | [] => True
  | ev :: t' =>
      match ev with
      | EvApiCacheGet cid r => r = cache !! cid
      | _ => True
      end /\ apiCache_coherent (apiCache_put cache ev) t'
  end.

Definition apiCache_after (cache : gmap Z ethers.Provider) (t : list Event)
  : gmap Z ethers.Provider :=
  foldl apiCache_put cache t.

(** The chain id [_getApi] looks up for an asset on a network:
    [ChainNetworks[cryptoassets[asset].chain][network].chainId], when the
    three objects are there. *)
Definition chainId_of (this : OriginsSwapProvider) (network asset : string) : option Z :=
  match cryptoassets this !! asset with
  | Some info =>
      match ChainNetworks this !! chain info with
      | Some nets => chainId <$> nets !! network
      | None => None
      end
  | None => None
  end.

(** The RPC providers constructed in a trace. *)
Definition is_new_provider (ev : Event) : bool :=
  match ev with EvNewRpcProvider _ _ => true | _ => false end.

(** A read of the contract deployed at [addr]: isClosed, PPM or
    exchangeRate. *)
Definition is_contract_read (addr : string) (ev : Event) : bool :=
  match ev with
  | EvIsClosed c _ | EvPPM c _ | EvExchangeRate c _ => String.eqb (ethers.address c) addr
  | _ => false
  end.

(** The entry of a status in the static [statuses] table: its step and its
    filter status. *)
Definition status_info (s : string) : option (Z * string) :=
  snd <$> List.find (fun entry => String.eqb (fst entry) s) statuses.

(* ===================================================================== *)
(** * Part 6: a sample deployment

    A provider on RSK and collaborators with fixed answers, used to run the
    methods on concrete inputs. *)
(* ===================================================================== *)

Module Sample.

Definition SOV : AssetInfo :=
  {| chain := "rsk"; decimals := 18;
     contractAddress := Some "0xEFc78fc7d48b64958315949279Ba181c2114ABBd" |}.
Definition ZERO : AssetInfo :=
  {| chain := "rsk"; decimals := 18;
     contractAddress := Some "0xdB107FA69E33f05180a4C2cE9c2E7CB481645C2d" |}.
Definition RBTC : AssetInfo :=
  {| chain := "rsk"; decimals := 18; contractAddress := None |}.
Definition ETH : AssetInfo :=
  {| chain := "ethereum"; decimals := 18; contractAddress := None |}.

Definition provider : OriginsSwapProvider :=
  {| config := {| rpcURL := "https://mainnet.sovryn.app/rpc";
                  presaleAddress := "0x9FBa1b2B1A1a8Fe3e0D1eD0A7AfDB1b3d1C3A5c1";
                  controllerAddress := "0x1111111111111111111111111111111111111111" |};
     cryptoassets :=
       <["SOV" := SOV]> (<["ZERO" := ZERO]> (<["RBTC" := RBTC]> (<["ETH" := ETH]> ∅)));
     ChainNetworks :=
       <["rsk" := <["mainnet" := {| chainId := 30 |}]>
                    (<["testnet" := {| chainId := 31 |}]> ∅)]>
         (<["ethereum" := <["mainnet" := {| chainId := 1 |}]> ∅]> ∅);
     chains :=
       <["rsk" := {| nativeAsset := "RBTC" |}]>
         (<["ethereum" := {| nativeAsset := "ETH" |}]> ∅);
     isERC20 := fun a => (String.eqb a "SOV" || String.eqb a "ZERO")%bool;
     encodeFunctionData := fun f args => Ok ("0x" ++ f)%string |}.

(** The answers of the collaborators. *)
Record Answers : Type :=
  { closed : bool;
    ppm : Z;
    rate : Z;
    allowance : Z;
    tx : Result (option TxInfo);
    receipt : Result (option Receipt);
    sent : Result Tx;
    gas : Z;
    now : Z }.

(** The collaborators: their state is the provider's [_apiCache]. *)
Definition handler (a : Answers) : Handler (gmap Z ethers.Provider) :=
  fun R (c : Call R) =>
    match c in Call R return gmap Z ethers.Provider -> R * gmap Z ethers.Provider with
    | GetClient _ _ _ _ => fun w => (Ok 7%nat, w)
    | GetAccount _ => fun w => (Ok (Some {| type := "default" |}), w)
    | SendTransaction _ _ => fun w => (sent a, w)
    | GetTransactionByHash _ _ => fun w => (tx a, w)
    | GetTransactionReceipt _ _ => fun w => (receipt a, w)
    | EstimateGas _ _ => fun w => (Ok (gas a), w)
    | UpdateBalances _ _ _ => fun w => (tt, w)
    | GetUnusedAddresses _ _ _ _ =>
        fun w => (Ok ["0xAAaa000000000000000000000000000000000001"%string], w)
    | IsClosed _ => fun w => (Ok (closed a), w)
    | PPM _ => fun w => (Ok (ppm a), w)
    | ExchangeRate _ => fun w => (Ok (rate a), w)
    | Allowance _ _ _ => fun w => (Ok (allowance a), w)
    | DateNow => fun w => (now a, w)
    | ConsoleWarn _ => fun w => (tt, w)
    | Uuidv4 => fun w => ("4b1c2a3e-0000-4000-8000-000000000000"%string, w)
    | NewRpcProvider _ => fun w => (Ok (size w), w)
    | ApiCacheGet cid => fun w => (w !! cid, w)
    | ApiCachePut cid api => fun w => (tt, <[cid := api]> w)
    | LockAcquire _ => fun w => (tt, w)
    | LockRelease _ => fun w => (tt, w)
    end.

Definition answers : Answers :=
  {| closed := false; ppm := 1000000; rate := 500000; allowance := 0;
     tx := Ok (Some {| confirmations := 1 |});
     receipt := Ok (Some {| receiptStatus := 1 |});
     sent := Ok {| hash := "0xabc" |};
     gas := 50000; now := 1650000000000 |}.

(** A sale whose rate is one third: PPM = 3, exchangeRate = 1. *)
Definition answers_third : Answers :=
  {| closed := false; ppm := 3; rate := 1; allowance := 0;
     tx := Ok (Some {| confirmations := 1 |});
     receipt := Ok (Some {| receiptStatus := 1 |});
     sent := Ok {| hash := "0xabc" |};
     gas := 50000; now := 1650000000000 |}.

Definition outcome {A : Type} (a : Answers) (p : Prog A) : Result A * list Event :=
  fst (run (handler a) p ∅).

(** Quote requests. *)
Definition quote_unknown_asset : Prog (option Quote) :=
  getQuote provider "mainnet" "FOO" "ZERO" (BN.Fin 1 0).
Definition quote_unsupported_pair : Prog (option Quote) :=
  getQuote provider "mainnet" "SOV" "RBTC" (BN.Fin 1 0).
(** 100, 3 and 1 base units of SOV, and a tenth of a base unit. *)
Definition quote_100_units : Prog (option Quote) :=
  getQuote provider "mainnet" "SOV" "ZERO" (BN.Fin 1 (-16)).
Definition quote_3_units : Prog (option Quote) :=
  getQuote provider "mainnet" "SOV" "ZERO" (BN.Fin 3 (-18)).
Definition quote_1_unit : Prog (option Quote) :=
  getQuote provider "mainnet" "SOV" "ZERO" (BN.Fin 1 (-18)).
Definition quote_tenth_unit : Prog (option Quote) :=
  getQuote provider "mainnet" "SOV" "ZERO" (BN.Fin 1 (-19)).

Definition quote100 : Quote :=
  {| from := "SOV"; to := "ZERO";
     fromAmount := AmountString "100"; toAmount := AmountBN (BN.Fin 5 1);
     fee := None; fromAccountId := None; toAccountId := None |}.

Definition swap100 (st : string) : Swap :=
  {| quote := quote100; status := st;
     approveTxHash := Some "0xapp"%string; swapTxHash := Some "0xabc"%string |}.

(** The steps of the state machine and the methods of the approval leg. *)
Definition waitApprove : Prog (option Updates.t) :=
  waitForApproveConfirmations (swap100 "WAITING_FOR_APPROVE_CONFIRMATIONS")
    "mainnet" "wallet".
Definition waitSwap : Prog (option Updates.t) :=
  waitForSwapConfirmations (swap100 "WAITING_FOR_SWAP_CONFIRMATIONS")
    "mainnet" "wallet".
Definition submit : Prog (option Updates.t) :=
  performNextSwapAction provider tt "mainnet" "wallet" (swap100 "APPROVE_CONFIRMED").
Definition approval : Prog bool := requiresApproval provider "mainnet" "wallet" quote100.
Definition approve : Prog Updates.t := approveTokens provider "mainnet" "wallet" quote100.
Definition fees : Prog (gmap BN.t string) :=
  estimateFees provider "mainnet" "wallet" "SOV" "SWAP" quote100 [BN.Fin 5 0; BN.Fin 1 1].

(** Fee prices of 10^-16 and 10^-18 gwei. *)
Definition fees_tiny : Prog (gmap BN.t string) :=
  estimateFees provider "mainnet" "wallet" "SOV" "SWAP" quote100
    [BN.Fin 1 (-16); BN.Fin 1 (-18)].

(** An allowance equal to the 100 base units of [quote100]. *)
Definition answers_allowance : Answers :=
  {| closed := false; ppm := 1000000; rate := 500000; allowance := 100;
     tx := Ok (Some {| confirmations := 1 |});
     receipt := Ok (Some {| receiptStatus := 1 |});
     sent := Ok {| hash := "0xabc" |};
     gas := 50000; now := 1650000000000 |}.

(** A transaction without confirmation yet, and a swap transaction with
    three confirmations whose receipt reports a revert. *)
Definition answers_unconfirmed : Answers :=
  {| closed := false; ppm := 1000000; rate := 500000; allowance := 0;
     tx := Ok (Some {| confirmations := 0 |});
     receipt := Ok (Some {| receiptStatus := 1 |});
     sent := Ok {| hash := "0xabc" |};
     gas := 50000; now := 1650000000000 |}.

Definition answers_reverted : Answers :=
  {| closed := false; ppm := 1000000; rate := 500000; allowance := 0;
     tx := Ok (Some {| confirmations := 3 |});
     receipt := Ok (Some {| receiptStatus := 0 |});
     sent := Ok {| hash := "0xabc" |};
     gas := 50000; now := 1650000000000 |}.

(** The quote for 100 base units at the rate 0.5. *)
Definition quote_100_expected : Quote :=
  {| from := "SOV"; to := "ZERO";
     fromAmount := AmountString "100"; toAmount := AmountBN (BN.Fin 5 1);
     fee := None; fromAccountId := None; toAccountId := None |}.

(** Two swaps of the same asset, both with their approval confirmed, and a
    schedule in which the second attempt is tried while the first is
    submitting. *)
Definition attempts : list (string * Swap) :=
  [("wallet-1"%string, swap100 "APPROVE_CONFIRMED");
   ("wallet-2"%string, swap100 "APPROVE_CONFIRMED")].

Definition pool : Pool (option Updates.t) :=
  (∅, map (fun a => performNextSwapAction provider tt "mainnet" (fst a) (snd a)) attempts).

Definition schedule : list nat := [0; 1; 0; 1; 0; 0; 1; 0; 0; 0; 1; 1; 1; 1; 1; 1]%nat.

Definition pool_trace : list (nat * Event) :=
  fst (pool_run (handler answers) schedule pool ∅).

(** A new swap of the same asset, started while the two attempts run: the
    first attempt takes the lock, the new swap runs up to its submission,
    then the attempts go on. *)
Definition started : Prog (option Updates.t) :=
  swap <- newSwap provider "mainnet" "wallet-3" quote100 ;;
  Ret (Some (updates swap)).

Definition pool_started : Pool (option Updates.t) :=
  (∅, map (fun a => performNextSwapAction provider tt "mainnet" (fst a) (snd a)) attempts
      ++ [started]).

Definition schedule_started : list nat :=
  [0; 2; 2; 2; 2; 2; 2; 2; 2; 2; 2; 1; 0; 0; 0; 0; 0; 1; 1; 1; 1; 1; 1]%nat.

Definition pool_trace_started : list (nat * Event) :=
  fst (pool_run (handler answers) schedule_started pool_started ∅).

(** The same collaborators, with a chain client that cannot be obtained. *)
Definition handler_no_client (e : JsError) (a : Answers)
  : Handler (gmap Z ethers.Provider) :=
  fun R (c : Call R) =>
    match c in Call R return gmap Z ethers.Provider -> R * gmap Z ethers.Provider with
    | GetClient _ _ _ _ => fun w => (Err e, w)
    | c' => handler a _ c'
    end.

Definition TxNotFoundError : JsError :=
  {| name := "TxNotFoundError"; message := "Transaction not found" |}.

Definition NetworkError : JsError :=
  {| name := "NodeError"; message := "connection refused" |}.

(** A transaction the node does not know, a node that fails, and a
    confirmed transaction whose receipt is missing. *)
Definition answers_not_found : Answers :=
  {| closed := false; ppm := 1000000; rate := 500000; allowance := 0;
     tx := Err TxNotFoundError;
     receipt := Ok (Some {| receiptStatus := 1 |});
     sent := Ok {| hash := "0xabc" |};
     gas := 50000; now := 1650000000000 |}.

Definition answers_node_down : Answers :=
  {| closed := false; ppm := 1000000; rate := 500000; allowance := 0;
     tx := Err NetworkError;
     receipt := Ok (Some {| receiptStatus := 1 |});
     sent := Ok {| hash := "0xabc" |};
     gas := 50000; now := 1650000000000 |}.

Definition answers_no_receipt : Answers :=
  {| closed := false; ppm := 1000000; rate := 500000; allowance := 0;
     tx := Ok (Some {| confirmations := 2 |});
     receipt := Ok None;
     sent := Ok {| hash := "0xabc" |};
     gas := 50000; now := 1650000000000 |}.

(** The quote [getQuote] gives for a tenth of a base unit, and a quote
    whose source asset is the native one. *)
Definition quote_fraction : Quote :=
  {| from := "SOV"; to := "ZERO";
     fromAmount := AmountString "0.1"; toAmount := AmountBN (BN.Fin 5 (-2));
     fee := None; fromAccountId := None; toAccountId := None |}.

Definition quote_native : Quote :=
  {| from := "RBTC"; to := "ZERO";
     fromAmount := AmountString "100"; toAmount := AmountBN (BN.Fin 5 1);
     fee := Some (BN.Fin 5 0); fromAccountId := Some "account-1"%string;
     toAccountId := None |}.

Definition submit_native : Prog Updates.t :=
  sendSwap provider "mainnet" "wallet" quote_native.

Definition start (q : Quote) : Prog NewSwap := newSwap provider "mainnet" "wallet" q.

(** A quote request for an amount that is not a number, and a sale whose
    PPM is zero. *)
Definition quote_nan : Prog (option Quote) :=
  getQuote provider "mainnet" "SOV" "ZERO" BN.NaN.

Definition answers_zero_ppm : Answers :=
  {| closed := false; ppm := 0; rate := 500000; allowance := 0;
     tx := Ok (Some {| confirmations := 1 |});
     receipt := Ok (Some {| receiptStatus := 1 |});
     sent := Ok {| hash := "0xabc" |};
     gas := 50000; now := 1650000000000 |}.

End Sample.

(* ===================================================================== *)
(** * Part 7: the request for origin access

    [requestOriginAccess] is a store action.  It returns a promise that a
    listener of the emitter or the closing of the popup settles later, so
    the model has two layers: the action up to the promise it returns, and
    the deliveries that follow.  console.log, commit, [emitter.$once],
    [stringify] and [createPopup] are taken to return normally; the
    dispatch of requestUnlockWallet is the one call that can fail. *)
(* ===================================================================== *)

Module OriginAccess.

(** The mutations the action commits. *)
Inductive Mutation : Type :=
| SET_ORIGIN_ACCESS_ACTIVE (active : bool)
| ADD_EXTERNAL_CONNECTION (origin activeWalletId accountId chain : string).

(** What the action and its listeners do to the outside, in order:
    console.log, commit, dispatch with its outcome, emitter.$once and
    createPopup. *)
Inductive Effect : Type :=
| ConsoleLog (origin chain : string)
| Commit (m : Mutation)
| Dispatch (action : string) (r : Result unit)
| Once (event : string)
| CreatePopup (url : string).

(** The value the promise resolves with: [{ accepted, chain }]. *)
Record Access : Type := { accepted : bool; chain : string }.

(** A promise: pending, or settled with a value ([None] is undefined) or
    with an error. *)
Inductive Promise : Type :=
| Pending
| Resolved (v : option Access)
| Rejected (e : JsError).

(** [resolve] and [reject] on a promise that is settled do nothing. *)
Definition settle (p q : Promise) : Promise :=
  match p with Pending => q | _ => p end.

Section Action.

(** [stringify] of qs, applied to [{ origin, chain }]. *)
Variable stringify : string -> string -> string.

(** The listener registered with [emitter.$once]: what it commits and how
    it settles the promise.  [activeWalletId] is [state.activeWalletId]
    when the listener runs; [chain] is the parameter of the listener, which
    hides the chain of the request. *)
Definition originListener (origin activeWalletId : string)
    (allowed : bool) (accountId chain : string) : list Effect * Promise :=
  if allowed then
    ([Commit (SET_ORIGIN_ACCESS_ACTIVE false);
      Commit (ADD_EXTERNAL_CONNECTION origin activeWalletId accountId chain)],
     Resolved (Some {| accepted := true; chain := chain |}))
  else
    ([Commit (SET_ORIGIN_ACCESS_ACTIVE false)], Rejected (Error "User denied")).

(** The callback handed to [createPopup]. *)
Definition popupListener : list Effect * Promise :=
  ([Commit (SET_ORIGIN_ACCESS_ACTIVE false)], Rejected (Error "User denied")).

(** The action, given [state.app.requestOriginAccessActive] and the outcome
    of the dispatch of requestUnlockWallet: its effects and the promise it
    returns.  A pending promise has the two listeners registered. *)
Definition requestOriginAccess (requestOriginAccessActive : bool)
    (unlock : Result unit) (origin chain : string) : list Effect * Promise :=
  let log := ConsoleLog origin chain in
  if negb requestOriginAccessActive then
    match unlock with
    | Err e =>
        ([log;
          Commit (SET_ORIGIN_ACCESS_ACTIVE true);
          Dispatch "requestUnlockWallet" (Err e);
          Commit (SET_ORIGIN_ACCESS_ACTIVE false)],
         Rejected e)
    | Ok u =>
        let query := stringify origin chain in
        ([log;
          Commit (SET_ORIGIN_ACCESS_ACTIVE true);
          Dispatch "requestUnlockWallet" (Ok u);
          Once ("origin:" ++ origin);
          CreatePopup ("/enable?" ++ query)],
         Pending)
    end
  else ([log], Resolved None).

(** What happens after the action has returned: the origin event is emitted
    with (allowed, accountId, chain), the store holding [activeWalletId] at
    that moment, or the popup is closed. *)
Inductive Signal : Type :=
| Emitted (allowed : bool) (accountId chain activeWalletId : string)
| PopupClosed.

(** A call in progress: the effects so far, the promise, whether the
    listener of the origin event is still registered ([$once] removes it
    when it has run) and whether a popup has been created. *)
Record Run : Type :=
  { effects : list Effect; promise : Promise; listening : bool; popup : bool }.

Definition start (requestOriginAccessActive : bool) (unlock : Result unit)
    (origin chain : string) : Run :=
  let '(evs, p) := requestOriginAccess requestOriginAccessActive unlock origin chain in
  let registered := match p with Pending => true | _ => false end in
  {| effects := evs; promise := p; listening := registered; popup := registered |}.

Definition deliver (origin : string) (r : Run) (s : Signal) : Run :=
  match s with
  | Emitted allowed accountId chain activeWalletId =>
      if listening r then
        let '(evs, q) := originListener origin activeWalletId allowed accountId chain in
        {| effects := effects r ++ evs; promise := settle (promise r) q;
           listening := false; popup := popup r |}
      else r
  | PopupClosed =>
      if popup r then
        let '(evs, q) := popupListener in
        {| effects := effects r ++ evs; promise := settle (promise r) q;
           listening := listening r; popup := popup r |}
      else r
  end.

(** A call followed by the signals that reach it. *)
Definition run (requestOriginAccessActive : bool) (unlock : Result unit)
    (origin chain : string) (signals : list Signal) : Run :=
  foldl (deliver origin) (start requestOriginAccessActive unlock origin chain) signals.

End Action.

(** The values committed for the flag, in order, and the first origin event
    among signals. *)
Definition flags (evs : list Effect) : list bool :=
  omap (fun ev => match ev with
                  | Commit (SET_ORIGIN_ACCESS_ACTIVE active) => Some active
                  | _ => None
                  end) evs.

(** The flag has been set once, then reset by every listener that has run;
    the promise is pending as long as none has. *)
Definition flag_inv (r : Run) : Prop :=
  exists k, flags (effects r) = true :: replicate k false /\
            (promise r = Pending <-> k = 0%nat).

Definition is_emitted (s : Signal) : bool :=
  match s with Emitted _ _ _ _ => true | PopupClosed => false end.

Definition first_emitted (signals : list Signal) : option Signal :=
  List.find is_emitted signals.

End OriginAccess.

(* ===================================================================== *)
(** * Part 8: lemmas and theorems                                         *)
(* ===================================================================== *)

(** ** The semantics of sequencing, catch and finally *)

Lemma exec_bind {A B : Type} (p : Prog A) (f : A -> Prog B) t res :
  exec (bind p f) t res <->
  (exists e, exec p t (Err e) /\ res = Err e) \/
  (exists a t1 t2, exec p t1 (Ok a) /\ exec (f a) t2 res /\ t = t1 ++ t2).
Proof.
  revert t. induction p as [a|e|R c k IH]; intros t; simpl.
  - split.
    + intros H. right. exists a, [], t. auto.
    + intros [(e & [_ He] & _)|(a' & t1 & t2 & [-> Ha] & H & ->)]; [discriminate|].
      injection Ha as <-. exact H.
  - split.
    + intros [-> ->]. left. eauto.
    + intros [(e' & [-> He] & ->)|(a' & t1 & t2 & [_ Ha] & _)]; [|discriminate].
      injection He as <-. auto.
  - split.
    + intros (r & t' & -> & H). apply IH in H.
      destruct H as [(e & H & ->)|(a & t1 & t2 & H1 & H2 & ->)].
      * left. exists e. split; [|reflexivity]. exists r, t'. auto.
      * right. exists a, (event_of c r :: t1), t2. split; [|split]; auto.
        exists r, t1. auto.
    + intros [(e & (r & t' & -> & H) & ->)|(a & t1 & t2 & (r & t' & -> & H1) & H2 & ->)].
      * exists r, t'. split; [reflexivity|]. apply IH. left. eauto.
      * exists r, (t' ++ t2). split; [reflexivity|]. apply IH. right. eauto 10.
Qed.

(** [finally] runs after the body whatever its outcome, and the outcome of
    the body is the outcome of the whole when [finally] itself returns. *)
Lemma exec_try_finally {A : Type} (p : Prog A) (f : Prog unit) t res :
  exec (try_finally p f) t res <->
  exists t1 r1 t2 r2, exec p t1 r1 /\ exec f t2 r2 /\ t = t1 ++ t2 /\
    res = match r2 with Ok _ => r1 | Err e => Err e end.
Proof.
  revert t. induction p as [a|e|R c k IH]; intros t; simpl.
  - rewrite exec_bind. simpl. split.
    + intros [(e & H & ->)|(u & t1 & t2 & H1 & [-> ->] & ->)].
      * exists [], (Ok a), t, (Err e). auto.
      * exists [], (Ok a), t1, (Ok u). rewrite app_nil_r. auto.
    + intros (t1 & r1 & t2 & r2 & [-> ->] & H2 & -> & ->). simpl.
      destruct r2 as [u|e]; [right|left]; eauto.
      exists u, t2, []. rewrite app_nil_r. auto.
  - rewrite exec_bind. simpl. split.
    + intros [(e' & H & ->)|(u & t1 & t2 & H1 & [-> ->] & ->)].
      * exists [], (Err e), t, (Err e'). auto.
      * exists [], (Err e), t1, (Ok u). rewrite app_nil_r. auto.
    + intros (t1 & r1 & t2 & r2 & [-> ->] & H2 & -> & ->). simpl.
      destruct r2 as [u|e']; [right|left]; eauto.
      exists u, t2, []. rewrite app_nil_r. auto.
  - split.
    + intros (r & t' & -> & H). apply IH in H.
      destruct H as (t1 & r1 & t2 & r2 & H1 & H2 & -> & ->).
      exists (event_of c r :: t1), r1, t2, r2. split; [|auto].
      exists r, t1. auto.
    + intros (t1 & r1 & t2 & r2 & (r & t' & -> & H1) & H2 & -> & ->).
      exists r, (t' ++ t2). split; [reflexivity|]. apply IH. eauto 10.
Qed.

(** The executable semantics is one of the executions. *)
Lemma run_exec {W A : Type} (h : Handler W) (p : Prog A) (w : W) :
  exec p (snd (fst (run h p w))) (fst (fst (run h p w))).
Proof.
  revert w. induction p as [a|e|R c k IH]; intros w; simpl; auto.
  destruct (h R c w) as [r w1] eqn:Hh.
  specialize (IH r w1). destruct (run h (k r) w1) as [[res t] w2]. simpl in *.
  exists r, t. auto.
Qed.

(** Every program has an execution, whatever the collaborators answer. *)
Lemma exec_total {W A : Type} (h : Handler W) (p : Prog A) (w : W) :
  exists t res, exec p t res.
Proof. eexists _, _. apply (run_exec h p w). Qed.

(** The methods are kept folded in proofs and opened one at a time. *)
Opaque _getApi checkSaleClosed getDepositRate getQuote inputAmount_of
  requiresApproval buildApprovalTx approveTokens buildSwapTx sendSwap newSwap
  estimateFees_loop estimateFees waitForApproveConfirmations
  waitForSwapConfirmations performNextSwapAction.

Ltac open_method c := with_strategy transparent [c] (unfold c in * ).

(** The value a program is waiting for: the scrutinee of the match at its
    head. *)
Ltac head_scrut p k :=
  lazymatch p with
  | bind ?q _ => head_scrut q k
  | try_catch ?q _ => head_scrut q k
  | try_finally ?q _ => head_scrut q k
  | match ?x with _ => _ end => k x
  end.

(** Case analysis of an execution, one call at a time; an execution of
    [p ;; f] with [p] a method is split into one of [p] and one of [f]. *)
Ltac exec_inv :=
  repeat (unfold deref, lift, await, call in *; cbn in *; subst;
    match goal with
    | H : _ = [] /\ _ = _ |- _ => destruct H
    | H : exists r t', _ = _ :: _ /\ _ |- _ =>
        let r := fresh "r" in let t := fresh "t" in
        destruct H as (r & t & ? & H)
    | H : exec ?p _ _ |- _ =>
        first
          [ head_scrut p ltac:(fun x => destruct x eqn:?)
          | lazymatch p with
            | bind _ _ =>
                let e := fresh "e" in let a := fresh "a" in
                let t1 := fresh "t" in let t2 := fresh "t" in
                let H' := fresh "H" in
                apply exec_bind in H;
                destruct H as [(e & H & ?)|(a & t1 & t2 & H' & H & ?)]
            end ]
    end);
  cbn in *; subst.

(** Case analysis of the membership of an event in an explicit trace. *)
Ltac in_inv H :=
  simpl in H;
  repeat (destruct H as [H|H]; [try discriminate H|]);
  try contradiction.

Lemma gtb_false a : (a >? 0) = false -> a <= 0.
Proof. rewrite Z.gtb_ltb. apply Z.ltb_ge. Qed.

Lemma gtb_true a : (a >? 0) = true -> 0 < a.
Proof. rewrite Z.gtb_ltb. apply Z.ltb_lt. Qed.

(** ** The confirmation pollers *)

(** C10: when the approval transaction is found with more than zero
    confirmations, [waitForApproveConfirmations] returns an update whose
    status is APPROVE_CONFIRMED and whose endTime is the time read from the
    clock at that moment: endTime is stamped at this non-terminal step. *)
Theorem waitForApproveConfirmations_confirmed swap network walletId t res client tx :
  exec (waitForApproveConfirmations swap network walletId) t res ->
  In (EvGetTransactionByHash client (approveTxHash swap) (Ok (Some tx))) t ->
  0 < confirmations tx ->
  exists now,
    t = [EvGetClient network walletId (from swap) (fromAccountId swap) (Ok client);
         EvGetTransactionByHash client (approveTxHash swap) (Ok (Some tx));
         EvDateNow now] /\
    res = Ok (Some {| Updates.status := "APPROVE_CONFIRMED";
                      Updates.endTime := Some now;
                      Updates.approveTx := None; Updates.approveTxHash := None;
                      Updates.swapTx := None; Updates.swapTxHash := None |}).
Proof.
  open_method waitForApproveConfirmations. unfold catch_TxNotFoundError in *.
  intros H Hin Hc. exec_inv; in_inv Hin; injection Hin as -> ->.
  - eauto.
  - apply gtb_false in Heqb. lia.
Qed.


(** C6: [waitForSwapConfirmations] returns no update, and neither fetches
    the receipt nor refreshes balances, when the swap transaction is not
    found or has no confirmation.  When it is found with at least one
    confirmation the receipt is fetched; once the receipt is there, a
    balance refresh for the source asset is triggered, endTime is stamped
    and the status is SUCCESS for a receipt status equal to 1 and FAILED for
    any other. *)
Theorem waitForSwapConfirmations_outcomes swap network walletId t res :
  exec (waitForSwapConfirmations swap network walletId) t res ->
  (forall client r,
      In (EvGetTransactionByHash client (swapTxHash swap) r) t ->
      not_found r \/ unconfirmed r ->
      res = Ok None /\
      forall ev, In ev t ->
        match ev with
        | EvGetTransactionReceipt _ _ _ | EvUpdateBalances _ _ _ | EvDateNow _ => False
        | _ => True
        end) /\
  (forall client tx,
      In (EvGetTransactionByHash client (swapTxHash swap) (Ok (Some tx))) t ->
      0 < confirmations tx ->
      exists r, In (EvGetTransactionReceipt client (swapTxHash swap) r) t /\
        forall receipt, r = Ok (Some receipt) ->
          exists now,
            t = [EvGetClient network walletId (from swap) (fromAccountId swap) (Ok client);
                 EvGetTransactionByHash client (swapTxHash swap) (Ok (Some tx));
                 EvGetTransactionReceipt client (swapTxHash swap) (Ok (Some receipt));
                 EvUpdateBalances network walletId [from swap];
                 EvDateNow now] /\
            res = Ok (Some {| Updates.status :=
                                if receiptStatus receipt =? 1 then "SUCCESS" else "FAILED";
                              Updates.endTime := Some now;
                              Updates.approveTx := None; Updates.approveTxHash := None;
                              Updates.swapTx := None; Updates.swapTxHash := None |})).
Proof.
  open_method waitForSwapConfirmations.
  unfold catch_TxNotFoundError, not_found, unconfirmed in *.
  intros H. split.
  - intros client r Hin Hr.
    assert (Hr' : forall tx, r = Ok (Some tx) -> (confirmations tx >? 0) = true -> False).
    { intros tx -> Hc%gtb_true.
      destruct Hr as [[Hr|(e & Hr & _)]|(tx' & Hr & Hle)]; try discriminate.
      injection Hr as <-. lia. }
    assert (He : forall e, r = Err e -> String.eqb (name e) "TxNotFoundError" = false -> False).
    { intros e -> Hn.
      destruct Hr as [[Hr|(e' & Hr & Hn')]|(tx' & Hr & Hle)]; try discriminate.
      injection Hr as <-. apply String.eqb_neq in Hn. contradiction. }
    clear Hr.
    exec_inv; in_inv Hin; injection Hin as -> <-;
      try (exfalso; eapply Hr'; [reflexivity|eassumption]);
      try (exfalso; eapply He; [reflexivity|eassumption]).
    all: split; [reflexivity|].
    all: intros ev Hev; in_inv Hev; subst; exact I.
  - intros client tx Hin Hc.
    exec_inv; in_inv Hin; injection Hin as -> ->;
      try (apply gtb_false in Heqb; lia).
    all: eexists; (split; [simpl; eauto|]); intros receipt Hr;
      try discriminate Hr; injection Hr as ->; eauto.
Qed.

(** ** The state machine *)


(** What [sendSwap] returns, when it returns. *)
Lemma sendSwap_returns this network walletId (quote : Quote) t u :
  exec (sendSwap this network walletId quote) t (Ok u) ->
  exists t1 txData client swapTx,
    exec (buildSwapTx this network walletId quote) t1 (Ok txData) /\
    t = t1 ++ [EvGetClient network walletId (from quote) (fromAccountId quote) (Ok client);
               EvSendTransaction client txData (Ok swapTx)] /\
    u = {| Updates.status := "WAITING_FOR_SWAP_CONFIRMATIONS";
           Updates.endTime := None;
           Updates.approveTx := None; Updates.approveTxHash := None;
           Updates.swapTx := Some swapTx;
           Updates.swapTxHash := Some (hash swapTx) |}.
Proof.
  open_method sendSwap. rewrite exec_bind.
  intros [(e & _ & [=])|(txData & t1 & t2 & H1 & H2 & ->)].
  exec_inv; try discriminate.
  match goal with H : Ok _ = Ok _ |- _ => injection H as -> end.
  eauto 10.
Qed.

(** What the pollers return, when they return. *)
Lemma waitForApproveConfirmations_returns swap network walletId t u :
  exec (waitForApproveConfirmations swap network walletId) t (Ok u) ->
  u = None \/ exists upd, u = Some upd /\ Updates.status upd = "APPROVE_CONFIRMED"%string.
Proof.
  open_method waitForApproveConfirmations. unfold catch_TxNotFoundError. intros H.
  exec_inv; try discriminate;
    match goal with H : Ok _ = Ok _ |- _ => injection H as -> end; eauto.
Qed.

Lemma waitForSwapConfirmations_returns swap network walletId t u :
  exec (waitForSwapConfirmations swap network walletId) t (Ok u) ->
  u = None \/
  exists upd, u = Some upd /\
    (Updates.status upd = "SUCCESS"%string \/ Updates.status upd = "FAILED"%string).
Proof.
  open_method waitForSwapConfirmations. unfold catch_TxNotFoundError. intros H.
  exec_inv; try discriminate;
    match goal with H : Ok _ = Ok _ |- _ => injection H as -> end; eauto.
  all: right; eexists; split; [reflexivity|]; simpl;
    match goal with |- context [if ?b then _ else _] => destruct b end; auto.
Qed.

(** C1: [performNextSwapAction] only moves a swap forward along the path
    WAITING_FOR_APPROVE_CONFIRMATIONS, APPROVE_CONFIRMED,
    WAITING_FOR_SWAP_CONFIRMATIONS, SUCCESS or FAILED.  When it returns: from
    WAITING_FOR_APPROVE_CONFIRMATIONS, no update or APPROVE_CONFIRMED; from
    APPROVE_CONFIRMED, WAITING_FOR_SWAP_CONFIRMATIONS; from
    WAITING_FOR_SWAP_CONFIRMATIONS, no update, SUCCESS or FAILED; in SUCCESS
    and FAILED it performs no call and returns no update.  Hence the status
    of an update is always later on the path than the status of the swap. *)
Theorem performNextSwapAction_forward this store network walletId swap t res :
  exec (performNextSwapAction this store network walletId swap) t res ->
  (status swap = "WAITING_FOR_APPROVE_CONFIRMATIONS"%string ->
   forall u, res = Ok u ->
     u = None \/
     exists upd, u = Some upd /\ Updates.status upd = "APPROVE_CONFIRMED"%string) /\
  (status swap = "APPROVE_CONFIRMED"%string ->
   forall u, res = Ok u ->
     exists upd, u = Some upd /\
       Updates.status upd = "WAITING_FOR_SWAP_CONFIRMATIONS"%string) /\
  (status swap = "WAITING_FOR_SWAP_CONFIRMATIONS"%string ->
   forall u, res = Ok u ->
     u = None \/
     exists upd, u = Some upd /\
       (Updates.status upd = "SUCCESS"%string \/ Updates.status upd = "FAILED"%string)) /\
  (status swap = "SUCCESS"%string \/ status swap = "FAILED"%string ->
   t = [] /\ res = Ok None) /\
  (forall upd i, res = Ok (Some upd) -> path_index (status swap) = Some i ->
     exists j, path_index (Updates.status upd) = Some j /\ (i < j)%nat).
Proof.
  intros H.
  assert (H1 : status swap = "WAITING_FOR_APPROVE_CONFIRMATIONS"%string ->
               forall u, res = Ok u ->
               u = None \/
               exists upd, u = Some upd /\ Updates.status upd = "APPROVE_CONFIRMED"%string).
  { intros Hs u ->. open_method performNextSwapAction. rewrite Hs in H. simpl in H.
    eapply waitForApproveConfirmations_returns, H. }
  assert (H2 : status swap = "APPROVE_CONFIRMED"%string ->
               forall u, res = Ok u ->
               exists upd, u = Some upd /\
                 Updates.status upd = "WAITING_FOR_SWAP_CONFIRMATIONS"%string).
  { intros Hs u ->. open_method performNextSwapAction. rewrite Hs in H.
    cbn [String.eqb Ascii.eqb Bool.eqb] in H. unfold withLock in H.
    apply exec_bind in H. destruct H as [(e & _ & [=])|(x & t1 & t2 & _ & H & _)].
    apply exec_try_finally in H.
    destruct H as (t3 & r1 & t4 & r2 & Hb & Hf & -> & Hres).
    destruct r2 as [[]|e]; [|discriminate]. subst r1.
    apply exec_bind in Hb. destruct Hb as [(e & _ & [=])|(upd & t5 & t6 & Hs' & Hr & ->)].
    simpl in Hr. destruct Hr as [_ [= ->]].
    apply sendSwap_returns in Hs'. destruct Hs' as (? & ? & ? & ? & _ & _ & ->).
    eauto. }
  assert (H3 : status swap = "WAITING_FOR_SWAP_CONFIRMATIONS"%string ->
               forall u, res = Ok u ->
               u = None \/
               exists upd, u = Some upd /\
                 (Updates.status upd = "SUCCESS"%string \/
                  Updates.status upd = "FAILED"%string)).
  { intros Hs u ->. open_method performNextSwapAction. rewrite Hs in H. simpl in H.
    eapply waitForSwapConfirmations_returns, H. }
  assert (H4 : status swap = "SUCCESS"%string \/ status swap = "FAILED"%string ->
               t = [] /\ res = Ok None).
  { intros [Hs|Hs]; open_method performNextSwapAction; rewrite Hs in H; exact H. }
  repeat split; auto; try (apply H4; auto).
  intros upd i -> Hi. unfold path_index in Hi.
  destruct (String.eqb_spec (status swap) "WAITING_FOR_APPROVE_CONFIRMATIONS") as [E1|_].
  { injection Hi as <-. destruct (H1 E1 _ eq_refl) as [[=]|(upd' & [= <-] & ->)].
    exists 1%nat. split; [reflexivity|lia]. }
  destruct (String.eqb_spec (status swap) "APPROVE_CONFIRMED") as [E2|_].
  { injection Hi as <-. destruct (H2 E2 _ eq_refl) as (upd' & [= <-] & ->).
    exists 2%nat. split; [reflexivity|lia]. }
  destruct (String.eqb_spec (status swap) "WAITING_FOR_SWAP_CONFIRMATIONS") as [E3|_].
  { injection Hi as <-. destruct (H3 E3 _ eq_refl) as [[=]|(upd' & [= <-] & [->| ->])];
      exists 3%nat; (split; [reflexivity|lia]). }
  destruct (String.eqb_spec (status swap) "SUCCESS") as [E4|_].
  { destruct (H4 (or_introl E4)) as [_ [=]]. }
  destruct (String.eqb_spec (status swap) "FAILED") as [E5|_].
  { destruct (H4 (or_intror E5)) as [_ [=]]. }
  discriminate.
Qed.

(** ** Approval *)

Lemma geb_false a b : (a >=? b) = false -> a < b.
Proof. rewrite Z.geb_leb. apply Z.leb_gt. Qed.

Lemma geb_true a b : (a >=? b) = true -> b <= a.
Proof. rewrite Z.geb_leb. apply Z.leb_le. Qed.

(** C4: [requiresApproval] returns false for a source asset that is not an
    ERC20 token, without any call.  For a token, when it returns, it has
    read the allowance the owner granted to the presale address on the
    token's contract, and it returns false exactly when that allowance is at
    least the input amount of the quote; in particular it returns false
    when the two are equal. *)
Theorem requiresApproval_spec this network walletId (quote : Quote) t res :
  exec (requiresApproval this network walletId quote) t res ->
  (isERC20 this (from quote) = false -> t = [] /\ res = Ok false) /\
  (isERC20 this (from quote) = true ->
   forall b, res = Ok b ->
     exists info addr api t0 addresses owner allowance inputAmount,
       cryptoassets this !! from quote = Some info /\
       contractAddress info = Some addr /\
       head addresses = Some owner /\
       t = t0 ++ [EvGetUnusedAddresses network walletId [from quote]
                    (toAccountId quote) (Ok addresses);
                  EvAllowance
                    {| ethers.address := JsString.toLowerCase addr;
                       ethers.provider := api |}
                    (JsString.toLowerCase owner)
                    (JsString.toLowerCase (presaleAddress (config this)))
                    (Ok allowance)] /\
       ethers.BigNumber_from (BN.toFixed (BN_ (fromAmount quote))) = Ok inputAmount /\
       (b = false <-> inputAmount <= allowance) /\
       (allowance = inputAmount -> b = false)).
Proof.
  open_method requiresApproval. open_method inputAmount_of.
  intros H. split; intros E; rewrite E in H; simpl in H.
  - exact H.
  - intros b ->. exec_inv; try discriminate.
    all: match goal with H : Ok _ = Ok _ |- _ => injection H as -> end.
    all: repeat eexists; eauto.
    all: try (apply geb_true in Heqb0); try (apply geb_false in Heqb0);
      try lia; try discriminate; try reflexivity.
Qed.

Lemma _getApi_no_dispatch this network asset t res :
  exec (_getApi this network asset) t res ->
  forall ev, In ev t -> is_dispatch ev = false.
Proof.
  open_method _getApi. intros H ev Hin.
  exec_inv; in_inv Hin; subst; reflexivity.
Qed.

Lemma requiresApproval_no_dispatch this network walletId (quote : Quote) t res :
  exec (requiresApproval this network walletId quote) t res ->
  forall ev, In ev t -> is_dispatch ev = false.
Proof.
  open_method requiresApproval. open_method inputAmount_of. intros H ev Hin.
  exec_inv;
    repeat match goal with
      | H : In _ (_ ++ _) |- _ => apply in_app_or in H; destruct H as [H|H]
      | H : exec (_getApi _ _ _) ?t _, H' : In ?ev ?t |- _ =>
          exact (_getApi_no_dispatch _ _ _ _ _ H _ H')
      end;
    in_inv Hin; subst; reflexivity.
Qed.

(** C5: [approveTokens] first evaluates [requiresApproval].  When that is
    false it returns exactly the update with status APPROVE_CONFIRMED, and no
    transaction has been submitted.  When it is true and [approveTokens]
    returns, it has built the approval transaction, submitted it through the
    chain client and returns status WAITING_FOR_APPROVE_CONFIRMATIONS with
    the transaction the client answered and its hash. *)
Theorem approveTokens_spec this network walletId (quote : Quote) t res :
  exec (approveTokens this network walletId quote) t res ->
  exists t1 r1,
    exec (requiresApproval this network walletId quote) t1 r1 /\
    match r1 with
    | Err e => t = t1 /\ res = Err e
    | Ok false =>
        t = t1 /\
        res = Ok (Updates.of_status "APPROVE_CONFIRMED") /\
        (forall ev, In ev t -> is_dispatch ev = false)
    | Ok true =>
        exists t2, t = t1 ++ t2 /\
        forall u, res = Ok u ->
          exists t3 txData client approveTx,
            exec (buildApprovalTx this network walletId quote) t3 (Ok txData) /\
            t2 = t3 ++ [EvGetClient network walletId (from quote)
                          (fromAccountId quote) (Ok client);
                        EvSendTransaction client txData (Ok approveTx)] /\
            u = {| Updates.status := "WAITING_FOR_APPROVE_CONFIRMATIONS";
                   Updates.endTime := None;
                   Updates.approveTx := Some approveTx;
                   Updates.approveTxHash := Some (hash approveTx);
                   Updates.swapTx := None;
                   Updates.swapTxHash := None |}
    end.
Proof.
  open_method approveTokens. rewrite exec_bind.
  intros [(e & H & ->)|(b & t1 & t2 & H1 & H2 & ->)].
  - exists t, (Err e). auto.
  - exists t1, (Ok b). split; [exact H1|]. destruct b; simpl in H2.
    + exists t2. split; [reflexivity|]. intros u ->.
      exec_inv; try discriminate.
      match goal with H : Ok _ = Ok _ |- _ => injection H as -> end.
      eauto 10.
    + destruct H2 as [-> ->]. rewrite app_nil_r. repeat split.
      eapply requiresApproval_no_dispatch, H1.
Qed.

(** ** Decimal strings *)

Module JsStringFacts.
Import JsString.

Lemma digit_val_char d : 0 <= d < 10 -> digit_val (digit_char d) = Some d.
Proof.
  intros Hd. assert (H : exists n, d = Z.of_nat n /\ (n < 10)%nat).
  { exists (Z.to_nat d). lia. }
  destruct H as (n & -> & Hn).
  do 10 (destruct n as [|n]; [reflexivity|]). lia.
Qed.

Lemma is_digit_val c : is_digit c -> exists d, 0 <= d < 10 /\ digit_val c = Some d.
Proof. intros (d & Hd & ->). exists d. split; [exact Hd|]. now apply digit_val_char. Qed.

Lemma is_digit_not_special c :
  is_digit c ->
  is_dot c = false /\ is_e c = false /\ Ascii.eqb c "-" = false /\
  Ascii.eqb c "+" = false /\ c <> "N"%char /\ c <> "I"%char.
Proof.
  intros (d & Hd & ->). assert (H : exists n, d = Z.of_nat n /\ (n < 10)%nat).
  { exists (Z.to_nat d). lia. }
  destruct H as (n & -> & Hn).
  do 10 (destruct n as [|n]; [repeat split; discriminate|]). lia.
Qed.

Lemma digits_fixed_length w n : length (digits_fixed w n) = w.
Proof.
  revert n. induction w as [|w IH]; intros n; simpl; [reflexivity|].
  rewrite length_app, IH. simpl. lia.
Qed.

Lemma digits_fixed_is_digit w n : Forall is_digit (digits_fixed w n).
Proof.
  revert n. induction w as [|w IH]; intros n; simpl; [constructor|].
  apply Forall_app. split; [apply IH|]. constructor; [|constructor].
  exists (n mod 10). split; [|reflexivity]. apply Z.mod_pos_bound. lia.
Qed.

Lemma parse_digits_acc_app acc a b :
  parse_digits_acc acc (a ++ b) =
  match parse_digits_acc acc a with
  | Some x => parse_digits_acc x b
  | None => None
  end.
Proof.
  revert acc. induction a as [|c a IH]; intros acc; simpl; [reflexivity|].
  destruct (digit_val c); [apply IH|reflexivity].
Qed.

Lemma parse_digits_fixed w : forall n acc,
  0 <= n ->
  parse_digits_acc acc (digits_fixed w n) = Some (acc * 10 ^ Z.of_nat w + n mod 10 ^ Z.of_nat w).
Proof.
  induction w as [|w IH]; intros n acc Hn.
  - simpl. rewrite Z.mod_1_r. f_equal. lia.
  - cbn [digits_fixed]. rewrite parse_digits_acc_app, IH by (apply Z.div_pos; lia).
    cbn [parse_digits_acc]. rewrite digit_val_char by (apply Z.mod_pos_bound; lia).
    f_equal. rewrite Nat2Z.inj_succ, Z.pow_succ_r by lia.
    assert (Hp : 0 < 10 ^ Z.of_nat w) by (apply Z.pow_pos_nonneg; lia).
    rewrite (Z.rem_mul_r n 10 (10 ^ Z.of_nat w)) by lia. lia.
Qed.

Lemma parse_digits_acc_zero l : parse_digits_acc 0 ("0"%char :: l) = parse_digits_acc 0 l.
Proof. reflexivity. Qed.

Lemma parse_strip_zeros l : parse_digits (strip_zeros l) = parse_digits l.
Proof.
  unfold parse_digits. induction l as [|c l IH]; [reflexivity|].
  cbn [strip_zeros]. destruct l as [|c' l]; [reflexivity|].
  destruct (Ascii.eqb_spec c "0") as [->|]; [|reflexivity].
  rewrite IH. reflexivity.
Qed.

Lemma strip_zeros_is_digit l : Forall is_digit l -> Forall is_digit (strip_zeros l).
Proof.
  induction l as [|c l IH]; intros H; [constructor|].
  cbn [strip_zeros]. destruct l as [|c' l]; [exact H|].
  destruct (Ascii.eqb c "0"); [|exact H]. apply IH. now inversion H.
Qed.

Lemma strip_zeros_nonempty l : l <> [] -> strip_zeros l <> [].
Proof.
  induction l as [|c l IH]; intros H; [contradiction|].
  cbn [strip_zeros]. destruct l as [|c' l]; [discriminate|].
  destruct (Ascii.eqb c "0"); [|discriminate]. apply IH. discriminate.
Qed.

Lemma lt_pow10_log2 n : 0 <= n -> n < 10 ^ Z.of_nat (S (Z.to_nat (Z.log2 n))).
Proof.
  intros Hn. rewrite Nat2Z.inj_succ, Z2Nat.id by apply Z.log2_nonneg.
  destruct (Z.eq_dec n 0) as [->|Hz]; [reflexivity|].
  assert (H2 : n < 2 ^ Z.succ (Z.log2 n)) by (apply Z.log2_spec; lia).
  assert (Hl : 0 <= Z.log2 n) by apply Z.log2_nonneg.
  assert (2 ^ Z.succ (Z.log2 n) <= 10 ^ Z.succ (Z.log2 n))
    by (apply Z.pow_le_mono_l; lia).
  lia.
Qed.

Lemma parse_digits_digits n : 0 <= n -> parse_digits (digits n) = Some n.
Proof.
  intros Hn. unfold digits. rewrite parse_strip_zeros. unfold parse_digits.
  rewrite parse_digits_fixed by exact Hn. f_equal.
  rewrite Z.mod_small; [lia|]. split; [exact Hn|]. now apply lt_pow10_log2.
Qed.

Lemma digits_is_digit n : Forall is_digit (digits n).
Proof. apply strip_zeros_is_digit, digits_fixed_is_digit. Qed.

Lemma digits_nonempty n : digits n <> [].
Proof.
  apply strip_zeros_nonempty. intros H.
  apply (f_equal (@length ascii)) in H. rewrite digits_fixed_length in H. discriminate.
Qed.

Lemma split_on_none p l :
  Forall (fun c => p c = false) l -> split_on p l = (l, None).
Proof.
  induction 1 as [|c l Hc _ IH]; [reflexivity|].
  cbn [split_on]. rewrite Hc, IH. reflexivity.
Qed.

Lemma split_on_first p a c b :
  Forall (fun c => p c = false) a -> p c = true ->
  split_on p (a ++ c :: b) = (a, Some b).
Proof.
  intros Ha Hc. induction Ha as [|x a Hx _ IH]; cbn [split_on app].
  - rewrite Hc. reflexivity.
  - rewrite Hx, IH. reflexivity.
Qed.

Lemma is_digit_no_dot l : Forall is_digit l -> Forall (fun c => is_dot c = false) l.
Proof.
  intros H. eapply Forall_impl; [exact H|].
  intros c Hc. now apply is_digit_not_special.
Qed.

Lemma is_digit_no_e l : Forall is_digit l -> Forall (fun c => is_e c = false) l.
Proof.
  intros H. eapply Forall_impl; [exact H|].
  intros c Hc. now apply is_digit_not_special.
Qed.

Lemma parse_digits_is_digit l : Forall is_digit l -> exists v, parse_digits l = Some v.
Proof.
  unfold parse_digits. intros H. generalize 0.
  induction H as [|c l Hc _ IH]; intros acc.
  - exists acc. reflexivity.
  - cbn [parse_digits_acc]. destruct (is_digit_val c Hc) as (d & _ & ->). apply IH.
Qed.

End JsStringFacts.

(** ** bignumber.js: values and canonical forms *)

Module BNFacts.
Import JsString JsStringFacts BN.

Lemma pow10Q_pos e : (0 < (10 # 1) ^ e)%Q.
Proof. apply Qpower_0_lt. reflexivity. Qed.

Lemma pow10Q_add a b : ((10 # 1) ^ (a + b) == (10 # 1) ^ a * (10 # 1) ^ b)%Q.
Proof. apply Qpower_plus. discriminate. Qed.

Lemma value_shift c e k : 0 <= k -> (value (c * 10 ^ k) e == value c (e + k))%Q.
Proof.
  intros Hk. unfold value.
  rewrite inject_Z_mult, (Zpower_Qpower 10 k Hk), pow10Q_add.
  change (inject_Z 10) with (10 # 1). ring.
Qed.

Lemma value_inj c1 c2 e : (value c1 e == value c2 e)%Q -> c1 = c2.
Proof.
  unfold value. intros H. apply Qmult_inj_r in H.
  - unfold Qeq in H. simpl in H. lia.
  - intros E. pose proof (pow10Q_pos e) as Hp. rewrite E in Hp. discriminate.
Qed.

Lemma value_le c1 e1 c2 e2 :
  e1 <= e2 -> (value c1 e1 == value c2 e2)%Q -> c1 = c2 * 10 ^ (e2 - e1).
Proof.
  intros Hle H. apply (value_inj _ _ e1). rewrite H.
  rewrite value_shift by lia. replace (e1 + (e2 - e1)) with e2 by lia. reflexivity.
Qed.

Lemma value_opp c e : (value (- c) e == - value c e)%Q.
Proof. unfold value. rewrite inject_Z_opp. ring. Qed.

Lemma mul_pow10_mod c k : 0 < k -> (c * 10 ^ k) mod 10 = 0.
Proof.
  intros Hk. replace k with (1 + (k - 1)) by lia.
  rewrite Z.pow_add_r, Z.pow_1_r by lia.
  replace (c * (10 * 10 ^ (k - 1))) with (c * 10 ^ (k - 1) * 10) by ring.
  apply Z_mod_mult.
Qed.

Lemma canonical_le c1 e1 c2 e2 :
  canonical (Fin c1 e1) -> canonical (Fin c2 e2) -> e1 <= e2 ->
  (value c1 e1 == value c2 e2)%Q -> c1 = c2 /\ e1 = e2.
Proof.
  intros H1 H2 Hle H. apply value_le in H; [|exact Hle].
  destruct (Z.eq_dec e1 e2) as [->|Hne].
  - rewrite Z.sub_diag, Z.pow_0_r, Z.mul_1_r in H. auto.
  - exfalso. assert (Hm : c1 mod 10 = 0) by (rewrite H; apply mul_pow10_mod; lia).
    destruct H1 as [[-> ->]|H1]; [|contradiction].
    assert (Hp : 0 < 10 ^ (e2 - 0)) by (apply Z.pow_pos_nonneg; lia).
    assert (c2 = 0) by nia. subst c2.
    destruct H2 as [[_ ->]|H2]; [lia|]. apply H2. reflexivity.
Qed.

(** Two canonical values with the same rational are equal. *)
Lemma canonical_inj c1 e1 c2 e2 :
  canonical (Fin c1 e1) -> canonical (Fin c2 e2) ->
  (value c1 e1 == value c2 e2)%Q -> Fin c1 e1 = Fin c2 e2.
Proof.
  intros H1 H2 H. destruct (Z.le_ge_cases e1 e2) as [Hle|Hle].
  - destruct (canonical_le _ _ _ _ H1 H2 Hle H) as [-> ->]. reflexivity.
  - symmetry in H. destruct (canonical_le _ _ _ _ H2 H1 Hle H) as [-> ->]. reflexivity.
Qed.

Lemma strip10_spec fuel : forall c e c' e',
  strip10 fuel c e = (c', e') ->
  exists k, 0 <= k /\ e' = e + k /\ c = c' * 10 ^ k.
Proof.
  induction fuel as [|f IH]; intros c e c' e' H; cbn [strip10] in H.
  - injection H as <- <-. exists 0. split; [lia|]. split; [lia|]. simpl. lia.
  - destruct (Z.eqb_spec (c mod 10) 0) as [Hm|Hm].
    + apply IH in H. destruct H as (k & Hk & -> & Hc). exists (k + 1).
      split; [lia|]. split; [lia|].
      rewrite Z.pow_add_r, Z.pow_1_r by lia.
      rewrite (Z_div_mod_eq_full c 10), Hm, Hc. ring.
    + injection H as <- <-. exists 0. split; [lia|]. split; [lia|]. simpl. lia.
Qed.

Lemma strip10_canonical fuel : forall c e c' e',
  c <> 0 -> Z.abs c < 10 ^ Z.of_nat fuel ->
  strip10 fuel c e = (c', e') -> c' mod 10 <> 0.
Proof.
  induction fuel as [|f IH]; intros c e c' e' Hc Hlt H; cbn [strip10] in H.
  - simpl in Hlt. lia.
  - destruct (Z.eqb_spec (c mod 10) 0) as [Hm|Hm].
    + assert (Hd : c = 10 * (c / 10)) by (rewrite (Z_div_mod_eq_full c 10) at 1; lia).
      apply IH in H; [exact H|lia|].
      rewrite Nat2Z.inj_succ, Z.pow_succ_r in Hlt by lia. lia.
    + injection H as <- <-. exact Hm.
Qed.

Lemma mk_spec c e :
  exists c' e', mk c e = Fin c' e' /\ canonical (Fin c' e') /\
                (value c' e' == value c e)%Q.
Proof.
  unfold mk. destruct (Z.eqb_spec c 0) as [->|Hc].
  - exists 0, 0. split; [reflexivity|]. split; [left; auto|].
    unfold value. simpl. ring.
  - destruct (strip10 _ c e) as [c' e'] eqn:Hs.
    exists c', e'. split; [reflexivity|]. split.
    + right. eapply strip10_canonical; [exact Hc| |exact Hs].
      apply lt_pow10_log2. lia.
    + apply strip10_spec in Hs. destruct Hs as (k & Hk & -> & ->).
      symmetry. now apply value_shift.
Qed.

Lemma mk_canonical c e : canonical (mk c e).
Proof. destruct (mk_spec c e) as (c' & e' & -> & H & _). exact H. Qed.

(** [mk c e] is the canonical value with the rational [c * 10^e]. *)
Lemma mk_eq c e c' e' :
  canonical (Fin c' e') -> (value c e == value c' e')%Q -> mk c e = Fin c' e'.
Proof.
  intros Hc Hv. destruct (mk_spec c e) as (c1 & e1 & -> & H1 & Hv1).
  apply canonical_inj; [exact H1|exact Hc|]. rewrite Hv1. exact Hv.
Qed.

Lemma mk_id c e : canonical (Fin c e) -> mk c e = Fin c e.
Proof. intros H. apply mk_eq; [exact H|reflexivity]. Qed.

Lemma to_Q_mk c e : exists q, to_Q (mk c e) = Some q /\ (q == value c e)%Q.
Proof.
  destruct (mk_spec c e) as (c' & e' & -> & _ & Hv). exists (value c' e'). auto.
Qed.

Lemma mk_value_eq c1 e1 c2 e2 :
  (value c1 e1 == value c2 e2)%Q -> mk c1 e1 = mk c2 e2.
Proof.
  intros H. destruct (mk_spec c2 e2) as (c' & e' & -> & Hc & Hv).
  apply mk_eq; [exact Hc|]. rewrite H, Hv. reflexivity.
Qed.

Lemma of_BN_canonical x : canonical x -> of_BN x = x.
Proof. destruct x as [c e| |]; [apply mk_id|reflexivity|reflexivity]. Qed.


(** *** Parsing what was printed *)

Lemma head_is_digit l :
  Forall is_digit l -> l <> [] -> exists c r, l = c :: r /\ is_digit c.
Proof. intros H Hne. destruct H as [|c r Hc _]; [contradiction|]. eauto. Qed.

Lemma digit_head_not_special c r :
  is_digit c ->
  c :: r <> list_ascii_of_string "NaN" /\ c :: r <> list_ascii_of_string "Infinity".
Proof.
  intros Hc. destruct (is_digit_not_special c Hc) as (_ & _ & _ & _ & HN & HI).
  split; intros [= E _]; contradiction.
Qed.

Lemma parse_unsigned_numeric l :
  (exists d r, l = d :: r /\ is_digit d) ->
  parse_unsigned l =
  let '(m, ex) := split_on is_e l in
  match parse_mantissa m,
        match ex with None => Some 0 | Some x => parse_exponent x end with
  | Some (v, s), Some x => mk v (x - s)
  | _, _ => NaN
  end.
Proof.
  intros (c & r & -> & Hc). destruct (digit_head_not_special c r Hc) as [HN HI].
  unfold parse_unsigned.
  destruct (decide (c :: r = list_ascii_of_string "NaN")); [contradiction|].
  destruct (decide (c :: r = list_ascii_of_string "Infinity")); [contradiction|].
  reflexivity.
Qed.

Lemma parse_mantissa_int d N :
  Forall is_digit d -> d <> [] -> parse_digits d = Some N ->
  parse_mantissa d = Some (N, 0).
Proof.
  intros Hd Hne HN. unfold parse_mantissa.
  rewrite (split_on_none is_dot d) by now apply is_digit_no_dot.
  destruct d; [contradiction|]. rewrite HN. reflexivity.
Qed.

Lemma parse_mantissa_frac ip fp N :
  Forall is_digit ip -> ip <> [] -> parse_digits (ip ++ fp) = Some N ->
  parse_mantissa (ip ++ "."%char :: fp) = Some (N, Z.of_nat (length fp)).
Proof.
  intros Hd Hne HN. unfold parse_mantissa.
  rewrite (split_on_first is_dot ip "." fp) by (try reflexivity; now apply is_digit_no_dot).
  destruct ip; [contradiction|]. rewrite HN. reflexivity.
Qed.

Lemma toFixed_chars_body c e :
  toFixed_chars (Fin c e) = sign_chars c ++ fixed_body (Z.abs c) e.
Proof. reflexivity. Qed.

Lemma fixed_body_head c e : exists d r, fixed_body c e = d :: r /\ is_digit d.
Proof.
  unfold fixed_body. destruct (0 <=? e).
  - apply head_is_digit; [apply digits_is_digit|apply digits_nonempty].
  - destruct (head_is_digit (digits (c / 10 ^ (- e)))) as (d & r & E & Hd);
      [apply digits_is_digit|apply digits_nonempty|].
    rewrite E. simpl. eauto.
Qed.

Lemma parse_unsigned_fixed_body c e :
  0 <= c -> canonical (Fin c e) -> parse_unsigned (fixed_body c e) = Fin c e.
Proof.
  intros Hc Hcan. rewrite parse_unsigned_numeric by apply fixed_body_head.
  unfold fixed_body. destruct (Z.leb_spec 0 e) as [He|He].
  - rewrite split_on_none by apply is_digit_no_e, digits_is_digit.
    assert (HN : 0 <= c * 10 ^ e) by (apply Z.mul_nonneg_nonneg; [lia|apply Z.pow_nonneg; lia]).
    rewrite (parse_mantissa_int _ (c * 10 ^ e));
      [|apply digits_is_digit|apply digits_nonempty|now apply parse_digits_digits].
    apply mk_eq; [exact Hcan|]. rewrite value_shift by lia.
    replace (0 - 0 + e) with e by lia. reflexivity.
  - set (s := - e). assert (Hs : 0 < s) by (unfold s; lia).
    assert (Hp : 0 < 10 ^ s) by (apply Z.pow_pos_nonneg; lia).
    rewrite split_on_none.
    2:{ apply Forall_app. split; [apply is_digit_no_e, digits_is_digit|].
        constructor; [reflexivity|]. apply is_digit_no_e, digits_fixed_is_digit. }
    rewrite (parse_mantissa_frac _ _ c);
      [|apply digits_is_digit|apply digits_nonempty|].
    + rewrite digits_fixed_length, Z2Nat.id by lia.
      replace (0 - s) with e by (unfold s; lia). now apply mk_id.
    + unfold parse_digits. rewrite parse_digits_acc_app.
      fold (parse_digits (digits (c / 10 ^ s))).
      rewrite parse_digits_digits by (apply Z.div_pos; lia).
      rewrite parse_digits_fixed by (apply Z.mod_pos_bound; lia).
      rewrite Z2Nat.id by lia. rewrite Z.mod_mod by lia. f_equal.
      rewrite (Z_div_mod_eq_full c (10 ^ s)) at 3. ring.
Qed.

Lemma canonical_abs c e : canonical (Fin c e) -> canonical (Fin (Z.abs c) e).
Proof.
  intros [[-> ->]|H]; [left; auto|]. right. intros E. apply H.
  apply Z.mod_divide in E; [|lia]. apply Z.mod_divide; [lia|].
  exact (proj1 (Z.divide_abs_r 10 c) E).
Qed.

(** Reading a signed numeric string: the optional sign first. *)
Lemma of_string_signed c body x :
  (exists d r, body = d :: r /\ is_digit d) ->
  parse_unsigned body = Fin (Z.abs c) x ->
  of_string (string_of_list_ascii (sign_chars c ++ body)) = Fin c x.
Proof.
  intros (d & r & -> & Hd) Hp. unfold of_string.
  rewrite list_ascii_of_string_of_list_ascii. unfold sign_chars.
  destruct (Z.ltb_spec c 0) as [Hc|Hc]; cbn [app].
  - cbn [Ascii.eqb Bool.eqb]. rewrite Hp. cbn [negated]. f_equal. lia.
  - destruct (is_digit_not_special d Hd) as (_ & _ & -> & _). rewrite Hp. f_equal. lia.
Qed.

(** [BN(x.toFixed())] is [x]. *)
Lemma of_string_toFixed x : canonical x -> of_string (toFixed x) = x.
Proof.
  destruct x as [c e|[]|]; intros Hc; try reflexivity.
  unfold toFixed. rewrite toFixed_chars_body.
  apply of_string_signed; [apply fixed_body_head|].
  apply parse_unsigned_fixed_body; [lia|now apply canonical_abs].
Qed.

(** [BN(z.toString())] for an integer [z]. *)
Lemma of_string_of_Z z : of_string (JsString.of_Z z) = BN.of_Z z.
Proof.
  destruct (mk_spec z 0) as (c' & e' & E & Hc & Hv). unfold BN.of_Z. rewrite E.
  unfold JsString.of_Z. change (if z <? 0 then ["-"%char] else []) with (sign_chars z).
  unfold of_string. rewrite list_ascii_of_string_of_list_ascii.
  destruct (head_is_digit (digits (Z.abs z))) as (d & r & Ed & Hd);
    [apply digits_is_digit|apply digits_nonempty|].
  assert (Hp : parse_unsigned (digits (Z.abs z)) = mk (Z.abs z) 0).
  { rewrite parse_unsigned_numeric by eauto.
    rewrite split_on_none by apply is_digit_no_e, digits_is_digit.
    rewrite (parse_mantissa_int _ (Z.abs z));
      [reflexivity|apply digits_is_digit|apply digits_nonempty|].
    apply parse_digits_digits. lia. }
  unfold sign_chars. destruct (Z.ltb_spec z 0) as [Hz|Hz]; cbn [app].
  - cbn [Ascii.eqb Bool.eqb]. rewrite Hp.
    destruct (mk_spec (Z.abs z) 0) as (c1 & e1 & E1 & Hc1 & Hv1). rewrite E1.
    cbn [negated]. rewrite <- E. symmetry. apply mk_eq.
    + destruct Hc1 as [[-> ->]|H1]; [left; auto|]. right. intros Hm. apply H1.
      apply Z.mod_divide in Hm; [|lia]. apply Z.mod_divide; [lia|].
      exact (proj1 (Z.divide_opp_r 10 c1) Hm).
    + rewrite value_opp, Hv1. replace (Z.abs z) with (- z) by lia.
      rewrite value_opp. ring.
  - rewrite Ed in *. destruct (is_digit_not_special d Hd) as (_ & _ & -> & _).
    rewrite Hp. replace (Z.abs z) with z by lia. exact E.
Qed.


Lemma parse_exponent_signed E :
  parse_exponent ((if E <? 0 then "-"%char else "+"%char) :: digits (Z.abs E)) = Some E.
Proof.
  unfold parse_exponent.
  pose proof (digits_nonempty (Z.abs E)) as Hne.
  pose proof (parse_digits_digits (Z.abs E) (Z.abs_nonneg E)) as Hp.
  destruct (Z.ltb_spec E 0) as [HE|HE]; cbn [Ascii.eqb Bool.eqb andb].
  - destruct (digits (Z.abs E)); [contradiction|]. rewrite Hp. simpl. f_equal. lia.
  - destruct (digits (Z.abs E)); [contradiction|]. rewrite Hp. f_equal. lia.
Qed.

Lemma parse_unsigned_exp_body C E :
  0 <= C ->
  parse_unsigned (exp_body (digits C) E) =
  mk C (E - (Z.of_nat (length (digits C)) - 1)).
Proof.
  intros HC. unfold exp_body.
  pose proof (digits_is_digit C) as Hd. pose proof (parse_digits_digits C HC) as Hp.
  pose proof (digits_nonempty C) as Hne.
  destruct (digits C) as [|d0 r]; [contradiction|]. clear Hne.
  assert (Hd0 : is_digit d0) by now inversion Hd.
  assert (Hr : Forall is_digit r) by now inversion Hd.
  destruct r as [|d1 r].
  - rewrite parse_unsigned_numeric by (cbn [app]; eauto).
    rewrite (split_on_first is_e [d0] "e");
      [|now apply is_digit_no_e|reflexivity].
    rewrite parse_exponent_signed.
    rewrite (parse_mantissa_int [d0] C); [|exact Hd|discriminate|exact Hp].
    f_equal; simpl; lia.
  - rewrite parse_unsigned_numeric by (cbn [app]; eauto).
    rewrite (split_on_first is_e (d0 :: "."%char :: d1 :: r) "e").
    2:{ constructor; [apply is_digit_not_special, Hd0|].
        constructor; [reflexivity|]. now apply is_digit_no_e. }
    2: reflexivity.
    rewrite parse_exponent_signed.
    change (d0 :: "."%char :: d1 :: r) with ([d0] ++ "."%char :: d1 :: r).
    rewrite (parse_mantissa_frac [d0] (d1 :: r) C);
      [|constructor; [exact Hd0|constructor]|discriminate|exact Hp].
    f_equal; cbn [length]; lia.
Qed.

Lemma exp_body_head C E : exists d r, exp_body (digits C) E = d :: r /\ is_digit d.
Proof.
  unfold exp_body. pose proof (digits_is_digit C) as Hd.
  pose proof (digits_nonempty C) as Hne.
  destruct (digits C) as [|d0 r]; [contradiction|].
  assert (Hd0 : is_digit d0) by now inversion Hd.
  destruct r; cbn [app]; eauto.
Qed.

(** [BN(x.toString())] is [x]. *)
Lemma of_string_toString x : canonical x -> of_string (toString x) = x.
Proof.
  destruct x as [c e|[]|]; intros Hc; try reflexivity.
  unfold toString. cbn [toString_chars].
  destruct (Z.eqb_spec c 0) as [->|Hnz].
  - destruct Hc as [[_ ->]|Hc]; [reflexivity|]. exfalso. apply Hc. reflexivity.
  - match goal with |- context [if ?b then _ else _] => destruct b end.
      apply of_string_signed; [apply exp_body_head|].
      rewrite parse_unsigned_exp_body by lia.
      replace (Z.of_nat (length (digits (Z.abs c))) - 1 + e
               - (Z.of_nat (length (digits (Z.abs c))) - 1)) with e by lia.
      apply mk_id. now apply canonical_abs.
    + apply (of_string_toFixed (Fin c e) Hc).
Qed.

End BNFacts.

(** ** bignumber.js: arithmetic *)

Module BNArith.
Import BN BNFacts.

Lemma canonical_times x y : canonical (times x y).
Proof.
  destruct x as [c1 e1|n1|], y as [c2 e2|n2|]; cbn [times];
    try exact I; try apply mk_canonical;
    match goal with |- context [if ?b then _ else _] => destruct b end; exact I.
Qed.

Lemma canonical_dividedBy x y : canonical (dividedBy x y).
Proof.
  destruct x as [c1 e1|n1|], y as [c2 e2|n2|]; cbn [dividedBy];
    try exact I; try (left; auto; fail).
  destruct (c2 =? 0); [destruct (c1 =? 0); exact I|]. apply mk_canonical.
Qed.

Lemma canonical_of_BN x : canonical (of_BN x).
Proof. destruct x; cbn [of_BN]; [apply mk_canonical|exact I|exact I]. Qed.

Lemma value_mul c1 e1 c2 e2 :
  (value (c1 * c2) (e1 + e2) == value c1 e1 * value c2 e2)%Q.
Proof. unfold value. rewrite inject_Z_mult, pow10Q_add. ring. Qed.

(** [times] is exact: the product of the rationals. *)
Lemma to_Q_times x y qx qy :
  to_Q x = Some qx -> to_Q y = Some qy ->
  exists q, to_Q (times x y) = Some q /\ (q == qx * qy)%Q.
Proof.
  destruct x as [c1 e1| |], y as [c2 e2| |]; try discriminate.
  intros [= <-] [= <-]. cbn [times].
  destruct (to_Q_mk (c1 * c2) (e1 + e2)) as (q & -> & Hq).
  exists q. split; [reflexivity|]. rewrite Hq. apply value_mul.
Qed.

Lemma times_mk c1 e1 c2 e2 :
  times (mk c1 e1) (mk c2 e2) = mk (c1 * c2) (e1 + e2).
Proof.
  destruct (mk_spec c1 e1) as (a1 & b1 & -> & _ & H1).
  destruct (mk_spec c2 e2) as (a2 & b2 & -> & _ & H2).
  cbn [times]. apply mk_value_eq. rewrite !value_mul, H1, H2. reflexivity.
Qed.

(** [BN(10).pow(n)] is [10^n]. *)
Lemma pow_10 n : pow (of_Z 10) n = Fin 1 (Z.of_nat n).
Proof.
  change (of_Z 10) with (Fin 1 1). destruct n as [|n]; [reflexivity|].
  cbn [pow]. apply mk_eq; [right; discriminate|].
  rewrite Z.pow_1_l by lia. rewrite Z.mul_1_l. reflexivity.
Qed.

(** Rounding to the nearest integer, ties away from zero. *)
Lemma round_half_up_div_scale n d m :
  0 < m -> round_half_up_div (n * m) (d * m) = round_half_up_div n d.
Proof.
  intros Hm. unfold round_half_up_div.
  rewrite !Z.sgn_mul, !Z.abs_mul, (Z.sgn_pos m Hm), !Z.mul_1_r.
  rewrite (Z.abs_eq m) by lia. f_equal.
  destruct (Z.eq_dec d 0) as [->|Hd].
  - simpl. rewrite !Z.div_0_r. reflexivity.
  - replace (2 * (Z.abs n * m) + Z.abs d * m) with ((2 * Z.abs n + Z.abs d) * m) by ring.
    replace (2 * (Z.abs d * m)) with (2 * Z.abs d * m) by ring.
    apply Z.div_mul_cancel_r; lia.
Qed.

Lemma round_half_up_div_1 n : round_half_up_div n 1 = n.
Proof.
  unfold round_half_up_div. change (Z.sgn 1) with 1. change (Z.abs 1) with 1.
  replace (2 * Z.abs n + 1) with (1 + Z.abs n * 2) by ring.
  replace (2 * 1) with 2 by reflexivity.
  rewrite Z.div_add by lia. change (1 / 2) with 0. lia.
Qed.

Lemma round_half_up_div_exact n d : d <> 0 -> round_half_up_div (n * d) d = n.
Proof.
  intros Hd. unfold round_half_up_div.
  rewrite Z.sgn_mul, Z.abs_mul.
  replace (2 * (Z.abs n * Z.abs d) + Z.abs d) with (Z.abs d + Z.abs n * (2 * Z.abs d)) by ring.
  rewrite Z.div_add by lia. rewrite Z.div_small by lia.
  replace (Z.sgn n * Z.sgn d * Z.sgn d) with (Z.sgn n * (Z.sgn d * Z.sgn d)) by ring.
  assert (Z.sgn d * Z.sgn d = 1) by (destruct d; simpl; lia).
  lia.
Qed.

(** The rounded quotient is a nearest integer: its distance to [n / d] is
    at most one half. *)
Lemma round_half_up_div_nearest n d :
  0 <= n -> 0 < d ->
  2 * Z.abs (round_half_up_div n d * d - n) <= d.
Proof.
  intros Hn Hd. unfold round_half_up_div.
  rewrite (Z.abs_eq n), (Z.abs_eq d) by lia.
  rewrite (Z.sgn_pos d) by lia.
  destruct (Z.eq_dec n 0) as [->|Hnz].
  - simpl. lia.
  - rewrite (Z.sgn_pos n) by lia.
    pose proof (Z_div_mod_eq_full (2 * n + d) (2 * d)) as E.
    pose proof (Z.mod_pos_bound (2 * n + d) (2 * d)) as B.
    lia.
Qed.

(** An integer as a canonical value: a coefficient and a non-negative
    exponent. *)
Lemma of_Z_spec z :
  exists c k, of_Z z = Fin c k /\ 0 <= k /\ z = c * 10 ^ k.
Proof.
  unfold of_Z, mk. destruct (Z.eqb_spec z 0) as [->|Hz].
  - exists 0, 0. repeat split; lia.
  - destruct (strip10 _ z 0) as [c k] eqn:Hs. apply strip10_spec in Hs.
    destruct Hs as (k' & Hk & -> & ->). exists c, k'. repeat split; lia.
Qed.

(** The quotient of two integers: rounded to 20 decimal places, ties away
    from zero. *)
Lemma dividedBy_of_Z a b :
  b <> 0 ->
  dividedBy (of_Z a) (of_Z b) = mk (round_half_up_div (a * 10 ^ 20) b) (- 20).
Proof.
  intros Hb.
  destruct (of_Z_spec a) as (ca & ka & -> & Hka & ->).
  destruct (of_Z_spec b) as (cb & kb & -> & Hkb & Eb).
  assert (Hcb : cb <> 0) by (intros ->; apply Hb; rewrite Eb; ring).
  cbn [dividedBy]. destruct (Z.eqb_spec cb 0) as [|_]; [contradiction|].
  unfold DECIMAL_PLACES. f_equal. rewrite Eb.
  assert (Hpa : 0 < 10 ^ ka) by (apply Z.pow_pos_nonneg; lia).
  assert (Hpb : 0 < 10 ^ kb) by (apply Z.pow_pos_nonneg; lia).
  destruct (Z.leb_spec 0 (ka - kb + 20)) as [Hk|Hk].
  - rewrite <- (round_half_up_div_scale (ca * 10 ^ (ka - kb + 20)) cb (10 ^ kb)) by lia.
    f_equal. rewrite <- !Z.mul_assoc, <- !Z.pow_add_r by lia. f_equal. f_equal. lia.
  - rewrite <- (round_half_up_div_scale ca (cb * 10 ^ (- (ka - kb + 20))) (10 ^ (ka + 20)))
      by (apply Z.pow_pos_nonneg; lia).
    f_equal.
    + rewrite <- Z.mul_assoc, <- Z.pow_add_r by lia. reflexivity.
    + rewrite <- Z.mul_assoc, <- Z.pow_add_r by lia. f_equal. f_equal. lia.
Qed.

(** Dividing by a power of ten is exact as long as the quotient has at most
    20 decimal places. *)
Lemma dividedBy_pow10 c e d :
  - 20 <= e - d -> dividedBy (Fin c e) (Fin 1 d) = mk c (e - d).
Proof.
  intros H. cbn [dividedBy]. change (1 =? 0) with false. cbv iota.
  unfold DECIMAL_PLACES. destruct (Z.leb_spec 0 (e - d + 20)) as [_|]; [|lia].
  rewrite round_half_up_div_1. apply mk_value_eq.
  rewrite value_shift by lia.
  replace (Z.opp 20 + (e - d + 20)) with (e - d) by lia. reflexivity.
Qed.

End BNArith.

(** ** Quotes *)

(** The plain notation of an integer value is a decimal integer string. *)
Lemma toFixed_integer_string x :
  BN.canonical x -> BN.is_integer x = true -> is_integer_string (BN.toFixed x) = true.
Proof.
  destruct x as [c e| |]; try discriminate. intros Hc Hi.
  assert (He : 0 <= e).
  { cbn [BN.is_integer] in Hi. apply orb_true_iff in Hi.
    destruct Hi as [Hi|Hi]; [now apply Z.leb_le|].
    apply Z.eqb_eq in Hi. subst c. destruct Hc as [[_ ->]|Hc]; [lia|].
    exfalso. apply Hc. reflexivity. }
  unfold is_integer_string, BN.toFixed.
  rewrite list_ascii_of_string_of_list_ascii. cbn [BN.toFixed_chars].
  unfold BN.fixed_body. destruct (Z.leb_spec 0 e) as [_|]; [|lia].
  set (N := Z.abs c * 10 ^ e).
  pose proof (JsStringFacts.digits_is_digit N) as Hd.
  pose proof (JsStringFacts.digits_nonempty N) as Hne.
  destruct (JsStringFacts.parse_digits_is_digit _ Hd) as (v & Hv).
  unfold BN.sign_chars. destruct (c <? 0); cbn [app].
  - cbn [Ascii.eqb Bool.eqb]. destruct (JsString.digits N); [contradiction|].
    rewrite Hv. reflexivity.
  - destruct (JsString.digits N) as [|d r]; [contradiction|].
    assert (Hd0 : JsString.is_digit d) by now inversion Hd.
    destruct (JsStringFacts.is_digit_not_special d Hd0) as (_ & _ & -> & _).
    rewrite Hv. reflexivity.
Qed.

(** The exponent of a canonical value is at least the one it was made
    from, so a product of integers is an integer. *)
Lemma mk_is_integer c e : 0 <= e -> BN.is_integer (BN.mk c e) = true.
Proof.
  intros He. unfold BN.mk. destruct (c =? 0); [reflexivity|].
  destruct (BN.strip10 _ c e) as [c' e'] eqn:Hs.
  apply BNFacts.strip10_spec in Hs. destruct Hs as (k & Hk & -> & _).
  cbn [BN.is_integer]. apply orb_true_iff. left. apply Z.leb_le. lia.
Qed.

Lemma times_is_integer x y :
  BN.canonical x -> BN.canonical y ->
  BN.is_integer x = true -> BN.is_integer y = true ->
  BN.is_integer (BN.times x y) = true.
Proof.
  destruct x as [c1 e1| |], y as [c2 e2| |]; try discriminate.
  intros H1 H2 I1 I2. cbn [BN.times].
  assert (He : forall c e, BN.canonical (BN.Fin c e) -> BN.is_integer (BN.Fin c e) = true -> 0 <= e).
  { intros c e Hc Hi. cbn [BN.is_integer] in Hi. apply orb_true_iff in Hi.
    destruct Hi as [Hi|Hi]; [now apply Z.leb_le|].
    apply Z.eqb_eq in Hi. subst c. destruct Hc as [[_ ->]|Hc]; [lia|].
    exfalso. apply Hc. reflexivity. }
  apply mk_is_integer. pose proof (He _ _ H1 I1). pose proof (He _ _ H2 I2). lia.
Qed.

Lemma currencyToUnit_of_BN info x :
  currencyToUnit info (BN.of_BN x) = currencyToUnit info x.
Proof.
  unfold currencyToUnit. rewrite (BNFacts.of_BN_canonical (BN.of_BN x)); [reflexivity|].
  apply BNArith.canonical_of_BN.
Qed.

Lemma canonical_currencyToUnit info x : BN.canonical (currencyToUnit info x).
Proof. apply BNArith.canonical_times. Qed.

Opaque BN.toFixed BN.toString BN.of_string BN.times BN.dividedBy BN.mk BN.pow
  BN.of_Z BN.of_BN BN.js_le_zero JsString.of_Z JsString.toLowerCase
  currencyToUnit unitToCurrency.

Lemma _getApi_events this network asset t res :
  exec (_getApi this network asset) t res ->
  forall ev, In ev t -> is_api_event ev = true.
Proof.
  open_method _getApi. intros H ev Hin.
  exec_inv; in_inv Hin; subst; reflexivity.
Qed.

Lemma checkSaleClosed_spec this network t res :
  exec (checkSaleClosed this network) t res ->
  (forall c r, In (EvIsClosed c r) t ->
     res = match r with Ok b => Ok b | Err e => Err e end) /\
  (forall b, res = Ok b -> exists t0 c, t = t0 ++ [EvIsClosed c (Ok b)]).
Proof.
  open_method checkSaleClosed. intros H. split.
  - intros c r Hin.
    exec_inv;
      repeat match goal with
        | H : In _ (_ ++ _) |- _ => apply in_app_or in H; destruct H as [H|H]
        | H : exec (_getApi _ _ _) ?t _, H' : In ?ev ?t |- _ =>
            pose proof (_getApi_events _ _ _ _ _ H _ H'); discriminate
        end;
      in_inv Hin; try discriminate; injection Hin as <- <-; reflexivity.
  - intros b ->. exec_inv; try discriminate.
    match goal with H : Ok _ = Ok _ |- _ => injection H as -> end. eauto.
Qed.

Lemma getDepositRate_spec this network t res :
  exec (getDepositRate this network) t res ->
  (forall c r, ~ In (EvIsClosed c r) t) /\
  (forall rate, res = Ok rate ->
     exists t0 c ppm er,
       t = t0 ++ [EvPPM c (Ok ppm); EvExchangeRate c (Ok er)] /\
       rate = BN.toString (BN.dividedBy (BN.of_Z er) (BN.of_Z ppm))).
Proof.
  open_method getDepositRate. intros H. split.
  - intros c r Hin.
    exec_inv;
      repeat match goal with
        | H : In _ (_ ++ _) |- _ => apply in_app_or in H; destruct H as [H|H]
        | H : exec (_getApi _ _ _) ?t _, H' : In ?ev ?t |- _ =>
            pose proof (_getApi_events _ _ _ _ _ H _ H'); discriminate
        end;
      in_inv Hin; discriminate.
  - intros rate ->. exec_inv; try discriminate.
    match goal with H : Ok _ = Ok _ |- _ => injection H as -> end.
    rewrite !BNFacts.of_string_of_Z. eauto 10.
Qed.

Lemma le_zero_js x : BN.le_zero x -> BN.js_le_zero x = true.
Proof.
  with_strategy transparent [BN.js_le_zero] (unfold BN.js_le_zero).
  destruct x as [c e|neg|]; cbn [BN.le_zero]; intros H; try contradiction; [|exact H].
  apply orb_true_iff. left. now apply Z.leb_le.
Qed.

(** C2, amended: for assets listed in the asset table, [getQuote] returns
    null, and does not throw, when the two assets are not on the same chain,
    when the pair is not SOV -> ZERO, when the amount is at most zero, and
    when the sale contract reports that the sale is closed. *)
Theorem getQuote_null this network from to amount fromInfo toInfo t res :
  cryptoassets this !! from = Some fromInfo ->
  cryptoassets this !! to = Some toInfo ->
  exec (getQuote this network from to amount) t res ->
  chain fromInfo <> chain toInfo \/
  (from, to) <> ("SOV", "ZERO")%string \/
  BN.le_zero amount \/
  (exists c, In (EvIsClosed c (Ok true)) t) ->
  res = Ok None.
Proof.
  intros Hfrom Hto H Hcase. open_method getQuote.
  rewrite Hfrom, Hto in H. cbn in H.
  destruct (String.eqb_spec (chain fromInfo) "rsk") as [E1|E1]; cbn in H;
    [|now destruct H].
  destruct (String.eqb_spec (chain toInfo) "rsk") as [E2|E2]; cbn in H;
    [|now destruct H].
  destruct (BN.js_le_zero amount) eqn:Ele; cbn in H; [now destruct H|].
  destruct (String.eqb_spec from "SOV") as [E3|E3]; cbn in H; [|now destruct H].
  destruct (String.eqb_spec to "ZERO") as [E4|E4]; cbn in H; [|now destruct H].
  destruct Hcase as [Hc|[Hc|[Hc|(c & Hc)]]].
  - congruence.
  - congruence.
  - apply le_zero_js in Hc. congruence.
  - apply exec_bind in H. destruct H as [(e & H & ->)|(b & t1 & t2 & H1 & H2 & ->)].
    + apply checkSaleClosed_spec in H. destruct H as [H _].
      apply H in Hc. discriminate.
    + pose proof (checkSaleClosed_spec _ _ _ _ H1) as [Hs _].
      apply in_app_or in Hc. destruct Hc as [Hc|Hc].
      * apply Hs in Hc. injection Hc as ->. cbn in H2. now destruct H2.
      * destruct b; cbn in H2; [now destruct H2|].
        apply exec_bind in H2.
        destruct H2 as [(e & H2 & ->)|(r & t3 & t4 & H2 & H3 & ->)].
        -- apply getDepositRate_spec in H2. destruct H2 as [H2 _].
           exfalso. eapply H2, Hc.
        -- apply getDepositRate_spec in H2. destruct H2 as [H2 _].
           cbn in H3. destruct H3 as [-> _]. rewrite app_nil_r in Hc.
           exfalso. eapply H2, Hc.
Qed.

(** What [getQuote] returns when it returns a quote. *)
Lemma getQuote_returns this network from to amount t q :
  exec (getQuote this network from to amount) t (Ok (Some q)) ->
  exists fromInfo t1 t2 c ppm er,
    cryptoassets this !! from = Some fromInfo /\
    from = "SOV"%string /\ to = "ZERO"%string /\
    BN.js_le_zero amount = false /\
    exec (checkSaleClosed this network) t1 (Ok false) /\
    t = t1 ++ t2 ++ [EvPPM c (Ok ppm); EvExchangeRate c (Ok er)] /\
    q = {| from := from; to := to;
           fromAmount := AmountString (BN.toFixed (currencyToUnit fromInfo amount));
           toAmount := AmountBN (BN.times (currencyToUnit fromInfo amount)
                                   (BN.dividedBy (BN.of_Z er) (BN.of_Z ppm)));
           fee := None; fromAccountId := None; toAccountId := None |}.
Proof.
  open_method getQuote. intros H.
  destruct (cryptoassets this !! from) as [fromInfo|] eqn:Hfrom; cbn in H;
    [|destruct H; discriminate].
  destruct (String.eqb_spec (chain fromInfo) "rsk") as [E1|E1]; cbn in H;
    [|destruct H; discriminate].
  destruct (cryptoassets this !! to) as [toInfo|] eqn:Hto; cbn in H;
    [|destruct H; discriminate].
  destruct (String.eqb_spec (chain toInfo) "rsk") as [E2|E2]; cbn in H;
    [|destruct H; discriminate].
  destruct (BN.js_le_zero amount) eqn:Ele; cbn in H; [destruct H; discriminate|].
  destruct (String.eqb_spec from "SOV") as [E3|E3]; cbn in H; [|destruct H; discriminate].
  destruct (String.eqb_spec to "ZERO") as [E4|E4]; cbn in H; [|destruct H; discriminate].
  apply exec_bind in H. destruct H as [(e & _ & [=])|(b & t1 & t2 & H1 & H2 & ->)].
  destruct b; cbn in H2; [destruct H2; discriminate|].
  apply exec_bind in H2. destruct H2 as [(e & _ & [=])|(r & t3 & t4 & H2 & H3 & ->)].
  apply getDepositRate_spec in H2. destruct H2 as [_ H2].
  destruct (H2 r eq_refl) as (t0 & c & ppm & er & -> & ->).
  cbn in H3. destruct H3 as [-> [= ->]].
  exists fromInfo, t1, t0, c, ppm, er. rewrite app_nil_r.
  repeat split; try assumption.
  rewrite currencyToUnit_of_BN.
  rewrite BNFacts.of_string_toFixed by apply canonical_currencyToUnit.
  rewrite BNFacts.of_string_toString by apply BNArith.canonical_dividedBy.
  reflexivity.
Qed.

Lemma value_int n : (BN.value n 0 == inject_Z n)%Q.
Proof. unfold BN.value. simpl. ring. Qed.

Lemma value_exact k n d :
  n * 10 ^ 20 = k * d ->
  (BN.value k (-20) * inject_Z d == inject_Z n)%Q.
Proof.
  intros E. rewrite <- (value_int d), <- (BNArith.value_mul k (-20) d 0), <- E.
  rewrite BNFacts.value_shift by lia. apply value_int.
Qed.

(** C3, amended: a quote is computed in decimal arithmetic from the PPM and
    the exchange rate read from the contract.  The rate is exchangeRate / PPM
    rounded to 20 decimal places, to the nearest with ties away from zero;
    it is exactly exchangeRate / PPM whenever that quotient has at most 20
    decimal places.  toAmount is the exact product of the input amount in
    base units and the rate.  For PPM = 1,000,000, exchangeRate = 500,000
    and 100 base units the rate is 0.5 and toAmount is 50. *)
Theorem getQuote_amounts this network from to amount t q :
  exec (getQuote this network from to amount) t (Ok (Some q)) ->
  exists fromInfo t0 c ppm er,
    cryptoassets this !! from = Some fromInfo /\
    t = t0 ++ [EvPPM c (Ok ppm); EvExchangeRate c (Ok er)] /\
    let u := currencyToUnit fromInfo amount in
    let rate := BN.dividedBy (BN.of_Z er) (BN.of_Z ppm) in
    fromAmount q = AmountString (BN.toFixed u) /\
    toAmount q = AmountBN (BN.times u rate) /\
    (forall qu qr, BN.to_Q u = Some qu -> BN.to_Q rate = Some qr ->
       exists qt, BN.to_Q (BN.times u rate) = Some qt /\ (qt == qu * qr)%Q) /\
    (ppm <> 0 ->
       rate = BN.mk (BN.round_half_up_div (er * 10 ^ 20) ppm) (-20)) /\
    (0 <= er -> 0 < ppm ->
       2 * Z.abs (BN.round_half_up_div (er * 10 ^ 20) ppm * ppm - er * 10 ^ 20) <= ppm) /\
    (ppm <> 0 -> (ppm | er * 10 ^ 20) ->
       exists qr, BN.to_Q rate = Some qr /\ (qr * inject_Z ppm == inject_Z er)%Q) /\
    (ppm = 1000000 -> er = 500000 -> u = BN.of_Z 100 ->
       BN.toString rate = "0.5"%string /\ toAmount q = AmountBN (BN.of_Z 50)).
Proof.
  intros H. apply getQuote_returns in H.
  destruct H as (fromInfo & t1 & t2 & c & ppm & er & Hfrom & _ & _ & _ & _ & -> & ->).
  exists fromInfo, (t1 ++ t2), c, ppm, er.
  split; [exact Hfrom|]. split; [now rewrite app_assoc|].
  cbn zeta. cbn [fromAmount toAmount].
  split; [reflexivity|]. split; [reflexivity|].
  split; [intros qu qr; apply BNArith.to_Q_times|].
  split; [apply BNArith.dividedBy_of_Z|].
  split; [intros; apply BNArith.round_half_up_div_nearest; lia|].
  split.
  - intros Hp (k & Hk). rewrite BNArith.dividedBy_of_Z by exact Hp.
    rewrite Hk, BNArith.round_half_up_div_exact by exact Hp.
    destruct (BNFacts.to_Q_mk k (-20)) as (qr & -> & Hq).
    exists qr. split; [reflexivity|]. rewrite Hq. now apply value_exact.
  - intros -> -> ->. split; vm_compute; reflexivity.
Qed.

Lemma currencyToUnit_value info x qx :
  BN.to_Q x = Some qx ->
  exists qu, BN.to_Q (currencyToUnit info x) = Some qu /\
             (qu == qx * (10 # 1) ^ Z.of_nat (decimals info))%Q.
Proof.
  destruct x as [c e| |]; try discriminate. intros [= <-].
  with_strategy transparent [currencyToUnit BN.of_BN] (unfold currencyToUnit, BN.of_BN).
  rewrite BNArith.pow_10.
  destruct (BNFacts.to_Q_mk c e) as (q1 & H1 & Hq1).
  destruct (BNArith.to_Q_times (BN.mk c e) (BN.Fin 1 (Z.of_nat (decimals info)))
              q1 (BN.value 1 (Z.of_nat (decimals info))) H1 eq_refl) as (qu & Hu & Hqu).
  exists qu. split; [exact Hu|]. rewrite Hqu, Hq1. unfold BN.value at 2.
  change (inject_Z 1) with 1%Q. ring.
Qed.

(** C8, amended: a quote returned by [getQuote] has the fields from, to,
    fromAmount and toAmount, and no fee.  fromAmount is the plain decimal
    string of the amount in base units (amount * 10^decimals) and toAmount
    is a BigNumber, its exact product with the rate; no floating point is
    involved.  fromAmount is an integer string when the amount in base
    units is an integer, and toAmount is then an integer when the rate is
    one. *)
Theorem getQuote_quote_shape this network from to amount t q :
  exec (getQuote this network from to amount) t (Ok (Some q)) ->
  exists fromInfo rate,
    cryptoassets this !! from = Some fromInfo /\
    BN.canonical rate /\
    let u := currencyToUnit fromInfo amount in
    q = {| from := from; to := to;
           fromAmount := AmountString (BN.toFixed u);
           toAmount := AmountBN (BN.times u rate);
           fee := None; fromAccountId := None; toAccountId := None |} /\
    BN_ (fromAmount q) = u /\
    (forall qa, BN.to_Q amount = Some qa ->
       exists qu, BN.to_Q u = Some qu /\
                  (qu == qa * (10 # 1) ^ Z.of_nat (decimals fromInfo))%Q) /\
    (BN.is_integer u = true -> is_integer_string (BN.toFixed u) = true) /\
    (BN.is_integer u = true -> BN.is_integer rate = true ->
       BN.is_integer (BN.times u rate) = true).
Proof.
  intros H. apply getQuote_returns in H.
  destruct H as (fromInfo & t1 & t2 & c & ppm & er & Hfrom & _ & _ & _ & _ & _ & ->).
  exists fromInfo, (BN.dividedBy (BN.of_Z er) (BN.of_Z ppm)).
  split; [exact Hfrom|]. split; [apply BNArith.canonical_dividedBy|].
  cbn zeta. split; [reflexivity|]. cbn [fromAmount BN_].
  split; [apply BNFacts.of_string_toFixed, canonical_currencyToUnit|].
  split; [intros qa; apply currencyToUnit_value|].
  split; [apply toFixed_integer_string, canonical_currencyToUnit|].
  apply times_is_integer;
    [apply canonical_currencyToUnit|apply BNArith.canonical_dividedBy].
Qed.

(** C2, as stated, fails: an asset code that is not in the asset table makes
    [getQuote] throw a TypeError instead of returning null, although the
    pair is not the supported one. *)
Lemma getQuote_unknown_asset_throws :
  ("FOO", "ZERO")%string <> ("SOV", "ZERO")%string /\
  Sample.outcome Sample.answers Sample.quote_unknown_asset =
    (Err (TypeError "Cannot read property 'chain' of undefined"), []) /\
  forall t res, exec Sample.quote_unknown_asset t res -> res <> Ok None.
Proof.
  split; [discriminate|]. split; [vm_compute; reflexivity|].
  intros t res H. unfold Sample.quote_unknown_asset in H.
  open_method getQuote. vm_compute in H. destruct H as [_ ->]. discriminate.
Qed.

(** C3, as stated, fails: with PPM = 3 and exchangeRate = 1 the rate is
    0.33333333333333333333, not one third, and 3 base units are quoted
    0.99999999999999999999 instead of 3 * (1 / 3) = 1. *)
Lemma getQuote_rate_is_rounded :
  exists q t,
    Sample.outcome Sample.answers_third Sample.quote_3_units = (Ok (Some q), t) /\
    (exists c, In (EvPPM c (Ok 3)) t /\ In (EvExchangeRate c (Ok 1)) t) /\
    fromAmount q = AmountString "3" /\
    toAmount q = AmountBN (BN.Fin 99999999999999999999 (-20)) /\
    ~ (BN.value 99999999999999999999 (-20) == 3 * (1 / 3))%Q.
Proof.
  eexists _, _. split; [vm_compute; reflexivity|].
  split; [eexists; split; simpl; eauto 10|].
  split; [reflexivity|]. split; [reflexivity|].
  vm_compute. discriminate.
Qed.

(** C8, as stated, fails: the quote for one base unit at the rate 0.5 has no
    fee, its toAmount is a BigNumber object of value 0.5, not an integer
    string; and a tenth of a base unit is quoted with fromAmount "0.1". *)
Lemma getQuote_quote_not_base_unit :
  (exists q,
     fst (Sample.outcome Sample.answers Sample.quote_1_unit) = Ok (Some q) /\
     fee q = None /\
     fromAmount q = AmountString "1" /\
     toAmount q = AmountBN (BN.Fin 5 (-1)) /\
     ~ is_base_unit_quote q) /\
  (exists q,
     fst (Sample.outcome Sample.answers Sample.quote_tenth_unit) = Ok (Some q) /\
     fromAmount q = AmountString "0.1" /\
     is_integer_string "0.1" = false /\
     ~ is_base_unit_quote q).
Proof.
  split.
  - eexists. split; [vm_compute; reflexivity|]. repeat split.
    intros ([x Hx] & _). discriminate.
  - eexists. split; [vm_compute; reflexivity|]. repeat split.
    intros ([x Hx] & _). discriminate.
Qed.

(** ** Fees *)

Lemma estimateFees_loop_spec this gasLimit nativeAsset feePrices :
  forall (init fees : gmap BN.t string) t,
    exec (estimateFees_loop this gasLimit nativeAsset feePrices init) t (Ok fees) ->
    t = [] /\
    (feePrices <> [] -> is_Some (cryptoassets this !! nativeAsset)) /\
    forall k,
      fees !! k =
      if decide (k ∈ feePrices)
      then option_map (fun native => BN.toFixed (fee_in_native native gasLimit k))
             (cryptoassets this !! nativeAsset)
      else init !! k.
Proof.
  induction feePrices as [|fp rest IH]; intros init fees t H;
    with_strategy transparent [estimateFees_loop] (cbn [estimateFees_loop] in H).
  - destruct H as [-> [= ->]]. split; [reflexivity|]. split; [congruence|]. intros k.
    destruct (decide (k ∈ [])) as [Hin|_]; [|reflexivity].
    apply elem_of_nil in Hin. contradiction.
  - unfold deref in H.
    destruct (cryptoassets this !! nativeAsset) as [native|] eqn:Hn; cbn in H;
      [|destruct H; discriminate].
    apply IH in H. destruct H as (-> & _ & H). split; [reflexivity|].
    split; [eauto|]. rewrite ?Hn in *. cbn [option_map] in *.
    intros k. rewrite H.
    destruct (decide (k ∈ rest)) as [Hin|Hnin].
    + destruct (decide (k ∈ fp :: rest)) as [_|Hn']; [reflexivity|].
      exfalso. apply Hn'. now apply elem_of_cons; right.
    + destruct (decide (k = fp)) as [->|Hne].
      * rewrite lookup_insert_eq.
        destruct (decide (fp ∈ fp :: rest)) as [_|Hn']; [reflexivity|].
        exfalso. apply Hn'. now apply elem_of_cons; left.
      * rewrite lookup_insert_ne by congruence.
        destruct (decide (k ∈ fp :: rest)) as [Hin|_]; [|reflexivity].
        apply elem_of_cons in Hin. destruct Hin; contradiction.
Qed.

Lemma mk_nonzero c e :
  c <> 0 ->
  exists c' k, BN.mk c e = BN.Fin c' (e + k) /\ 0 <= k /\
               (BN.value c' (e + k) == BN.value c e)%Q.
Proof.
  intros Hc. with_strategy transparent [BN.mk] (unfold BN.mk).
  destruct (Z.eqb_spec c 0) as [|_]; [contradiction|].
  destruct (BN.strip10 _ c e) as [c' e'] eqn:Hs.
  apply BNFacts.strip10_spec in Hs. destruct Hs as (k & Hk & -> & ->).
  exists c', k. split; [reflexivity|]. split; [exact Hk|].
  symmetry. now apply BNFacts.value_shift.
Qed.

Lemma mk_zero e : BN.mk 0 e = BN.Fin 0 0.
Proof. with_strategy transparent [BN.mk] (unfold BN.mk). reflexivity. Qed.

Lemma dividedBy_zero d : BN.dividedBy (BN.Fin 0 0) (BN.Fin 1 d) = BN.Fin 0 0.
Proof.
  with_strategy transparent [BN.dividedBy] (cbn [BN.dividedBy]).
  change (1 =? 0) with false. cbv iota.
  replace (if 0 <=? 0 - d + BN.DECIMAL_PLACES
           then BN.round_half_up_div (0 * 10 ^ (0 - d + BN.DECIMAL_PLACES)) 1
           else BN.round_half_up_div 0 (1 * 10 ^ (- (0 - d + BN.DECIMAL_PLACES))))
    with 0; [apply mk_zero|].
  destruct (0 <=? 0 - d + BN.DECIMAL_PLACES); reflexivity.
Qed.

(** When the quotient has at most 20 decimal places the conversion to the
    native unit is exact: the fee is gasBudget * 1.1 * feePrice * 10^9 /
    10^decimals. *)
Lemma fee_in_native_exact native gasBudget c e :
  -20 <= e + 8 - Z.of_nat (decimals native) ->
  fee_in_native native gasBudget (BN.Fin c e) =
  BN.mk (gasBudget * 11 * c) (e + 8 - Z.of_nat (decimals native)).
Proof.
  intros H. unfold fee_in_native.
  with_strategy transparent [unitToCurrency] (unfold unitToCurrency).
  rewrite (BNFacts.of_BN_canonical (BN.times _ _)) by apply BNArith.canonical_times.
  rewrite BNArith.pow_10.
  with_strategy transparent [BN.of_BN BN.of_Z] (unfold BN.of_BN, BN.of_Z).
  rewrite !BNArith.times_mk.
  set (d := Z.of_nat (decimals native)) in *.
  destruct (Z.eq_dec (gasBudget * 11 * c) 0) as [Hz|Hnz].
  - replace (gasBudget * 11 * (c * 10 ^ 9)) with (gasBudget * 11 * c * 10 ^ 9) by ring.
    rewrite Hz. cbn [Z.mul]. rewrite !mk_zero. apply dividedBy_zero.
  - rewrite (BNFacts.mk_value_eq (gasBudget * 11 * (c * 10 ^ 9)) (0 + -1 + (e + 0))
               (gasBudget * 11 * c) (e + 8)).
    2:{ replace (gasBudget * 11 * (c * 10 ^ 9)) with (gasBudget * 11 * c * 10 ^ 9) by ring.
        rewrite BNFacts.value_shift by lia.
        replace (0 + -1 + (e + 0) + 9) with (e + 8) by lia. reflexivity. }
    destruct (mk_nonzero (gasBudget * 11 * c) (e + 8)) as (c' & k & E & Hk & Hv);
      [exact Hnz|].
    rewrite E, BNArith.dividedBy_pow10 by lia.
    apply BNFacts.mk_value_eq. unfold BN.value at 1.
    assert (Hp : ((10 # 1) ^ (e + 8 + k - d)
                  == (10 # 1) ^ (e + 8 + k) * (10 # 1) ^ (- d))%Q)
      by apply BNFacts.pow10Q_add.
    rewrite Hp, Qmult_assoc. fold (BN.value c' (e + 8 + k)). rewrite Hv.
    unfold BN.value. rewrite <- Qmult_assoc, <- BNFacts.pow10Q_add. reflexivity.
Qed.

(** Beyond 20 decimal places the division rounds: the quotient is the
    nearest multiple of 10^-20, ties away from zero. *)
Lemma dividedBy_pow10_rounded c e d :
  e - d < - 20 ->
  BN.dividedBy (BN.mk c e) (BN.Fin 1 d) =
  BN.mk (BN.round_half_up_div c (10 ^ (- 20 - (e - d)))) (- 20).
Proof.
  intros H. destruct (Z.eq_dec c 0) as [->|Hc].
  - rewrite mk_zero, dividedBy_zero.
    with_strategy transparent [BN.round_half_up_div] (unfold BN.round_half_up_div).
    cbn [Z.sgn Z.mul]. now rewrite mk_zero.
  - with_strategy transparent [BN.mk] (unfold BN.mk at 1).
    destruct (Z.eqb_spec c 0) as [|_]; [contradiction|].
    destruct (BN.strip10 _ c e) as [c' e'] eqn:Hs.
    apply BNFacts.strip10_spec in Hs. destruct Hs as (j & Hj & -> & ->).
    with_strategy transparent [BN.dividedBy] (cbn [BN.dividedBy]).
    change (1 =? 0) with false. cbv iota. unfold BN.DECIMAL_PLACES. f_equal.
    destruct (Z.leb_spec 0 (e + j - d + 20)) as [Hk|Hk].
    + rewrite BNArith.round_half_up_div_1.
      replace (c' * 10 ^ j)
        with (c' * 10 ^ (e + j - d + 20) * 10 ^ (- 20 - (e - d))).
      * symmetry. apply BNArith.round_half_up_div_exact.
        apply Z.pow_nonzero; lia.
      * rewrite <- Z.mul_assoc, <- Z.pow_add_r by lia. do 2 f_equal. lia.
    + rewrite Z.mul_1_l.
      replace (10 ^ (- 20 - (e - d)))
        with (10 ^ (- (e + j - d + 20)) * 10 ^ j).
      * symmetry. apply BNArith.round_half_up_div_scale.
        apply Z.pow_pos_nonneg; lia.
      * rewrite <- Z.pow_add_r by lia. f_equal. lia.
Qed.

(** The product under the conversion: gasBudget * 1.1 * feePrice * 10^9. *)
Lemma fee_in_unit gasBudget c e :
  BN.times (BN.times (BN.of_Z gasBudget) (BN.mk 11 (-1)))
    (BN.times (BN.of_BN (BN.Fin c e)) (BN.of_Z (10 ^ 9)))
  = BN.mk (gasBudget * 11 * c) (e + 8).
Proof.
  with_strategy transparent [BN.of_BN BN.of_Z] (unfold BN.of_BN, BN.of_Z).
  rewrite !BNArith.times_mk. apply BNFacts.mk_value_eq.
  replace (gasBudget * 11 * (c * 10 ^ 9)) with (gasBudget * 11 * c * 10 ^ 9) by ring.
  rewrite BNFacts.value_shift by lia.
  replace (0 + -1 + (e + 0) + 9) with (e + 8) by lia. reflexivity.
Qed.

(** When the quotient has more than 20 decimal places the conversion to the
    native unit rounds it to 20 places. *)
Lemma fee_in_native_rounded native gasBudget c e :
  e + 8 - Z.of_nat (decimals native) < -20 ->
  fee_in_native native gasBudget (BN.Fin c e) =
  BN.mk (BN.round_half_up_div (gasBudget * 11 * c)
           (10 ^ (- 20 - (e + 8 - Z.of_nat (decimals native))))) (-20).
Proof.
  intros H. unfold fee_in_native.
  with_strategy transparent [unitToCurrency] (unfold unitToCurrency).
  rewrite (BNFacts.of_BN_canonical (BN.times _ _)) by apply BNArith.canonical_times.
  rewrite BNArith.pow_10, fee_in_unit. now apply dividedBy_pow10_rounded.
Qed.

(** ** The asset lock *)

Lemma lock_free_bind {A B : Type} (p : Prog A) (f : A -> Prog B) :
  lock_free p -> (forall a, lock_free (f a)) -> lock_free (bind p f).
Proof.
  intros Hp Hf. induction p as [a|e|R c k IH]; cbn.
  - apply Hf.
  - exact I.
  - destruct Hp as [Hc Hk]. split; [exact Hc|]. intros r. apply IH, Hk.
Qed.

Ltac lock_free_tac :=
  repeat (unfold deref, lift, await, call; cbn;
    match goal with
    | |- True => exact I
    | |- _ /\ _ => split
    | |- _ = _ => reflexivity
    | |- forall _, _ => intro
    | |- lock_free ?p =>
        first
          [ head_scrut p ltac:(fun x => destruct x)
          | lazymatch p with
            | bind _ _ => apply lock_free_bind
            end ]
    end).

Lemma _getApi_lock_free this network asset : lock_free (_getApi this network asset).
Proof. open_method _getApi. lock_free_tac. Qed.

Lemma buildSwapTx_lock_free this network walletId quote :
  lock_free (buildSwapTx this network walletId quote).
Proof.
  open_method buildSwapTx. open_method inputAmount_of.
  lock_free_tac; apply _getApi_lock_free.
Qed.

Lemma sendSwap_lock_free this network walletId quote :
  lock_free (sendSwap this network walletId quote).
Proof.
  open_method sendSwap. lock_free_tac; apply buildSwapTx_lock_free.
Qed.

Lemma requiresApproval_lock_free this network walletId quote :
  lock_free (requiresApproval this network walletId quote).
Proof.
  open_method requiresApproval. open_method inputAmount_of.
  lock_free_tac; apply _getApi_lock_free.
Qed.

Lemma buildApprovalTx_lock_free this network walletId quote :
  lock_free (buildApprovalTx this network walletId quote).
Proof.
  open_method buildApprovalTx. open_method inputAmount_of.
  lock_free_tac; apply _getApi_lock_free.
Qed.

Lemma approveTokens_lock_free this network walletId quote :
  lock_free (approveTokens this network walletId quote).
Proof.
  open_method approveTokens.
  lock_free_tac; first [apply requiresApproval_lock_free|apply buildApprovalTx_lock_free].
Qed.

(** [newSwap] takes no lock, whichever of its two submissions it makes. *)
Lemma newSwap_lock_free this network walletId quote :
  lock_free (newSwap this network walletId quote).
Proof.
  open_method newSwap.
  lock_free_tac; first [apply approveTokens_lock_free|apply sendSwap_lock_free].
Qed.

Lemma in_critical_section_snoc key i t l :
  in_critical_section key i (t ++ [l]) = holds_after key i (in_critical_section key i t) l.
Proof. unfold in_critical_section. rewrite foldl_app. reflexivity. Qed.

Lemma holds_after_other key i acc j ev : j <> i -> holds_after key i acc (j, ev) = acc.
Proof.
  intros Hne. unfold holds_after. destruct (Nat.eqb_spec j i); [contradiction|reflexivity].
Qed.

Lemma holds_after_call key i acc j R (c : Call R) (r : R) :
  lock_op c = None -> holds_after key i acc (j, event_of c r) = acc.
Proof.
  intros Hc. unfold holds_after. destruct (j =? i)%nat; [|reflexivity].
  destruct c; try reflexivity; discriminate.
Qed.

Lemma holds_after_acquire key i acc : holds_after key i acc (i, EvLockAcquire key) = true.
Proof.
  unfold holds_after. rewrite Nat.eqb_refl.
  destruct (decide (key = key)); [reflexivity|contradiction].
Qed.

Lemma holds_after_release key i acc : holds_after key i acc (i, EvLockRelease key) = false.
Proof.
  unfold holds_after. rewrite Nat.eqb_refl.
  destruct (decide (key = key)); [reflexivity|contradiction].
Qed.

Lemma dispatch_not_lock R (c : Call R) (r : R) :
  is_dispatch (event_of c r) = true -> lock_op c = None.
Proof. destruct c; try discriminate; reflexivity. Qed.

(** One step of a pool keeps the invariant.  The step is an acquisition
    only when no attempt is inside its critical section, and any other call
    of an attempt is made inside its own critical section. *)
Lemma pool_inv_step {A : Type} key n t (s s' : Pool A) i ev :
  pool_inv key n t s -> pool_step s (i, ev) s' ->
  pool_inv key n (t ++ [(i, ev)]) s' /\
  (ev = EvLockAcquire key -> forall j, in_critical_section key j t = false) /\
  ((i < n)%nat -> ev <> EvLockAcquire key -> in_critical_section key i t = true).
Proof.
  destruct s as [held ts]. intros (Ha & Hb & Hc) Hstep.
  cbn [pool_step] in Hstep. destruct Hstep as (p & Hp & Hstep).
  pose proof (Ha i p Hp) as Hst. cbn [fst snd] in *.
  assert (Hi : (i < length ts)%nat) by (eapply lookup_lt_Some, Hp).
  assert (Hcall : forall R (c : Call R) (k : R -> Prog A) (r : R),
            lock_op c = None ->
            member_state key (i <? n)%nat (k r) (in_critical_section key i t) ->
            pool_inv key n (t ++ [(i, event_of c r)]) (held, <[i := k r]> ts)).
  { intros R c k r Hlock Hk.
    assert (Hsame : forall j, in_critical_section key j (t ++ [(i, event_of c r)])
                              = in_critical_section key j t).
    { intros j. rewrite in_critical_section_snoc. now apply holds_after_call. }
    split; [|split].
    - intros j p' Hp'. cbn [snd] in Hp'. rewrite Hsame.
      destruct (Nat.eq_dec j i) as [->|Hne].
      + rewrite list_lookup_insert_eq in Hp' by exact Hi. injection Hp' as <-.
        exact Hk.
      + rewrite list_lookup_insert_ne in Hp' by congruence. now apply Ha.
    - intros j Hj. rewrite Hsame in Hj. cbn [fst snd].
      rewrite length_insert. now apply Hb.
    - intros j1 j2. rewrite !Hsame. apply Hc. }
  destruct (i <? n)%nat eqn:Hn; cbn [member_state] in Hst.
  - (* an attempt *)
    destruct (in_critical_section key i t) eqn:Ecs; cbn [attempt_state] in Hst.
    + (* inside the critical section *)
      destruct Hst as (q & Hq & ->).
      assert (Hout : forall j, in_critical_section key j (t ++ [(i, EvLockRelease key)]) = true
                               -> False).
      { intros j Hj. rewrite in_critical_section_snoc in Hj.
        destruct (Nat.eq_dec j i) as [->|Hne].
        - rewrite holds_after_release in Hj. discriminate.
        - rewrite holds_after_other in Hj by congruence.
          apply Hne. now apply Hc. }
      assert (Hrel : forall p', finished p' ->
                pool_inv key n (t ++ [(i, EvLockRelease key)])
                  (held ∖ {[key]}, <[i := p']> ts)).
      { intros p' Hfin. split; [|split].
        - intros j p'' Hp''. cbn [snd] in Hp''.
          destruct (Nat.eq_dec j i) as [->|Hne].
          + rewrite list_lookup_insert_eq in Hp'' by exact Hi. injection Hp'' as <-.
            rewrite Hn, in_critical_section_snoc, holds_after_release. right. exact Hfin.
          + rewrite list_lookup_insert_ne in Hp'' by congruence.
            rewrite in_critical_section_snoc, holds_after_other by congruence.
            now apply Ha.
        - intros j Hj. exfalso. eapply Hout, Hj.
        - intros j1 j2 Hj. exfalso. eapply Hout, Hj. }
      destruct q as [a|e|R c k]; cbn in Hstep.
      * (* the body has returned: the release *)
        destruct Hstep as (r & -> & ->).
        split; [apply Hrel; exact I|]. split; [discriminate|reflexivity].
      * (* the body has thrown: the release *)
        destruct Hstep as (r & -> & ->).
        split; [apply Hrel; exact I|]. split; [discriminate|reflexivity].
      * (* a call of the body *)
        destruct Hq as [Hlock Hk]. destruct Hstep as (r & -> & Hs').
        rewrite Hlock in Hs'. subst s'.
        split; [|split; [|reflexivity]].
        -- apply (Hcall R c (fun r => try_finally (k r) (call (LockRelease key))) r Hlock).
           exists (k r). split; [apply Hk|reflexivity].
        -- intros E. exfalso. destruct c; try discriminate E. discriminate Hlock.
    + (* outside: waiting for the lock, or finished *)
      destruct Hst as [(body & Hbody & ->)|Hfin].
      * cbn in Hstep. destruct Hstep as (r & -> & Hfree & ->).
        assert (Hnone : forall j, in_critical_section key j t = false).
        { intros j. destruct (in_critical_section key j t) eqn:Ej; [|reflexivity].
          exfalso. exact (Hfree (proj1 (Hb j Ej))). }
        split; [|split; [auto|congruence]].
        assert (Honly : forall j,
                  in_critical_section key j (t ++ [(i, EvLockAcquire key)]) = true -> j = i).
        { intros j Hj. rewrite in_critical_section_snoc in Hj.
          destruct (Nat.eq_dec j i) as [|Hne]; [assumption|].
          rewrite holds_after_other, Hnone in Hj by congruence. discriminate. }
        split; [|split].
        -- intros j p' Hp'. cbn [snd] in Hp'.
           destruct (Nat.eq_dec j i) as [->|Hne].
           ++ rewrite list_lookup_insert_eq in Hp' by exact Hi. injection Hp' as <-.
              rewrite Hn, in_critical_section_snoc, holds_after_acquire.
              exists body. split; [exact Hbody|reflexivity].
           ++ rewrite list_lookup_insert_ne in Hp' by congruence.
              rewrite in_critical_section_snoc, holds_after_other by congruence.
              now apply Ha.
        -- intros j Hj. apply Honly in Hj. subst j. cbn [fst snd].
           rewrite length_insert.
           split; [apply elem_of_union; left; now apply elem_of_singleton|exact Hi].
        -- intros j1 j2 H1 H2. apply Honly in H1, H2. congruence.
      * destruct p; cbn in Hstep, Hfin; contradiction.
  - (* an invocation that takes no lock *)
    destruct Hst as [Hfree Ecs].
    destruct p as [a|e|R c k]; cbn in Hstep; try contradiction.
    destruct Hfree as [Hlock Hk]. destruct Hstep as (r & -> & Hs').
    rewrite Hlock in Hs'. subst s'.
    split; [|split].
    + apply (Hcall R c k r Hlock). rewrite Ecs. split; [apply Hk|reflexivity].
    + intros E. exfalso. destruct c; try discriminate E. discriminate Hlock.
    + intros Hlt. apply Nat.ltb_ge in Hn. lia.
Qed.

Lemma pool_exec_cons {A : Type} (s s1 s2 : Pool A) l t :
  pool_step s l s1 -> pool_exec s1 t s2 -> pool_exec s (l :: t) s2.
Proof.
  intros Hstep Hexec. induction Hexec as [|t s2 l' s3 _ IH Hstep'].
  - apply (pool_exec_snoc s [] s l s1); [constructor|exact Hstep].
  - apply (pool_exec_snoc s (l :: t) s2 l' s3); assumption.
Qed.

Lemma pool_next_step {W A : Type} (h : Handler W) i (s s' : Pool A) w w' ev :
  pool_next h i s w = Some (ev, s', w') -> pool_step s (i, ev) s'.
Proof.
  destruct s as [held ts]. unfold pool_next, pool_step. cbn [fst snd].
  destruct (ts !! i) as [[a|e|R c k]|]; try discriminate.
  destruct (h R c w) as [r w1]. intros H. eexists. split; [reflexivity|].
  exists r. destruct (lock_op c) as [[[] key]|].
  - destruct (decide (key ∈ held)); [discriminate|].
    injection H as <- <- _. auto.
  - injection H as <- <- _. auto.
  - injection H as <- <- _. auto.
Qed.

(** What the scheduler computes is an execution of the pool. *)
Lemma pool_run_exec {W A : Type} (h : Handler W) schedule :
  forall (s : Pool A) w,
    pool_exec s (fst (pool_run h schedule s w)) (snd (pool_run h schedule s w)).
Proof.
  induction schedule as [|i rest IH]; intros s w; cbn [pool_run].
  - constructor.
  - destruct (pool_next h i s w) as [[[ev s'] w']|] eqn:Hn; [|apply IH].
    specialize (IH s' w'). destruct (pool_run h rest s' w') as [t s''].
    cbn [fst snd] in *. eapply pool_exec_cons; [|exact IH].
    eapply pool_next_step, Hn.
Qed.

Lemma pool_inv_init {A : Type} key (attempts others : list (Prog A)) :
  (forall p, In p attempts -> locked_attempt key p) ->
  (forall p, In p others -> lock_free p) ->
  pool_inv key (length attempts) [] (∅, attempts ++ others).
Proof.
  intros Hatt Hoth. split; [|split].
  - intros i p Hp. cbn [snd] in Hp.
    destruct (Nat.ltb_spec i (length attempts)) as [Hlt|Hge]; cbn.
    + rewrite lookup_app_l in Hp by exact Hlt.
      left. apply Hatt. apply list_elem_of_In. eapply list_elem_of_lookup_2, Hp.
    + rewrite lookup_app_r in Hp by exact Hge.
      split; [|reflexivity]. apply Hoth. apply list_elem_of_In.
      eapply list_elem_of_lookup_2, Hp.
  - discriminate.
  - discriminate.
Qed.

(** In every execution of a pool of attempts under one lock and of
    invocations that take no lock: a call of an attempt other than the
    acquisition is made inside its critical section, where it is alone; and
    the lock is acquired only while no attempt is inside. *)
Lemma pool_inv_exec {A : Type} key n (s0 s : Pool A) t :
  pool_inv key n [] s0 -> pool_exec s0 t s ->
  pool_inv key n t s /\
  forall t1 i ev t2, t = t1 ++ (i, ev) :: t2 ->
    (ev = EvLockAcquire key -> forall j, in_critical_section key j t1 = false) /\
    ((i < n)%nat -> ev <> EvLockAcquire key ->
     in_critical_section key i t1 = true /\
     forall j, in_critical_section key j t1 = true -> j = i).
Proof.
  intros H0 Hexec. induction Hexec as [|t s1 [i' ev'] s2 _ [IH1 IH2] Hstep].
  - split; [exact H0|]. intros t1 i ev t2 E. destruct t1; discriminate.
  - destruct (pool_inv_step key n t s1 s2 i' ev' IH1 Hstep) as (Hinv & Hacq & Hcall).
    split; [exact Hinv|]. intros t1 i ev t2 E.
    destruct t2 as [|x t2 _] using rev_ind.
    + apply app_inj_tail in E. destruct E as [-> [= -> ->]].
      split; [exact Hacq|]. intros Hlt Hne. split; [now apply Hcall|].
      intros j Hj. destruct IH1 as (_ & _ & Hc). apply Hc; [exact Hj|now apply Hcall].
    + change ((i, ev) :: t2 ++ [x]) with (((i, ev) :: t2) ++ [x]) in E.
      rewrite app_assoc in E. apply app_inj_tail in E.
      destruct E as [-> _]. exact (IH2 t1 i ev t2 eq_refl).
Qed.

(** The trace of one attempt under the lock: the acquisition, the body, the
    release; the outcome is that of the body. *)
Lemma exec_withLock {A : Type} store item network walletId asset (func : Prog A) t res :
  exec (withLock store item network walletId asset func) t res <->
  exists t', exec func t' res /\
    t = EvLockAcquire (network, asset) :: t' ++ [EvLockRelease (network, asset)].
Proof.
  unfold withLock. cbn. split.
  - intros (r & t0 & -> & H). apply exec_try_finally in H.
    destruct H as (t1 & r1 & t2 & r2 & H1 & H2 & -> & ->).
    cbn in H2. destruct H2 as (u & t3 & -> & -> & ->). eauto.
  - intros (t' & H & ->). exists tt, (t' ++ [EvLockRelease (network, asset)]).
    split; [reflexivity|]. apply exec_try_finally.
    exists t', res, [EvLockRelease (network, asset)], (Ok tt).
    repeat split; auto. exists tt, []. cbn. auto.
Qed.

Lemma performNextSwapAction_locked_attempt this store network walletId swap :
  status swap = "APPROVE_CONFIRMED"%string ->
  locked_attempt (network, from swap)
    (performNextSwapAction this store network walletId swap).
Proof.
  intros Hs. open_method performNextSwapAction. rewrite Hs.
  cbn [String.eqb Ascii.eqb Bool.eqb]. unfold withLock.
  eexists. split; [|reflexivity].
  apply lock_free_bind; [apply sendSwap_lock_free|]. intros u. exact I.
Qed.

Lemma lock_free_exec {A : Type} (p : Prog A) t res :
  lock_free p -> exec p t res ->
  forall ev, In ev t ->
    (forall key, ev <> EvLockAcquire key) /\ (forall key, ev <> EvLockRelease key).
Proof.
  revert t. induction p as [a|e|R c k IH]; intros t Hp H ev Hin; cbn in H.
  - destruct H as [-> _]. contradiction.
  - destruct H as [-> _]. contradiction.
  - destruct H as (r & t' & -> & H). destruct Hp as [Hc Hk].
    destruct Hin as [<-|Hin]; [|eapply IH; eauto].
    destruct c; try discriminate Hc; split; discriminate.
Qed.

(** C9: the swap submission made in state APPROVE_CONFIRMED by
    [performNextSwapAction] runs under the lock keyed by (network, asset).
    Every execution of one such attempt acquires the lock first and
    releases it last, whether the submission returns or throws.  When such
    attempts for the same network and asset run concurrently, among
    themselves and with any invocations that take no lock, an attempt
    dispatches a transaction only while it holds the lock, no other attempt
    holds it then, and the lock is acquired only while no attempt holds it:
    a second attempt waits until the first has released the lock, so the
    submissions of the attempts never interleave. *)
Theorem swap_submissions_serialized this store network asset
    (attempts : list (string * Swap)) (others : list (Prog (option Updates.t))) :
  (forall a, In a attempts ->
     status (snd a) = "APPROVE_CONFIRMED"%string /\ from (snd a) = asset) ->
  (forall p, In p others -> lock_free p) ->
  let key := (network, asset) in
  (forall a t res, In a attempts ->
     exec (performNextSwapAction this store network (fst a) (snd a)) t res ->
     exists t', t = EvLockAcquire key :: t' ++ [EvLockRelease key] /\
       forall ev, In ev t' -> ev <> EvLockAcquire key /\ ev <> EvLockRelease key) /\
  (forall t s,
     pool_exec
       (∅, map (fun a => performNextSwapAction this store network (fst a) (snd a))
             attempts ++ others) t s ->
     forall t1 i ev t2, t = t1 ++ (i, ev) :: t2 ->
       ((i < length attempts)%nat -> is_dispatch ev = true ->
        in_critical_section key i t1 = true /\
        forall j, in_critical_section key j t1 = true -> j = i) /\
       (ev = EvLockAcquire key ->
        forall j, in_critical_section key j t1 = false)).
Proof.
  intros Hatt Hoth key. split.
  - intros [w swap] t res Hin H. destruct (Hatt _ Hin) as [Hs Hf]. cbn [fst snd] in *.
    open_method performNextSwapAction. rewrite Hs in H.
    cbn [String.eqb Ascii.eqb Bool.eqb] in H.
    apply exec_withLock in H. destruct H as (t' & H & ->). subst asset.
    exists t'. split; [reflexivity|]. intros ev Hev.
    assert (Hlf : lock_free (updates <- sendSwap this network w swap;; Ret (Some updates)))
      by (apply lock_free_bind; [apply sendSwap_lock_free|intros u; exact I]).
    destruct (lock_free_exec _ _ _ Hlf H ev Hev) as [H1 H2]. split; [apply H1|apply H2].
  - intros t s Hexec t1 i ev t2 E.
    assert (H0 : pool_inv key (length attempts) []
                   (∅, map (fun a => performNextSwapAction this store network (fst a) (snd a))
                         attempts ++ others)).
    { rewrite <- (length_map
                    (fun a => performNextSwapAction this store network (fst a) (snd a))
                    attempts).
      apply pool_inv_init; [|exact Hoth]. intros p Hp. apply in_map_iff in Hp.
      destruct Hp as (a & <- & Ha). destruct (Hatt _ Ha) as [Hs <-].
      now apply performNextSwapAction_locked_attempt. }
    destruct (pool_inv_exec key _ _ _ _ H0 Hexec) as [_ H].
    destruct (H t1 i ev t2 E) as [Hacq Hcall]. split; [|exact Hacq].
    intros Hlt Hd. apply Hcall; [exact Hlt|]. intros ->. discriminate.
Qed.

Lemma swap_submissions_serialized_witness :
  (forall a, In a Sample.attempts ->
     status (snd a) = "APPROVE_CONFIRMED"%string /\ from (snd a) = "SOV"%string) /\
  (forall p, In p [Sample.started] -> lock_free p) /\
  (exists ev t2,
     Sample.pool_trace_started = firstn 13 Sample.pool_trace_started ++ (0%nat, ev) :: t2 /\
     is_dispatch ev = true) /\
  in_critical_section ("mainnet", "SOV")%string 0 (firstn 13 Sample.pool_trace_started)
  = true /\
  (forall j, in_critical_section ("mainnet", "SOV")%string j
               (firstn 13 Sample.pool_trace_started) = true ->
             j = 0%nat).
Proof.
  assert (Hatt : forall a, In a Sample.attempts ->
            status (snd a) = "APPROVE_CONFIRMED"%string /\ from (snd a) = "SOV"%string).
  { intros a [<-|[<-|[]]]; split; reflexivity. }
  assert (Hoth : forall p, In p [Sample.started] -> lock_free p).
  { intros p [<-|[]]. apply lock_free_bind; [apply newSwap_lock_free|intros u; exact I]. }
  split; [exact Hatt|]. split; [exact Hoth|].
  split; [eexists _, (skipn 14 Sample.pool_trace_started); split;
            [vm_compute; reflexivity|reflexivity]|].
  pose proof (swap_submissions_serialized Sample.provider tt "mainnet" "SOV"
                Sample.attempts [Sample.started] Hatt Hoth) as [_ H].
  specialize (H Sample.pool_trace_started _
                (pool_run_exec (Sample.handler Sample.answers) Sample.schedule_started
                   Sample.pool_started ∅)).
  eapply (H (firstn 13 Sample.pool_trace_started) 0%nat _
            (skipn 14 Sample.pool_trace_started)).
  - vm_compute. reflexivity.
  - cbn. lia.
  - reflexivity.
Defined.

(** C9, as stated, fails: [newSwap] submits with no lock.  While the first
    attempt holds the lock of (mainnet, SOV), a new swap of SOV dispatches
    its transaction; it is not inside any critical section, and the
    attempt dispatches its own transaction afterwards, still holding the
    lock. *)
Lemma newSwap_dispatches_unlocked :
  pool_exec Sample.pool_started Sample.pool_trace_started
    (snd (pool_run (Sample.handler Sample.answers) Sample.schedule_started
            Sample.pool_started ∅)) /\
  exists t1 tx sent t2 tx' sent' t3,
    Sample.pool_trace_started
    = t1 ++ (2%nat, EvSendTransaction 7%nat tx sent) :: t2
         ++ (0%nat, EvSendTransaction 7%nat tx' sent') :: t3 /\
    in_critical_section ("mainnet", "SOV")%string 0 t1 = true /\
    in_critical_section ("mainnet", "SOV")%string 2 t1 = false /\
    in_critical_section ("mainnet", "SOV")%string 0
      (t1 ++ (2%nat, EvSendTransaction 7%nat tx sent) :: t2) = true /\
    TxData.to tx = contractAddress Sample.SOV /\
    TxData.to tx' = Some (controllerAddress (config Sample.provider)).
Proof.
  split; [apply (pool_run_exec (Sample.handler Sample.answers))|].
  exists (firstn 9 Sample.pool_trace_started).
  eexists _, _, (firstn 3 (skipn 10 Sample.pool_trace_started)), _, _,
    (skipn 14 Sample.pool_trace_started).
  split; [vm_compute; reflexivity|]. repeat split; vm_compute; reflexivity.
Qed.

(** Two attempts alone, the second tried while the first is submitting: it
    waits, and acquires the lock after the first has released it. *)
Example second_attempt_waits :
  map (fun l => (fst l,
                 match snd l with
                 | EvLockAcquire _ => "acquire"
                 | EvLockRelease _ => "release"
                 | EvSendTransaction _ _ _ => "dispatch"
                 | _ => "read"
                 end%string)) Sample.pool_trace
  = [(0, "acquire"); (0, "read"); (0, "read"); (0, "read"); (0, "read");
     (0, "dispatch"); (0, "release");
     (1, "acquire"); (1, "read"); (1, "read"); (1, "dispatch"); (1, "release")]%nat%string.
Proof. vm_compute. reflexivity. Qed.

(** ** The sample deployment: the theorems at work *)

Lemma Sample_exec {A : Type} a (p : Prog A) :
  exec p (snd (Sample.outcome a p)) (fst (Sample.outcome a p)).
Proof. apply run_exec. Qed.

Lemma quote_100_outcome :
  fst (Sample.outcome Sample.answers Sample.quote_100_units)
  = Ok (Some Sample.quote_100_expected).
Proof. vm_compute. reflexivity. Qed.

Lemma performNextSwapAction_forward_witness :
  exec Sample.submit (snd (Sample.outcome Sample.answers Sample.submit))
    (fst (Sample.outcome Sample.answers Sample.submit)) /\
  forall u, fst (Sample.outcome Sample.answers Sample.submit) = Ok u ->
    exists upd, u = Some upd /\
      Updates.status upd = "WAITING_FOR_SWAP_CONFIRMATIONS"%string.
Proof.
  split; [apply Sample_exec|].
  exact (proj1 (proj2 (performNextSwapAction_forward Sample.provider tt "mainnet" "wallet"
                         (Sample.swap100 "APPROVE_CONFIRMED") _ _
                         (Sample_exec Sample.answers Sample.submit))) eq_refl).
Defined.

Lemma getQuote_null_witness :
  cryptoassets Sample.provider !! "SOV"%string = Some Sample.SOV /\
  cryptoassets Sample.provider !! "RBTC"%string = Some Sample.RBTC /\
  exec Sample.quote_unsupported_pair
    (snd (Sample.outcome Sample.answers Sample.quote_unsupported_pair))
    (fst (Sample.outcome Sample.answers Sample.quote_unsupported_pair)) /\
  ("SOV", "RBTC")%string <> ("SOV", "ZERO")%string /\
  fst (Sample.outcome Sample.answers Sample.quote_unsupported_pair) = Ok None.
Proof.
  assert (H1 : cryptoassets Sample.provider !! "SOV"%string = Some Sample.SOV)
    by (vm_compute; reflexivity).
  assert (H2 : cryptoassets Sample.provider !! "RBTC"%string = Some Sample.RBTC)
    by (vm_compute; reflexivity).
  assert (H3 : ("SOV", "RBTC")%string <> ("SOV", "ZERO")%string) by discriminate.
  split; [exact H1|]. split; [exact H2|]. split; [apply Sample_exec|].
  split; [exact H3|].
  apply (getQuote_null Sample.provider "mainnet" "SOV" "RBTC" (BN.Fin 1 0)
           Sample.SOV Sample.RBTC _ _ H1 H2
           (Sample_exec Sample.answers Sample.quote_unsupported_pair)).
  right. left. exact H3.
Defined.

Lemma getQuote_amounts_witness :
  exec Sample.quote_100_units
    (snd (Sample.outcome Sample.answers Sample.quote_100_units))
    (Ok (Some Sample.quote_100_expected)) /\
  exists fromInfo t0 c ppm er,
    cryptoassets Sample.provider !! "SOV"%string = Some fromInfo /\
    snd (Sample.outcome Sample.answers Sample.quote_100_units)
    = t0 ++ [EvPPM c (Ok ppm); EvExchangeRate c (Ok er)] /\
    fromAmount Sample.quote_100_expected
    = AmountString (BN.toFixed (currencyToUnit fromInfo (BN.Fin 1 (-16)))) /\
    toAmount Sample.quote_100_expected
    = AmountBN (BN.times (currencyToUnit fromInfo (BN.Fin 1 (-16)))
                  (BN.dividedBy (BN.of_Z er) (BN.of_Z ppm))).
Proof.
  pose proof (Sample_exec Sample.answers Sample.quote_100_units) as H.
  rewrite quote_100_outcome in H. split; [exact H|].
  destruct (getQuote_amounts Sample.provider "mainnet" "SOV" "ZERO" (BN.Fin 1 (-16)) _ _ H)
    as (fromInfo & t0 & c & ppm & er & H1 & H2 & H3 & H4 & _).
  exists fromInfo, t0, c, ppm, er. auto.
Defined.

Lemma getQuote_quote_shape_witness :
  exec Sample.quote_100_units
    (snd (Sample.outcome Sample.answers Sample.quote_100_units))
    (Ok (Some Sample.quote_100_expected)) /\
  exists fromInfo rate,
    cryptoassets Sample.provider !! "SOV"%string = Some fromInfo /\
    Sample.quote_100_expected =
    {| from := "SOV"; to := "ZERO";
       fromAmount := AmountString (BN.toFixed (currencyToUnit fromInfo (BN.Fin 1 (-16))));
       toAmount := AmountBN (BN.times (currencyToUnit fromInfo (BN.Fin 1 (-16))) rate);
       fee := None; fromAccountId := None; toAccountId := None |}.
Proof.
  pose proof (Sample_exec Sample.answers Sample.quote_100_units) as H.
  rewrite quote_100_outcome in H. split; [exact H|].
  destruct (getQuote_quote_shape Sample.provider "mainnet" "SOV" "ZERO" (BN.Fin 1 (-16)) _ _ H)
    as (fromInfo & rate & H1 & _ & H2 & _).
  exists fromInfo, rate. auto.
Defined.

Lemma requiresApproval_spec_witness :
  exec Sample.approval (snd (Sample.outcome Sample.answers_allowance Sample.approval))
    (fst (Sample.outcome Sample.answers_allowance Sample.approval)) /\
  fst (Sample.outcome Sample.answers_allowance Sample.approval) = Ok false /\
  exists info addr api t0 addresses owner allowance inputAmount,
    cryptoassets Sample.provider !! "SOV"%string = Some info /\
    contractAddress info = Some addr /\
    head addresses = Some owner /\
    snd (Sample.outcome Sample.answers_allowance Sample.approval)
    = t0 ++ [EvGetUnusedAddresses "mainnet" "wallet" ["SOV"%string] None (Ok addresses);
             EvAllowance
               {| ethers.address := JsString.toLowerCase addr; ethers.provider := api |}
               (JsString.toLowerCase owner)
               (JsString.toLowerCase (presaleAddress (config Sample.provider)))
               (Ok allowance)] /\
    ethers.BigNumber_from (BN.toFixed (BN_ (fromAmount Sample.quote100))) = Ok inputAmount /\
    (false = false <-> inputAmount <= allowance) /\
    (allowance = inputAmount -> false = false).
Proof.
  split; [apply Sample_exec|].
  assert (E : fst (Sample.outcome Sample.answers_allowance Sample.approval) = Ok false)
    by (vm_compute; reflexivity).
  split; [exact E|].
  exact (proj2 (requiresApproval_spec Sample.provider "mainnet" "wallet" Sample.quote100
                  _ _ (Sample_exec Sample.answers_allowance Sample.approval))
           eq_refl false E).
Defined.

Lemma approveTokens_spec_witness :
  exec Sample.approve (snd (Sample.outcome Sample.answers_allowance Sample.approve))
    (fst (Sample.outcome Sample.answers_allowance Sample.approve)) /\
  exists t1 r1,
    exec (requiresApproval Sample.provider "mainnet" "wallet" Sample.quote100) t1 r1 /\
    match r1 with
    | Err e =>
        snd (Sample.outcome Sample.answers_allowance Sample.approve) = t1 /\
        fst (Sample.outcome Sample.answers_allowance Sample.approve) = Err e
    | Ok false =>
        snd (Sample.outcome Sample.answers_allowance Sample.approve) = t1 /\
        fst (Sample.outcome Sample.answers_allowance Sample.approve)
        = Ok (Updates.of_status "APPROVE_CONFIRMED") /\
        (forall ev, In ev (snd (Sample.outcome Sample.answers_allowance Sample.approve)) ->
                    is_dispatch ev = false)
    | Ok true =>
        exists t2,
          snd (Sample.outcome Sample.answers_allowance Sample.approve) = t1 ++ t2 /\
          forall u, fst (Sample.outcome Sample.answers_allowance Sample.approve) = Ok u ->
            exists t3 txData client approveTx,
              exec (buildApprovalTx Sample.provider "mainnet" "wallet" Sample.quote100)
                t3 (Ok txData) /\
              t2 = t3 ++ [EvGetClient "mainnet" "wallet" "SOV" None (Ok client);
                          EvSendTransaction client txData (Ok approveTx)] /\
              u = {| Updates.status := "WAITING_FOR_APPROVE_CONFIRMATIONS";
                     Updates.endTime := None;
                     Updates.approveTx := Some approveTx;
                     Updates.approveTxHash := Some (hash approveTx);
                     Updates.swapTx := None;
                     Updates.swapTxHash := None |}
    end.
Proof.
  split; [apply Sample_exec|].
  exact (approveTokens_spec Sample.provider "mainnet" "wallet" Sample.quote100 _ _
           (Sample_exec Sample.answers_allowance Sample.approve)).
Defined.

Lemma waitForSwapConfirmations_outcomes_witness :
  exec Sample.waitSwap (snd (Sample.outcome Sample.answers Sample.waitSwap))
    (fst (Sample.outcome Sample.answers Sample.waitSwap)) /\
  In (EvGetTransactionByHash 7%nat (Some "0xabc"%string) (Ok (Some {| confirmations := 1 |})))
     (snd (Sample.outcome Sample.answers Sample.waitSwap)) /\
  0 < 1 /\
  exists r,
    In (EvGetTransactionReceipt 7%nat (Some "0xabc"%string) r)
       (snd (Sample.outcome Sample.answers Sample.waitSwap)) /\
    forall receipt, r = Ok (Some receipt) ->
      exists now,
        snd (Sample.outcome Sample.answers Sample.waitSwap)
        = [EvGetClient "mainnet" "wallet" "SOV" None (Ok 7%nat);
           EvGetTransactionByHash 7%nat (Some "0xabc"%string)
             (Ok (Some {| confirmations := 1 |}));
           EvGetTransactionReceipt 7%nat (Some "0xabc"%string) (Ok (Some receipt));
           EvUpdateBalances "mainnet" "wallet" ["SOV"%string];
           EvDateNow now] /\
        fst (Sample.outcome Sample.answers Sample.waitSwap)
        = Ok (Some {| Updates.status :=
                        if receiptStatus receipt =? 1 then "SUCCESS" else "FAILED";
                      Updates.endTime := Some now;
                      Updates.approveTx := None; Updates.approveTxHash := None;
                      Updates.swapTx := None; Updates.swapTxHash := None |}).
Proof.
  split; [apply Sample_exec|].
  assert (Hin : In (EvGetTransactionByHash 7%nat (Some "0xabc"%string)
                      (Ok (Some {| confirmations := 1 |})))
                   (snd (Sample.outcome Sample.answers Sample.waitSwap)))
    by (vm_compute; auto).
  assert (Hc : 0 < 1) by lia.
  split; [exact Hin|]. split; [exact Hc|].
  exact (proj2 (waitForSwapConfirmations_outcomes
                  (Sample.swap100 "WAITING_FOR_SWAP_CONFIRMATIONS") "mainnet" "wallet" _ _
                  (Sample_exec Sample.answers Sample.waitSwap))
           7%nat {| confirmations := 1 |} Hin Hc).
Defined.

Lemma waitForApproveConfirmations_confirmed_witness :
  exec Sample.waitApprove (snd (Sample.outcome Sample.answers Sample.waitApprove))
    (fst (Sample.outcome Sample.answers Sample.waitApprove)) /\
  In (EvGetTransactionByHash 7%nat (Some "0xapp"%string) (Ok (Some {| confirmations := 1 |})))
     (snd (Sample.outcome Sample.answers Sample.waitApprove)) /\
  0 < 1 /\
  exists now,
    snd (Sample.outcome Sample.answers Sample.waitApprove)
    = [EvGetClient "mainnet" "wallet" "SOV" None (Ok 7%nat);
       EvGetTransactionByHash 7%nat (Some "0xapp"%string) (Ok (Some {| confirmations := 1 |}));
       EvDateNow now] /\
    fst (Sample.outcome Sample.answers Sample.waitApprove)
    = Ok (Some {| Updates.status := "APPROVE_CONFIRMED";
                  Updates.endTime := Some now;
                  Updates.approveTx := None; Updates.approveTxHash := None;
                  Updates.swapTx := None; Updates.swapTxHash := None |}).
Proof.
  split; [apply Sample_exec|].
  assert (Hin : In (EvGetTransactionByHash 7%nat (Some "0xapp"%string)
                      (Ok (Some {| confirmations := 1 |})))
                   (snd (Sample.outcome Sample.answers Sample.waitApprove)))
    by (vm_compute; auto).
  assert (Hc : 0 < 1) by lia.
  split; [exact Hin|]. split; [exact Hc|].
  exact (waitForApproveConfirmations_confirmed
           (Sample.swap100 "WAITING_FOR_APPROVE_CONFIRMATIONS") "mainnet" "wallet" _ _
           7%nat {| confirmations := 1 |}
           (Sample_exec Sample.answers Sample.waitApprove) Hin Hc).
Defined.

(** Scenario E of the specification: the fee tiers 5 and 10 gwei, at the
    budget of 800,000 gas (750,000 and an approval estimated at 50,000). *)
Example estimateFees_tiers :
  exists fees,
    fst (Sample.outcome Sample.answers Sample.fees) = Ok fees /\
    fees !! BN.Fin 5 0 = Some "0.0044"%string /\
    fees !! BN.Fin 1 1 = Some "0.0088"%string.
Proof. eexists. split; [vm_compute; reflexivity|]. split; vm_compute; reflexivity. Qed.

(** ** The scenarios of the specification *)

(** Scenario A: a sufficient allowance, so [approveTokens] returns
    APPROVE_CONFIRMED and submits nothing. *)
Example scenario_A :
  fst (Sample.outcome Sample.answers_allowance Sample.approve)
  = Ok (Updates.of_status "APPROVE_CONFIRMED") /\
  forallb (fun ev => negb (is_dispatch ev))
    (snd (Sample.outcome Sample.answers_allowance Sample.approve)) = true.
Proof. split; vm_compute; reflexivity. Qed.

(** Scenario B: the approval transaction is found with 0 confirmations. *)
Example scenario_B :
  Sample.outcome Sample.answers_unconfirmed Sample.waitApprove
  = (Ok None,
     [EvGetClient "mainnet" "wallet" "SOV" None (Ok 7%nat);
      EvGetTransactionByHash 7%nat (Some "0xapp"%string)
        (Ok (Some {| confirmations := 0 |}))]).
Proof. vm_compute. reflexivity. Qed.

(** Scenario C: the swap transaction has 3 confirmations and receipt status
    0. *)
Example scenario_C :
  Sample.outcome Sample.answers_reverted Sample.waitSwap
  = (Ok (Some {| Updates.status := "FAILED";
                 Updates.endTime := Some 1650000000000;
                 Updates.approveTx := None; Updates.approveTxHash := None;
                 Updates.swapTx := None; Updates.swapTxHash := None |}),
     [EvGetClient "mainnet" "wallet" "SOV" None (Ok 7%nat);
      EvGetTransactionByHash 7%nat (Some "0xabc"%string)
        (Ok (Some {| confirmations := 3 |}));
      EvGetTransactionReceipt 7%nat (Some "0xabc"%string)
        (Ok (Some {| receiptStatus := 0 |}));
      EvUpdateBalances "mainnet" "wallet" ["SOV"%string];
      EvDateNow 1650000000000]).
Proof. vm_compute. reflexivity. Qed.

(** Scenario D: the swap transaction has 1 confirmation and receipt status
    1. *)
Example scenario_D :
  Sample.outcome Sample.answers Sample.waitSwap
  = (Ok (Some {| Updates.status := "SUCCESS";
                 Updates.endTime := Some 1650000000000;
                 Updates.approveTx := None; Updates.approveTxHash := None;
                 Updates.swapTx := None; Updates.swapTxHash := None |}),
     [EvGetClient "mainnet" "wallet" "SOV" None (Ok 7%nat);
      EvGetTransactionByHash 7%nat (Some "0xabc"%string)
        (Ok (Some {| confirmations := 1 |}));
      EvGetTransactionReceipt 7%nat (Some "0xabc"%string)
        (Ok (Some {| receiptStatus := 1 |}));
      EvUpdateBalances "mainnet" "wallet" ["SOV"%string];
      EvDateNow 1650000000000]).
Proof. vm_compute. reflexivity. Qed.

(** Scenario E: the fee tiers 5 and 10 gwei when no approval is required:
    750,000 * 1.1 * tier gwei, in RBTC. *)
Example scenario_E :
  exists fees,
    fst (Sample.outcome Sample.answers_allowance Sample.fees) = Ok fees /\
    fees !! BN.Fin 5 0 = Some "0.004125"%string /\
    fees !! BN.Fin 1 1 = Some "0.00825"%string.
Proof. eexists. split; [vm_compute; reflexivity|]. split; vm_compute; reflexivity. Qed.

(** The state machine submits the swap once the approval is confirmed. *)
Example submit_outcome :
  fst (Sample.outcome Sample.answers Sample.submit)
  = Ok (Some {| Updates.status := "WAITING_FOR_SWAP_CONFIRMATIONS";
                Updates.endTime := None;
                Updates.approveTx := None; Updates.approveTxHash := None;
                Updates.swapTx := Some {| hash := "0xabc" |};
                Updates.swapTxHash := Some "0xabc"%string |}).
Proof. vm_compute. reflexivity. Qed.

(** ** The decimal library on examples *)

Example toString_half :
  BN.toString (BN.dividedBy (BN.of_string "500000") (BN.of_string "1000000"))
  = "0.5"%string.
Proof. vm_compute. reflexivity. Qed.

Example toString_two_thirds :
  BN.toString (BN.dividedBy (BN.of_string "2") (BN.of_string "3"))
  = "0.66666666666666666667"%string.
Proof. vm_compute. reflexivity. Qed.

Example toString_exponential :
  BN.toString (BN.mk 1 (-7)) = "1e-7"%string /\
  BN.toString (BN.mk 1 (-6)) = "0.000001"%string /\
  BN.toString (BN.mk 123 19) = "1.23e+21"%string /\
  BN.toString (BN.mk 1 20) = "100000000000000000000"%string.
Proof. repeat split; vm_compute; reflexivity. Qed.

Example of_string_examples :
  BN.of_string "1.23e+21" = BN.Fin 123 19 /\
  BN.of_string "-0.0500" = BN.Fin (-5) (-2) /\
  BN.of_string ".5" = BN.Fin 5 (-1) /\
  BN.of_string "5." = BN.Fin 5 0 /\
  BN.of_string "." = BN.NaN /\
  BN.of_string "abc" = BN.NaN.
Proof. repeat split; vm_compute; reflexivity. Qed.

Example currencyToUnit_example :
  BN.toFixed (currencyToUnit Sample.SOV (BN.of_string "1.5"))
  = "1500000000000000000"%string.
Proof. vm_compute. reflexivity. Qed.

Example BigNumber_from_examples :
  ethers.BigNumber_from "100" = Ok 100 /\
  ethers.BigNumber_from "-7" = Ok (-7) /\
  ethers.BigNumber_from "0.5" = Err (Error "invalid BigNumber string") /\
  ethers.BigNumber_from "NaN" = Err (Error "invalid BigNumber string").
Proof. repeat split; vm_compute; reflexivity. Qed.

(* ===================================================================== *)
(** * Further properties of the provider                                  *)
(* ===================================================================== *)

(** The answers met on a branch of an execution against those a case of a
    statement assumes. *)
Ltac answers_inv :=
  repeat match goal with
    | H : Ok _ = Ok _ |- _ => injection H as H; try subst
    | H : Err _ = Err _ |- _ => injection H as H; try subst
    | H : Some _ = Some _ |- _ => injection H as H; try subst
    | H : (_ >? 0) = true |- _ => apply gtb_true in H
    | H : (_ >? 0) = false |- _ => apply gtb_false in H
    | H : String.eqb _ _ = true |- _ => apply String.eqb_eq in H
    | H : String.eqb _ _ = false |- _ => apply String.eqb_neq in H
    end;
  try discriminate; try contradiction; try lia; try congruence.

(** ** The pollers: what is not a confirmation *)

(** X1: while the approval transaction is not confirmed,
    [waitForApproveConfirmations] returns no update and does not read the
    clock: for a transaction that is unknown (null) or has no confirmation
    the trace is the two lookups; a TxNotFoundError is passed to
    console.warn and swallowed; any other error of the lookup is rethrown
    as it is. *)
Theorem waitForApproveConfirmations_pending swap network walletId t res client r :
  exec (waitForApproveConfirmations swap network walletId) t res ->
  In (EvGetTransactionByHash client (approveTxHash swap) r) t ->
  let t0 := [EvGetClient network walletId (from swap) (fromAccountId swap) (Ok client);
             EvGetTransactionByHash client (approveTxHash swap) r] in
  (r = Ok None -> t = t0 /\ res = Ok None) /\
  (forall tx, r = Ok (Some tx) -> confirmations tx <= 0 -> t = t0 /\ res = Ok None) /\
  (forall e, r = Err e -> name e = "TxNotFoundError"%string ->
     t = t0 ++ [EvConsoleWarn e] /\ res = Ok None) /\
  (forall e, r = Err e -> name e <> "TxNotFoundError"%string ->
     t = t0 /\ res = Err e).
Proof.
  open_method waitForApproveConfirmations. unfold catch_TxNotFoundError in *.
  intros H Hin. cbn zeta.
  exec_inv; in_inv Hin; injection Hin as -> <-.
  all: repeat split; intros; answers_inv; auto.
Qed.

Lemma waitForApproveConfirmations_pending_witness :
  exec Sample.waitApprove (snd (Sample.outcome Sample.answers_not_found Sample.waitApprove))
    (fst (Sample.outcome Sample.answers_not_found Sample.waitApprove)) /\
  In (EvGetTransactionByHash 7%nat (Some "0xapp"%string) (Err Sample.TxNotFoundError))
     (snd (Sample.outcome Sample.answers_not_found Sample.waitApprove)) /\
  name Sample.TxNotFoundError = "TxNotFoundError"%string /\
  snd (Sample.outcome Sample.answers_not_found Sample.waitApprove)
  = [EvGetClient "mainnet" "wallet" "SOV" None (Ok 7%nat);
     EvGetTransactionByHash 7%nat (Some "0xapp"%string) (Err Sample.TxNotFoundError)]
    ++ [EvConsoleWarn Sample.TxNotFoundError] /\
  fst (Sample.outcome Sample.answers_not_found Sample.waitApprove) = Ok None.
Proof.
  split; [apply Sample_exec|].
  assert (Hin : In (EvGetTransactionByHash 7%nat (Some "0xapp"%string)
                      (Err Sample.TxNotFoundError))
                   (snd (Sample.outcome Sample.answers_not_found Sample.waitApprove)))
    by (vm_compute; auto).
  split; [exact Hin|]. split; [reflexivity|].
  exact (proj1 (proj2 (proj2
           (waitForApproveConfirmations_pending
              (Sample.swap100 "WAITING_FOR_APPROVE_CONFIRMATIONS") "mainnet" "wallet" _ _
              7%nat (Err Sample.TxNotFoundError)
              (Sample_exec Sample.answers_not_found Sample.waitApprove) Hin)))
           Sample.TxNotFoundError eq_refl eq_refl).
Defined.

(** X2: the chain client is obtained outside the try block of the pollers: an
    error raised by [getClient] is rethrown as it is, also when it is a
    TxNotFoundError, and no other call is made. *)
Theorem pollers_client_error (swap : Swap) network walletId e :
  let ev := EvGetClient network walletId (from swap) (fromAccountId swap) (Err e) in
  (forall t res, exec (waitForApproveConfirmations swap network walletId) t res ->
     In ev t -> t = [ev] /\ res = Err e) /\
  (forall t res, exec (waitForSwapConfirmations swap network walletId) t res ->
     In ev t -> t = [ev] /\ res = Err e).
Proof.
  cbn zeta. split; intros t res H Hin.
  - open_method waitForApproveConfirmations. unfold catch_TxNotFoundError in *.
    exec_inv; in_inv Hin; injection Hin as <-; auto.
  - open_method waitForSwapConfirmations. unfold catch_TxNotFoundError in *.
    exec_inv; in_inv Hin; injection Hin as <-; auto.
Qed.

Lemma pollers_client_error_witness :
  let h := Sample.handler_no_client Sample.TxNotFoundError Sample.answers in
  exec Sample.waitSwap (snd (fst (run h Sample.waitSwap ∅)))
    (fst (fst (run h Sample.waitSwap ∅))) /\
  In (EvGetClient "mainnet" "wallet" "SOV" None (Err Sample.TxNotFoundError))
     (snd (fst (run h Sample.waitSwap ∅))) /\
  snd (fst (run h Sample.waitSwap ∅))
  = [EvGetClient "mainnet" "wallet" "SOV" None (Err Sample.TxNotFoundError)] /\
  fst (fst (run h Sample.waitSwap ∅)) = Err Sample.TxNotFoundError.
Proof.
  intros h. split; [apply run_exec|].
  assert (Hin : In (EvGetClient "mainnet" "wallet" "SOV" None (Err Sample.TxNotFoundError))
                   (snd (fst (run h Sample.waitSwap ∅))))
    by (vm_compute; auto).
  split; [exact Hin|].
  exact (proj2 (pollers_client_error
                  (Sample.swap100 "WAITING_FOR_SWAP_CONFIRMATIONS") "mainnet" "wallet"
                  Sample.TxNotFoundError)
           _ _ (run_exec h Sample.waitSwap ∅) Hin).
Defined.

(** X3: the failures of [waitForSwapConfirmations].  An error of the lookup of
    the transaction or of its receipt is swallowed, after console.warn, when
    it is a TxNotFoundError, and rethrown as it is otherwise.  A confirmed
    transaction whose receipt is missing (null) raises a TypeError.  Unless
    an update is returned, the balances are not refreshed and the clock is
    not read. *)
Theorem waitForSwapConfirmations_errors swap network walletId t res :
  exec (waitForSwapConfirmations swap network walletId) t res ->
  (forall client e,
     In (EvGetTransactionByHash client (swapTxHash swap) (Err e)) t \/
     In (EvGetTransactionReceipt client (swapTxHash swap) (Err e)) t ->
     (name e = "TxNotFoundError"%string -> res = Ok None /\ In (EvConsoleWarn e) t) /\
     (name e <> "TxNotFoundError"%string -> res = Err e)) /\
  (forall client,
     In (EvGetTransactionReceipt client (swapTxHash swap) (Ok None)) t ->
     exists e, res = Err e /\ name e = "TypeError"%string) /\
  ((forall u, res <> Ok (Some u)) ->
   forall ev, In ev t ->
     match ev with EvUpdateBalances _ _ _ | EvDateNow _ => False | _ => True end).
Proof.
  open_method waitForSwapConfirmations. unfold catch_TxNotFoundError in *.
  intros H. split; [|split].
  - intros client e [Hin|Hin].
    + exec_inv; in_inv Hin; injection Hin as <- <-;
        split; intros; answers_inv; simpl; auto 10.
    + exec_inv; in_inv Hin; injection Hin as <- <-;
        split; intros; answers_inv; simpl; auto 10.
  - intros client Hin.
    exec_inv; in_inv Hin; try (injection Hin as <-); answers_inv; eauto.
  - intros Hno ev Hin.
    exec_inv; in_inv Hin; subst; try exact I.
    all: exfalso; eapply Hno; reflexivity.
Qed.

Lemma waitForSwapConfirmations_errors_witness :
  exec Sample.waitSwap (snd (Sample.outcome Sample.answers_no_receipt Sample.waitSwap))
    (fst (Sample.outcome Sample.answers_no_receipt Sample.waitSwap)) /\
  In (EvGetTransactionReceipt 7%nat (Some "0xabc"%string) (Ok None))
     (snd (Sample.outcome Sample.answers_no_receipt Sample.waitSwap)) /\
  exists e, fst (Sample.outcome Sample.answers_no_receipt Sample.waitSwap) = Err e /\
            name e = "TypeError"%string.
Proof.
  split; [apply Sample_exec|].
  assert (Hin : In (EvGetTransactionReceipt 7%nat (Some "0xabc"%string) (Ok None))
                   (snd (Sample.outcome Sample.answers_no_receipt Sample.waitSwap)))
    by (vm_compute; auto).
  split; [exact Hin|].
  exact (proj1 (proj2 (waitForSwapConfirmations_errors
                  (Sample.swap100 "WAITING_FOR_SWAP_CONFIRMATIONS") "mainnet" "wallet" _ _
                  (Sample_exec Sample.answers_no_receipt Sample.waitSwap)))
           7%nat Hin).
Defined.

(** ** The amount passed to the contracts *)

Lemma canonical_negated x : BN.canonical x -> BN.canonical (BN.negated x).
Proof.
  destruct x as [c e| |]; cbn; auto. intros [[-> ->]|H]; [left; auto|right].
  intros E. apply H. apply Z.mod_divide in E; [|lia]. apply Z.mod_divide; [lia|].
  exact (proj1 (Z.divide_opp_r 10 c) E).
Qed.

Lemma canonical_parse_unsigned l : BN.canonical (BN.parse_unsigned l).
Proof.
  unfold BN.parse_unsigned.
  destruct (decide (l = list_ascii_of_string "NaN")); [exact I|].
  destruct (decide (l = list_ascii_of_string "Infinity")); [exact I|].
  destruct (JsString.split_on JsString.is_e l) as [m ex].
  destruct (BN.parse_mantissa m) as [[v s]|]; [|exact I].
  destruct (match ex with Some x => BN.parse_exponent x | None => Some 0 end);
    [apply BNFacts.mk_canonical|exact I].
Qed.

Lemma canonical_of_string s : BN.canonical (BN.of_string s).
Proof.
  with_strategy transparent [BN.of_string] (unfold BN.of_string).
  destruct (list_ascii_of_string s) as [|c r]; [exact I|].
  destruct (Ascii.eqb c "-");
    [apply canonical_negated|]; apply canonical_parse_unsigned.
Qed.

Lemma canonical_BN_ v : BN.canonical (BN_ v).
Proof. destruct v; [apply canonical_of_string|apply BNArith.canonical_of_BN]. Qed.

(** The plain notation of an integer is its decimal string. *)
Lemma toFixed_of_Z v : BN.toFixed (BN.of_Z v) = JsString.of_Z v.
Proof.
  destruct (BNArith.of_Z_spec v) as (c & k & -> & Hk & ->).
  with_strategy transparent [BN.toFixed JsString.of_Z]
    (unfold BN.toFixed, JsString.of_Z).
  f_equal. cbn [BN.toFixed_chars]. unfold BN.sign_chars, BN.fixed_body.
  destruct (Z.leb_spec 0 k) as [_|]; [|lia].
  assert (Hp : 0 < 10 ^ k) by (apply Z.pow_pos_nonneg; lia).
  rewrite Z.abs_mul, (Z.abs_eq (10 ^ k)) by lia.
  replace (c * 10 ^ k <? 0) with (c <? 0); [reflexivity|].
  destruct (Z.ltb_spec c 0), (Z.ltb_spec (c * 10 ^ k) 0); try reflexivity; nia.
Qed.

Lemma BigNumber_from_of_Z v : ethers.BigNumber_from (JsString.of_Z v) = Ok v.
Proof.
  with_strategy transparent [JsString.of_Z] (unfold JsString.of_Z).
  unfold ethers.BigNumber_from. rewrite list_ascii_of_string_of_list_ascii.
  pose proof (JsStringFacts.digits_is_digit (Z.abs v)) as Hd.
  pose proof (JsStringFacts.digits_nonempty (Z.abs v)) as Hne.
  pose proof (JsStringFacts.parse_digits_digits (Z.abs v) (Z.abs_nonneg v)) as Hp.
  destruct (Z.ltb_spec v 0) as [Hv|Hv]; cbn [app].
  - cbn [Ascii.eqb Bool.eqb]. destruct (JsString.digits (Z.abs v)); [contradiction|].
    rewrite Hp. f_equal. lia.
  - destruct (JsString.digits (Z.abs v)) as [|d r]; [contradiction|].
    assert (Hd0 : JsString.is_digit d) by now inversion Hd.
    destruct (JsStringFacts.is_digit_not_special d Hd0) as (_ & _ & -> & _).
    rewrite Hp. f_equal. lia.
Qed.

(** A canonical integer is the BigNumber of its value. *)
Lemma integer_of_Z x :
  BN.canonical x -> BN.is_integer x = true -> exists v, x = BN.of_Z v.
Proof.
  destruct x as [c e| |]; try discriminate. intros Hc Hi.
  assert (He : 0 <= e).
  { cbn [BN.is_integer] in Hi. apply orb_true_iff in Hi.
    destruct Hi as [Hi|Hi]; [now apply Z.leb_le|].
    apply Z.eqb_eq in Hi. subst c. destruct Hc as [[_ ->]|Hc]; [lia|].
    exfalso. apply Hc. reflexivity. }
  exists (c * 10 ^ e). symmetry.
  with_strategy transparent [BN.of_Z] (unfold BN.of_Z).
  apply BNFacts.mk_eq; [exact Hc|].
  rewrite BNFacts.value_shift by exact He. now rewrite Z.add_0_l.
Qed.

(** The plain notation of anything but an integer is not accepted. *)
Lemma BigNumber_from_not_integer x :
  BN.is_integer x = false -> exists e, ethers.BigNumber_from (BN.toFixed x) = Err e.
Proof.
  intros Hi. with_strategy transparent [BN.toFixed] (unfold BN.toFixed).
  unfold ethers.BigNumber_from. rewrite list_ascii_of_string_of_list_ascii.
  destruct x as [c e|[]|]; try (vm_compute; eauto; fail).
  cbn [BN.is_integer] in Hi. apply orb_false_iff in Hi. destruct Hi as [He Hc].
  apply Z.leb_gt in He. cbn [BN.toFixed_chars]. unfold BN.fixed_body.
  destruct (Z.leb_spec 0 e) as [|_]; [lia|].
  remember (JsString.digits (Z.abs c / 10 ^ (- e))) as ip eqn:Eip.
  remember (JsString.digits_fixed (Z.to_nat (- e)) (Z.abs c mod 10 ^ (- e))) as fp eqn:Efp.
  assert (Hd : Forall JsString.is_digit ip)
    by (subst ip; apply JsStringFacts.digits_is_digit).
  assert (Hne : ip <> []) by (subst ip; apply JsStringFacts.digits_nonempty).
  assert (Hfail : forall acc, JsString.parse_digits_acc acc (ip ++ "."%char :: fp) = None).
  { intros acc. rewrite JsStringFacts.parse_digits_acc_app.
    destruct (JsString.parse_digits_acc acc ip); reflexivity. }
  clear Eip Efp. unfold BN.sign_chars. destruct (c <? 0); cbn [app].
  - cbn [Ascii.eqb Bool.eqb]. unfold JsString.parse_digits. rewrite Hfail.
    destruct (ip ++ "."%char :: fp); eauto.
  - destruct ip as [|d r]; [contradiction|]. cbn [app] in *.
    assert (Hd0 : JsString.is_digit d) by now inversion Hd.
    destruct (JsStringFacts.is_digit_not_special d Hd0) as (_ & _ & -> & _).
    unfold JsString.parse_digits. rewrite Hfail. eauto.
Qed.

Lemma BigNumber_from_toFixed x v :
  BN.canonical x ->
  ethers.BigNumber_from (BN.toFixed x) = Ok v <-> x = BN.of_Z v.
Proof.
  intros Hc. split.
  - intros H. destruct (BN.is_integer x) eqn:Hi.
    + destruct (integer_of_Z x Hc Hi) as (v' & ->).
      rewrite toFixed_of_Z, BigNumber_from_of_Z in H. congruence.
    + destruct (BigNumber_from_not_integer x Hi) as (e & He). congruence.
  - intros ->. now rewrite toFixed_of_Z, BigNumber_from_of_Z.
Qed.

(** X4: the amount handed to the contracts is
    [ethers.BigNumber.from(BN(quote.fromAmount).toFixed())]: it is the
    integer [v] exactly when fromAmount is the integer [v], and the
    conversion raises for any other amount: a fraction, NaN or an
    infinity. *)
Theorem inputAmount_of_spec (quote : Quote) t res :
  exec (inputAmount_of quote) t res ->
  t = [] /\
  (forall v, res = Ok v <-> BN_ (fromAmount quote) = BN.of_Z v) /\
  (BN.is_integer (BN_ (fromAmount quote)) = false -> exists e, res = Err e).
Proof.
  open_method inputAmount_of. unfold lift. intros H.
  destruct (ethers.BigNumber_from (BN.toFixed (BN_ (fromAmount quote)))) as [v0|e0] eqn:E;
    cbn in H; destruct H as [-> ->]; (split; [reflexivity|]); split.
  - intros v. rewrite <- BigNumber_from_toFixed by apply canonical_BN_.
    rewrite E. split; congruence.
  - intros Hi. destruct (BigNumber_from_not_integer _ Hi) as (e & He). congruence.
  - intros v. rewrite <- BigNumber_from_toFixed by apply canonical_BN_.
    rewrite E. split; congruence.
  - eauto.
Qed.

Lemma inputAmount_of_spec_witness :
  exec (inputAmount_of Sample.quote100)
    (snd (Sample.outcome Sample.answers (inputAmount_of Sample.quote100)))
    (fst (Sample.outcome Sample.answers (inputAmount_of Sample.quote100))) /\
  BN_ (fromAmount Sample.quote100) = BN.of_Z 100 /\
  fst (Sample.outcome Sample.answers (inputAmount_of Sample.quote100)) = Ok 100.
Proof.
  split; [apply Sample_exec|].
  assert (H : BN_ (fromAmount Sample.quote100) = BN.of_Z 100) by (vm_compute; reflexivity).
  split; [exact H|].
  exact (proj2 (proj1 (proj2 (inputAmount_of_spec Sample.quote100 _ _
                  (Sample_exec Sample.answers (inputAmount_of Sample.quote100)))) 100) H).
Defined.

(** ** Submissions *)

Lemma dispatches_app t1 t2 : dispatches (t1 ++ t2) = dispatches t1 ++ dispatches t2.
Proof. apply List.filter_app. Qed.

Lemma dispatches_none t :
  (forall ev, In ev t -> is_dispatch ev = false) -> dispatches t = [].
Proof.
  induction t as [|ev t IH]; intros H; [reflexivity|]. unfold dispatches in *. cbn.
  rewrite (H ev) by now left. apply IH. intros ev' Hin. apply H. now right.
Qed.

Lemma api_event_no_dispatch t :
  (forall ev, In ev t -> is_api_event ev = true) ->
  forall ev, In ev t -> is_dispatch ev = false.
Proof. intros H ev Hin. apply H in Hin. destruct ev; try discriminate; reflexivity. Qed.

(** What [buildSwapTx] makes is calls of [_getApi] only. *)
Lemma buildSwapTx_events this network walletId (quote : Quote) t res :
  exec (buildSwapTx this network walletId quote) t res ->
  forall ev, In ev t -> is_api_event ev = true.
Proof.
  open_method buildSwapTx. open_method inputAmount_of. intros H ev Hin.
  exec_inv; rewrite ?app_nil_r in Hin;
    try (eapply _getApi_events; eassumption); in_inv Hin.
Qed.

Lemma buildSwapTx_returns this network walletId (quote : Quote) t tx :
  exec (buildSwapTx this network walletId quote) t (Ok tx) ->
  exists v data,
    BN_ (fromAmount quote) = BN.of_Z v /\
    encodeFunctionData this "contribute" [ethers.ArgUint v] = Ok data /\
    tx = {| TxData.from := fromAccountId quote;
            TxData.to := Some (controllerAddress (config this));
            TxData.value := if isERC20 this (from quote) then ValueNumber 0
                            else ValueBN (BN.of_Z v);
            TxData.data := data;
            TxData.fee := fee quote |}.
Proof.
  open_method buildSwapTx. open_method inputAmount_of. intros H.
  exec_inv; try discriminate.
  match goal with H : Ok _ = Ok _ |- _ => injection H as -> end.
  match goal with
  | H : ethers.BigNumber_from _ = Ok ?v |- _ =>
      apply BigNumber_from_toFixed in H; [|apply canonical_BN_]; exists v
  end.
  eexists. split; [eassumption|]. split; [eassumption|].
  match goal with H : BN_ _ = _ |- _ => rewrite H end. reflexivity.
Qed.

Lemma buildSwapTx_not_integer this network walletId (quote : Quote) t res :
  BN.is_integer (BN_ (fromAmount quote)) = false ->
  exec (buildSwapTx this network walletId quote) t res -> exists e, res = Err e.
Proof.
  intros Hi H. destruct res as [tx|e]; [|eauto].
  apply buildSwapTx_returns in H. destruct H as (v & data & Hv & _).
  rewrite Hv in Hi. destruct (BigNumber_from_not_integer _ Hi) as (e & He).
  rewrite toFixed_of_Z, BigNumber_from_of_Z in He. discriminate.
Qed.

Lemma sendSwap_dispatches this network walletId (quote : Quote) t res :
  exec (sendSwap this network walletId quote) t res ->
  (length (dispatches t) <= 1)%nat.
Proof.
  intros H. open_method sendSwap. apply exec_bind in H.
  destruct H as [(e & H & ->)|(txData & t1 & t2 & H1 & H2 & ->)].
  - rewrite dispatches_none; [simpl; lia|].
    apply api_event_no_dispatch. eapply buildSwapTx_events, H.
  - rewrite dispatches_app, (dispatches_none t1);
      [|apply api_event_no_dispatch; eapply buildSwapTx_events, H1].
    exec_inv; simpl; lia.
Qed.

(** X5: [sendSwap] submits at most one transaction.  When it returns, the
    amount of the quote is an integer [v] and the transaction submitted,
    the last call, goes to the controller address with the call data of
    contribute(v); its value is 0 for an ERC20 source asset and the amount
    otherwise.  The update carries the answer of the chain client and its
    hash. *)
Theorem sendSwap_spec this network walletId (quote : Quote) t res :
  exec (sendSwap this network walletId quote) t res ->
  (length (dispatches t) <= 1)%nat /\
  (forall u, res = Ok u ->
     exists t0 v data client swapTx,
       BN_ (fromAmount quote) = BN.of_Z v /\
       encodeFunctionData this "contribute" [ethers.ArgUint v] = Ok data /\
       dispatches t0 = [] /\
       t = t0 ++ [EvGetClient network walletId (from quote) (fromAccountId quote) (Ok client);
                  EvSendTransaction client
                    {| TxData.from := fromAccountId quote;
                       TxData.to := Some (controllerAddress (config this));
                       TxData.value := if isERC20 this (from quote) then ValueNumber 0
                                       else ValueBN (BN.of_Z v);
                       TxData.data := data;
                       TxData.fee := fee quote |}
                    (Ok swapTx)] /\
       u = {| Updates.status := "WAITING_FOR_SWAP_CONFIRMATIONS";
              Updates.endTime := None;
              Updates.approveTx := None; Updates.approveTxHash := None;
              Updates.swapTx := Some swapTx;
              Updates.swapTxHash := Some (hash swapTx) |}).
Proof.
  intros H. split; [eapply sendSwap_dispatches, H|].
  intros u ->. apply sendSwap_returns in H.
  destruct H as (t1 & txData & client & swapTx & H1 & -> & ->).
  pose proof (buildSwapTx_events _ _ _ _ _ _ H1) as Hev.
  apply buildSwapTx_returns in H1. destruct H1 as (v & data & Hv & Hd & ->).
  exists t1, v, data, client, swapTx. repeat split; auto.
  apply dispatches_none, api_event_no_dispatch, Hev.
Qed.

Lemma sendSwap_spec_witness :
  exec Sample.submit_native
    (snd (Sample.outcome Sample.answers Sample.submit_native))
    (fst (Sample.outcome Sample.answers Sample.submit_native)) /\
  (length (dispatches (snd (Sample.outcome Sample.answers Sample.submit_native))) <= 1)%nat.
Proof.
  split; [apply Sample_exec|].
  exact (proj1 (sendSwap_spec Sample.provider "mainnet" "wallet" Sample.quote_native _ _
                  (Sample_exec Sample.answers Sample.submit_native))).
Defined.

(** No event of a trace made of the traces of [_getApi] and of explicit
    events, none a submission, is a submission. *)
Ltac no_dispatch_tac Hin :=
  simpl in Hin;
  repeat first
    [ contradiction
    | destruct Hin as [<-|Hin]; [reflexivity|]
    | apply in_app_or in Hin; destruct Hin as [Hin|Hin]
    | eapply _getApi_no_dispatch; eassumption ].

(** What [buildApprovalTx] makes is a lookup of the addresses and calls of
    [_getApi]. *)
Lemma buildApprovalTx_no_dispatch this network walletId (quote : Quote) t res :
  exec (buildApprovalTx this network walletId quote) t res ->
  forall ev, In ev t -> is_dispatch ev = false.
Proof.
  open_method buildApprovalTx. open_method inputAmount_of. intros H ev Hin.
  exec_inv; no_dispatch_tac Hin.
Qed.

Lemma buildApprovalTx_returns this network walletId (quote : Quote) t tx :
  exec (buildApprovalTx this network walletId quote) t (Ok tx) ->
  exists info owner v data,
    cryptoassets this !! from quote = Some info /\
    BN_ (fromAmount quote) = BN.of_Z v /\
    encodeFunctionData this "approve"
      [ethers.ArgAddress (JsString.toLowerCase (presaleAddress (config this)));
       ethers.ArgUint v] = Ok data /\
    tx = {| TxData.from := Some owner;
            TxData.to := contractAddress info;
            TxData.value := ValueNumber 0;
            TxData.data := data;
            TxData.fee := fee quote |}.
Proof.
  open_method buildApprovalTx. open_method inputAmount_of. intros H.
  exec_inv; try discriminate.
  match goal with H : Ok _ = Ok _ |- _ => injection H as -> end.
  match goal with
  | H : ethers.BigNumber_from _ = Ok ?v |- _ =>
      apply BigNumber_from_toFixed in H; [|apply canonical_BN_]
  end.
  unfold ethers.new_Contract in *.
  match goal with
  | H : match ?x with Some _ => _ | None => _ end = Ok _ |- _ =>
      destruct x eqn:?; [|discriminate]
  end.
  eexists _, _, _, _. repeat split; eauto.
Qed.

(** The transaction [buildApprovalTx] builds, with the calls it makes: the
    sender is the first of the addresses the wallet answers. *)
Lemma buildApprovalTx_built this network walletId (quote : Quote) t tx :
  exec (buildApprovalTx this network walletId quote) t (Ok tx) ->
  exists addresses ta info owner v data,
    t = EvGetUnusedAddresses network walletId [from quote] (toAccountId quote)
          (Ok addresses) :: ta /\
    (forall ev, In ev ta -> is_api_event ev = true) /\
    head addresses = Some owner /\
    cryptoassets this !! from quote = Some info /\
    BN_ (fromAmount quote) = BN.of_Z v /\
    encodeFunctionData this "approve"
      [ethers.ArgAddress (JsString.toLowerCase (presaleAddress (config this)));
       ethers.ArgUint v] = Ok data /\
    tx = {| TxData.from := Some owner;
            TxData.to := contractAddress info;
            TxData.value := ValueNumber 0;
            TxData.data := data;
            TxData.fee := fee quote |}.
Proof.
  open_method buildApprovalTx. open_method inputAmount_of. intros H.
  exec_inv; try discriminate.
  match goal with H : Ok _ = Ok _ |- _ => injection H as -> end.
  match goal with
  | H : ethers.BigNumber_from _ = Ok ?v |- _ =>
      apply BigNumber_from_toFixed in H; [|apply canonical_BN_]
  end.
  unfold ethers.new_Contract in *.
  match goal with
  | H : match ?x with Some _ => _ | None => _ end = Ok _ |- _ =>
      destruct x eqn:?; [|discriminate]
  end.
  eexists _, _, _, _, _, _. split; [reflexivity|].
  split.
  - intros ev Hin. rewrite ?app_nil_r in Hin.
    eapply _getApi_events; eassumption.
  - repeat split; eauto.
Qed.

(** What [requiresApproval] has seen when it answers that an approval is
    required. *)
Lemma requiresApproval_true this network walletId (quote : Quote) t :
  exec (requiresApproval this network walletId quote) t (Ok true) ->
  exists c owner allowance v,
    BN_ (fromAmount quote) = BN.of_Z v /\
    In (EvAllowance c (JsString.toLowerCase owner)
          (JsString.toLowerCase (presaleAddress (config this))) (Ok allowance)) t /\
    allowance < v.
Proof.
  open_method requiresApproval. open_method inputAmount_of. intros H.
  exec_inv; try discriminate.
  match goal with
  | H : ethers.BigNumber_from _ = Ok ?v |- _ =>
      apply BigNumber_from_toFixed in H; [|apply canonical_BN_]
  end.
  match goal with H : (_ >=? _) = false |- _ => apply geb_false in H end.
  eexists _, _, _, _. split; [eassumption|]. split; [|eassumption].
  apply in_or_app. right. simpl. eauto.
Qed.

Lemma requiresApproval_not_integer this network walletId (quote : Quote) t res :
  isERC20 this (from quote) = true ->
  BN.is_integer (BN_ (fromAmount quote)) = false ->
  exec (requiresApproval this network walletId quote) t res -> exists e, res = Err e.
Proof.
  intros Herc Hi H. destruct (BigNumber_from_not_integer _ Hi) as (e0 & He0).
  open_method requiresApproval. open_method inputAmount_of. rewrite Herc in H.
  exec_inv; eauto; congruence.
Qed.

(** What [approveTokens] returns and submits. *)
Lemma approveTokens_returns this network walletId (quote : Quote) t u :
  exec (approveTokens this network walletId quote) t (Ok u) ->
  (u = Updates.of_status "APPROVE_CONFIRMED" /\ dispatches t = []) \/
  (exists t1 t3 txData client approveTx,
     exec (requiresApproval this network walletId quote) t1 (Ok true) /\
     exec (buildApprovalTx this network walletId quote) t3 (Ok txData) /\
     t = t1 ++ t3 ++ [EvGetClient network walletId (from quote) (fromAccountId quote) (Ok client);
                      EvSendTransaction client txData (Ok approveTx)] /\
     u = {| Updates.status := "WAITING_FOR_APPROVE_CONFIRMATIONS";
            Updates.endTime := None;
            Updates.approveTx := Some approveTx;
            Updates.approveTxHash := Some (hash approveTx);
            Updates.swapTx := None;
            Updates.swapTxHash := None |}).
Proof.
  open_method approveTokens. rewrite exec_bind.
  intros [(e & _ & [=])|(b & t1 & t2 & H1 & H2 & ->)].
  destruct b; simpl in H2.
  - right. exec_inv; try discriminate.
    match goal with H : Ok _ = Ok _ |- _ => injection H as -> end.
    eexists _, _, _, _, _. split; [eassumption|]. split; [eassumption|].
    split; reflexivity.
  - left. destruct H2 as [-> [= ->]]. rewrite app_nil_r. split; [reflexivity|].
    apply dispatches_none. eapply requiresApproval_no_dispatch, H1.
Qed.

Lemma approveTokens_dispatches this network walletId (quote : Quote) t res :
  exec (approveTokens this network walletId quote) t res ->
  (length (dispatches t) <= 1)%nat.
Proof.
  open_method approveTokens. rewrite exec_bind.
  intros [(e & H & ->)|(b & t1 & t2 & H1 & H2 & ->)].
  - rewrite dispatches_none; [simpl; lia|]. eapply requiresApproval_no_dispatch, H.
  - rewrite dispatches_app, (dispatches_none t1)
      by (eapply requiresApproval_no_dispatch, H1).
    destruct b; simpl in H2; [|destruct H2 as [-> _]; simpl; lia].
    apply exec_bind in H2.
    destruct H2 as [(e & H & ->)|(txData & t3 & t4 & H3 & H4 & ->)].
    + rewrite dispatches_none; [simpl; lia|]. eapply buildApprovalTx_no_dispatch, H.
    + rewrite dispatches_app, (dispatches_none t3)
        by (eapply buildApprovalTx_no_dispatch, H3).
      exec_inv; simpl; lia.
Qed.

(** X6: when [approveTokens] submits an approval, the allowance it has read
    for the presale address is smaller than the amount [v] of the quote,
    and the one transaction it submits approves exactly [v] for that same
    address: it goes to the contract of the source token, carries no
    value, and its data is the call approve(spender, v). *)
Theorem approveTokens_submits this network walletId (quote : Quote) t u :
  exec (approveTokens this network walletId quote) t (Ok u) ->
  Updates.status u = "WAITING_FOR_APPROVE_CONFIRMATIONS"%string ->
  let spender := JsString.toLowerCase (presaleAddress (config this)) in
  exists info c owner allowance v data sender client approveTx,
    cryptoassets this !! from quote = Some info /\
    BN_ (fromAmount quote) = BN.of_Z v /\
    In (EvAllowance c (JsString.toLowerCase owner) spender (Ok allowance)) t /\
    allowance < v /\
    encodeFunctionData this "approve"
      [ethers.ArgAddress spender; ethers.ArgUint v] = Ok data /\
    dispatches t =
      [EvSendTransaction client
         {| TxData.from := Some sender;
            TxData.to := contractAddress info;
            TxData.value := ValueNumber 0;
            TxData.data := data;
            TxData.fee := fee quote |}
         (Ok approveTx)] /\
    Updates.approveTxHash u = Some (hash approveTx).
Proof.
  intros H Hs. cbn zeta. apply approveTokens_returns in H.
  destruct H as [[-> _]|(t1 & t3 & txData & client & approveTx & H1 & H3 & -> & ->)];
    [discriminate|].
  pose proof (requiresApproval_no_dispatch _ _ _ _ _ _ H1) as Hn1.
  pose proof (buildApprovalTx_no_dispatch _ _ _ _ _ _ H3) as Hn3.
  apply requiresApproval_true in H1.
  destruct H1 as (c & owner & allowance & v & Hv & Hin & Hlt).
  apply buildApprovalTx_returns in H3.
  destruct H3 as (info & sender & v' & data & Hinfo & Hv' & Hdata & ->).
  assert (v' = v) as ->.
  { rewrite Hv in Hv'. apply (f_equal BN.toFixed) in Hv'.
    rewrite !toFixed_of_Z in Hv'. apply (f_equal ethers.BigNumber_from) in Hv'.
    rewrite !BigNumber_from_of_Z in Hv'. congruence. }
  exists info, c, owner, allowance, v, data, sender, client, approveTx.
  repeat split; auto.
  - apply in_or_app. now left.
  - rewrite !dispatches_app, (dispatches_none t1), (dispatches_none t3) by assumption.
    reflexivity.
Qed.

Lemma approveTokens_submits_witness :
  exec Sample.approve (snd (Sample.outcome Sample.answers Sample.approve))
    (Ok {| Updates.status := "WAITING_FOR_APPROVE_CONFIRMATIONS";
           Updates.endTime := None;
           Updates.approveTx := Some {| hash := "0xabc" |};
           Updates.approveTxHash := Some "0xabc"%string;
           Updates.swapTx := None; Updates.swapTxHash := None |}) /\
  exists v, BN_ (fromAmount Sample.quote100) = BN.of_Z v /\
    exists c owner allowance,
      In (EvAllowance c owner
            (JsString.toLowerCase (presaleAddress (config Sample.provider)))
            (Ok allowance))
         (snd (Sample.outcome Sample.answers Sample.approve)) /\
      allowance < v.
Proof.
  assert (H : exec Sample.approve (snd (Sample.outcome Sample.answers Sample.approve))
                (Ok {| Updates.status := "WAITING_FOR_APPROVE_CONFIRMATIONS";
                       Updates.endTime := None;
                       Updates.approveTx := Some {| hash := "0xabc" |};
                       Updates.approveTxHash := Some "0xabc"%string;
                       Updates.swapTx := None; Updates.swapTxHash := None |}))
    by exact (Sample_exec Sample.answers Sample.approve).
  split; [exact H|].
  destruct (approveTokens_submits Sample.provider "mainnet" "wallet" Sample.quote100 _ _
              H eq_refl)
    as (info & c & owner & allowance & v & data & sender & client & approveTx
        & _ & Hv & Hin & Hlt & _).
  exists v. split; [exact Hv|]. exists c, (JsString.toLowerCase owner), allowance.
  split; [exact Hin|exact Hlt].
Defined.

(** X7: a quote whose amount is not an integer number of base units, for
    instance the 0.1 that [getQuote] returns for a tenth of a base unit, is
    never submitted: [sendSwap] and [newSwap] raise and no transaction has
    been sent. *)
Theorem fractional_amount_not_submitted this network walletId (quote : Quote) :
  BN.is_integer (BN_ (fromAmount quote)) = false ->
  (forall t res, exec (sendSwap this network walletId quote) t res ->
     (exists e, res = Err e) /\ dispatches t = []) /\
  (forall t res, exec (newSwap this network walletId quote) t res ->
     (exists e, res = Err e) /\ dispatches t = []).
Proof.
  intros Hi.
  assert (Hsend : forall t res, exec (sendSwap this network walletId quote) t res ->
                    (exists e, res = Err e) /\ dispatches t = []).
  { intros t res H. open_method sendSwap. apply exec_bind in H.
    destruct H as [(e & H & ->)|(txData & t1 & t2 & H1 & _)].
    - split; [eauto|]. apply dispatches_none, api_event_no_dispatch.
      eapply buildSwapTx_events, H.
    - destruct (buildSwapTx_not_integer _ _ _ _ _ _ Hi H1) as (e & [=]). }
  split; [exact Hsend|].
  intros t res H. open_method newSwap. apply exec_bind in H.
  destruct H as [(e & H & ->)|(u & t1 & t2 & H1 & _)].
  - split; [eauto|]. destruct (isERC20 this (from quote)) eqn:Herc.
    + open_method approveTokens. apply exec_bind in H.
      destruct H as [(e' & H & _)|(b & t1 & t2 & H1 & _)].
      * apply dispatches_none. eapply requiresApproval_no_dispatch, H.
      * destruct (requiresApproval_not_integer _ _ _ _ _ _ Herc Hi H1) as (e' & [=]).
    + now apply Hsend in H.
  - exfalso. destruct (isERC20 this (from quote)) eqn:Herc.
    + open_method approveTokens. apply exec_bind in H1.
      destruct H1 as [(e' & _ & [=])|(b & t3 & t4 & H1 & _)].
      destruct (requiresApproval_not_integer _ _ _ _ _ _ Herc Hi H1) as (e' & [=]).
    + apply Hsend in H1. destruct H1 as [(e & [=]) _].
Qed.

Lemma fractional_amount_not_submitted_witness :
  BN.is_integer (BN_ (fromAmount Sample.quote_fraction)) = false /\
  exec (Sample.start Sample.quote_fraction)
    (snd (Sample.outcome Sample.answers (Sample.start Sample.quote_fraction)))
    (fst (Sample.outcome Sample.answers (Sample.start Sample.quote_fraction))) /\
  (exists e, fst (Sample.outcome Sample.answers (Sample.start Sample.quote_fraction)) = Err e) /\
  dispatches (snd (Sample.outcome Sample.answers (Sample.start Sample.quote_fraction))) = [].
Proof.
  assert (Hi : BN.is_integer (BN_ (fromAmount Sample.quote_fraction)) = false)
    by (vm_compute; reflexivity).
  split; [exact Hi|]. split; [apply Sample_exec|].
  exact (proj2 (fractional_amount_not_submitted Sample.provider "mainnet" "wallet"
                  Sample.quote_fraction Hi)
           _ _ (Sample_exec Sample.answers (Sample.start Sample.quote_fraction))).
Defined.

(** X8: [newSwap] runs the approval leg for an ERC20 source asset and submits
    the swap directly otherwise; in all it submits at most one transaction.
    When the leg raises, [newSwap] raises the same error and stops there.
    Otherwise it draws an id, last, and returns a swap with the slippage 50
    and the fee of the quote, whose status is one the state machine goes on
    from: APPROVE_CONFIRMED or WAITING_FOR_APPROVE_CONFIRMATIONS for an
    ERC20, WAITING_FOR_SWAP_CONFIRMATIONS otherwise. *)
Theorem newSwap_spec this network walletId (quote : Quote) t res :
  exec (newSwap this network walletId quote) t res ->
  let leg := if isERC20 this (from quote)
             then approveTokens this network walletId quote
             else sendSwap this network walletId quote in
  (length (dispatches t) <= 1)%nat /\
  (forall e, res = Err e -> exec leg t (Err e)) /\
  (forall s, res = Ok s ->
     slippage s = 50 /\ newSwap_fee s = fee quote /\
     (exists t0, t = t0 ++ [EvUuidv4 (id s)] /\ exec leg t0 (Ok (updates s))) /\
     (isERC20 this (from quote) = true ->
        (Updates.status (updates s) = "APPROVE_CONFIRMED"%string \/
         Updates.status (updates s) = "WAITING_FOR_APPROVE_CONFIRMATIONS"%string) /\
        Updates.swapTx (updates s) = None) /\
     (isERC20 this (from quote) = false ->
        Updates.status (updates s) = "WAITING_FOR_SWAP_CONFIRMATIONS"%string) /\
     exists i, path_index (Updates.status (updates s)) = Some i /\ (i < 3)%nat).
Proof.
  intros H. cbn zeta.
  assert (Hleg : forall t0 r,
            exec (if isERC20 this (from quote)
                  then approveTokens this network walletId quote
                  else sendSwap this network walletId quote) t0 r ->
            (length (dispatches t0) <= 1)%nat).
  { intros t0 r H0. destruct (isERC20 this (from quote)).
    - eapply approveTokens_dispatches, H0.
    - eapply sendSwap_dispatches, H0. }
  open_method newSwap. apply exec_bind in H.
  destruct H as [(e & H & ->)|(u & t1 & t2 & H1 & H2 & ->)].
  - split; [eapply Hleg, H|]. split; [intros e' [= <-]; exact H|discriminate].
  - cbn in H2. destruct H2 as (r & t' & -> & -> & ->).
    split; [rewrite dispatches_app; cbn; rewrite app_nil_r; eapply Hleg, H1|].
    split; [discriminate|]. intros s [= <-]. cbn.
    split; [reflexivity|]. split; [reflexivity|]. split; [eauto|].
    destruct (isERC20 this (from quote)).
    + apply approveTokens_returns in H1.
      destruct H1 as [[-> _]|(? & ? & ? & ? & ? & _ & _ & _ & ->)]; cbn.
      * split; [auto|]. split; [discriminate|]. exists 1%nat. split; [reflexivity|lia].
      * split; [auto|]. split; [discriminate|]. exists 0%nat. split; [reflexivity|lia].
    + apply sendSwap_returns in H1.
      destruct H1 as (? & ? & ? & ? & _ & _ & ->); cbn.
      split; [discriminate|]. split; [auto|]. exists 2%nat. split; [reflexivity|lia].
Qed.

Lemma newSwap_spec_witness :
  exec (Sample.start Sample.quote_native)
    (snd (Sample.outcome Sample.answers (Sample.start Sample.quote_native)))
    (fst (Sample.outcome Sample.answers (Sample.start Sample.quote_native))) /\
  (length (dispatches
             (snd (Sample.outcome Sample.answers (Sample.start Sample.quote_native)))) <= 1)%nat.
Proof.
  split; [apply Sample_exec|].
  exact (proj1 (newSwap_spec Sample.provider "mainnet" "wallet" Sample.quote_native _ _
                  (Sample_exec Sample.answers (Sample.start Sample.quote_native)))).
Defined.

(** ** The cache of RPC providers *)

Lemma apiCache_after_app cache t1 t2 :
  apiCache_after cache (t1 ++ t2) = apiCache_after (apiCache_after cache t1) t2.
Proof. apply foldl_app. Qed.

Lemma apiCache_coherent_app cache t1 t2 :
  apiCache_coherent cache (t1 ++ t2) <->
  apiCache_coherent cache t1 /\ apiCache_coherent (apiCache_after cache t1) t2.
Proof.
  revert cache. induction t1 as [|ev t1 IH]; intros cache; cbn.
  - tauto.
  - rewrite IH. tauto.
Qed.

(** Every execution of [_getApi]. *)
Lemma _getApi_inv this network asset t res :
  exec (_getApi this network asset) t res ->
  match chainId_of this network asset with
  | None => t = [] /\ exists e, res = Err e /\ name e = "TypeError"%string
  | Some cid =>
      (exists api, t = [EvApiCacheGet cid (Some api)] /\ res = Ok api) \/
      (exists r, t = EvApiCacheGet cid None
                     :: EvNewRpcProvider (rpcURL (config this)) r
                     :: match r with Ok api => [EvApiCachePut cid api] | Err _ => [] end /\
                 res = r)
  end.
Proof.
  open_method _getApi. unfold chainId_of. intros H.
  exec_inv; eauto.
  - right. eexists (Ok _). eauto.
  - right. eexists (Err _). eauto.
Qed.

(** X9: [_getApi] is a get-or-create on the provider's cache, keyed by the
    chain id of the asset on the network.  It raises a TypeError, before any
    call, when the asset, its chain or the network is unknown.  Otherwise,
    with a cache that answers with what was stored: an entry that is there
    is returned as it is and nothing is constructed nor stored; when there
    is none, one RPC provider is constructed for the configured URL, stored
    under the chain id and returned.  The entries of the other chain ids
    are left as they are. *)
Theorem _getApi_cache this network asset cache t res :
  exec (_getApi this network asset) t res ->
  apiCache_coherent cache t ->
  match chainId_of this network asset with
  | None => t = [] /\ exists e, res = Err e /\ name e = "TypeError"%string
  | Some cid =>
      match cache !! cid with
      | Some cached =>
          t = [EvApiCacheGet cid (Some cached)] /\ res = Ok cached /\
          apiCache_after cache t = cache
      | None =>
          match res with
          | Ok api =>
              t = [EvApiCacheGet cid None;
                   EvNewRpcProvider (rpcURL (config this)) (Ok api);
                   EvApiCachePut cid api] /\
              apiCache_after cache t = <[cid := api]> cache
          | Err e =>
              t = [EvApiCacheGet cid None;
                   EvNewRpcProvider (rpcURL (config this)) (Err e)] /\
              apiCache_after cache t = cache
          end
      end
  end.
Proof.
  intros H Hc. apply _getApi_inv in H.
  destruct (chainId_of this network asset) as [cid|]; [|exact H].
  destruct H as [(api & -> & ->)|(r & -> & ->)]; cbn in Hc.
  - destruct Hc as [Hc _]. rewrite <- Hc. auto.
  - destruct Hc as [Hc _]. rewrite <- Hc. destruct r; auto.
Qed.

Lemma _getApi_cache_witness :
  exec (_getApi Sample.provider "mainnet" "ZERO")
    (snd (Sample.outcome Sample.answers (_getApi Sample.provider "mainnet" "ZERO")))
    (fst (Sample.outcome Sample.answers (_getApi Sample.provider "mainnet" "ZERO"))) /\
  apiCache_coherent ∅
    (snd (Sample.outcome Sample.answers (_getApi Sample.provider "mainnet" "ZERO"))) /\
  chainId_of Sample.provider "mainnet" "ZERO" = Some 30 /\
  apiCache_after ∅
    (snd (Sample.outcome Sample.answers (_getApi Sample.provider "mainnet" "ZERO")))
  = <[30 := 0%nat]> ∅.
Proof.
  split; [apply Sample_exec|].
  assert (Hc : apiCache_coherent ∅
                 (snd (Sample.outcome Sample.answers (_getApi Sample.provider "mainnet" "ZERO"))))
    by (vm_compute; auto).
  split; [exact Hc|]. split; [vm_compute; reflexivity|].
  pose proof (_getApi_cache Sample.provider "mainnet" "ZERO" ∅ _ _
                (Sample_exec Sample.answers (_getApi Sample.provider "mainnet" "ZERO")) Hc)
    as H.
  change (chainId_of Sample.provider "mainnet" "ZERO") with (Some 30) in H.
  change ((∅ : gmap Z ethers.Provider) !! 30) with (@None ethers.Provider) in H.
  cbv iota beta in H.
  change (fst (Sample.outcome Sample.answers (_getApi Sample.provider "mainnet" "ZERO")))
    with (@Ok ethers.Provider 0%nat) in H.
  exact (proj2 H).
Defined.

Lemma _getApi_again this network asset network' asset' cache t1 api t2 res :
  exec (_getApi this network asset) t1 (Ok api) ->
  exec (_getApi this network' asset') t2 res ->
  apiCache_coherent cache (t1 ++ t2) ->
  chainId_of this network' asset' = chainId_of this network asset ->
  exists cid, chainId_of this network asset = Some cid /\
    t2 = [EvApiCacheGet cid (Some api)] /\ res = Ok api.
Proof.
  intros H1 H2 Hc Hsame. apply apiCache_coherent_app in Hc. destruct Hc as [Hc1 Hc2].
  apply _getApi_inv in H1, H2. rewrite Hsame in H2.
  destruct (chainId_of this network asset) as [cid|];
    [|destruct H1 as (_ & e & [=] & _)].
  exists cid. split; [reflexivity|].
  assert (Hafter : apiCache_after cache t1 !! cid = Some api).
  { destruct H1 as [(api0 & -> & [= ->])|(r & -> & <-)]; cbn in *.
    - destruct Hc1 as [Hc1 _]. now rewrite <- Hc1.
    - apply lookup_insert_eq. }
  destruct H2 as [(api' & -> & ->)|(r & -> & ->)]; cbn in Hc2; destruct Hc2 as [Hc2 _];
    rewrite Hafter in Hc2; [|discriminate].
  injection Hc2 as ->. auto.
Qed.

(** X10: once [_getApi] has returned a provider for a chain id, a later call for
    the same chain id, be it for another asset or network name, returns the
    same provider from the cache and constructs nothing. *)
Theorem _getApi_reuse this network asset network' asset' cache t1 api t2 res :
  exec (_getApi this network asset) t1 (Ok api) ->
  exec (_getApi this network' asset') t2 res ->
  apiCache_coherent cache (t1 ++ t2) ->
  chainId_of this network' asset' = chainId_of this network asset ->
  exists cid, chainId_of this network asset = Some cid /\
    t2 = [EvApiCacheGet cid (Some api)] /\ res = Ok api.
Proof. apply _getApi_again. Qed.

Lemma _getApi_reuse_witness :
  let h := Sample.handler Sample.answers in
  let p1 := _getApi Sample.provider "mainnet" "SOV" in
  let p2 := _getApi Sample.provider "mainnet" "ZERO" in
  let w1 := snd (run h p1 ∅) in
  exec p1 (snd (fst (run h p1 ∅))) (Ok 0%nat) /\
  exec p2 (snd (fst (run h p2 w1))) (fst (fst (run h p2 w1))) /\
  apiCache_coherent ∅ (snd (fst (run h p1 ∅)) ++ snd (fst (run h p2 w1))) /\
  chainId_of Sample.provider "mainnet" "ZERO" = chainId_of Sample.provider "mainnet" "SOV" /\
  fst (fst (run h p2 w1)) = Ok 0%nat.
Proof.
  intros h p1 p2 w1.
  assert (H1 : exec p1 (snd (fst (run h p1 ∅))) (Ok 0%nat)) by exact (run_exec h p1 ∅).
  assert (H2 : exec p2 (snd (fst (run h p2 w1))) (fst (fst (run h p2 w1))))
    by apply run_exec.
  assert (Hc : apiCache_coherent ∅ (snd (fst (run h p1 ∅)) ++ snd (fst (run h p2 w1))))
    by (vm_compute; auto).
  assert (Hs : chainId_of Sample.provider "mainnet" "ZERO"
               = chainId_of Sample.provider "mainnet" "SOV") by (vm_compute; reflexivity).
  split; [exact H1|]. split; [exact H2|]. split; [exact Hc|]. split; [exact Hs|].
  destruct (_getApi_reuse Sample.provider "mainnet" "SOV" "mainnet" "ZERO" ∅ _ _ _ _
              H1 H2 Hc Hs) as (cid & _ & _ & Hres).
  exact Hres.
Defined.

(** Every execution of [checkSaleClosed] and of [getDepositRate]: the
    provider from [_getApi], then the reads of the presale contract through
    it. *)
Lemma checkSaleClosed_inv this network t res :
  exec (checkSaleClosed this network) t res ->
  exists ta ra, exec (_getApi this network "ZERO") ta ra /\
    match ra with
    | Err e => t = ta /\ res = Err e
    | Ok api =>
        exists r,
          t = ta ++ [EvIsClosed {| ethers.address := presaleAddress (config this);
                                   ethers.provider := api |} r] /\
          res = r
    end.
Proof.
  open_method checkSaleClosed. intros H. apply exec_bind in H.
  destruct H as [(e & H & ->)|(api & t1 & t2 & H1 & H2 & ->)].
  - exists t, (Err e). auto.
  - exists t1, (Ok api). split; [exact H1|]. exec_inv.
    + exists (Ok a). auto.
    + exists (Err e). auto.
Qed.

Lemma getDepositRate_inv this network t res :
  exec (getDepositRate this network) t res ->
  exists ta ra, exec (_getApi this network "ZERO") ta ra /\
    match ra with
    | Err e => t = ta /\ res = Err e
    | Ok api =>
        let c := {| ethers.address := presaleAddress (config this);
                    ethers.provider := api |} in
        (exists e, t = ta ++ [EvPPM c (Err e)] /\ res = Err e) \/
        (exists ppm r,
           t = ta ++ [EvPPM c (Ok ppm); EvExchangeRate c r] /\
           res = match r with
                 | Ok er => Ok (BN.toString (BN.dividedBy (BN.of_Z er) (BN.of_Z ppm)))
                 | Err e => Err e
                 end)
    end.
Proof.
  open_method getDepositRate. intros H. apply exec_bind in H.
  destruct H as [(e & H & ->)|(api & t1 & t2 & H1 & H2 & ->)].
  - exists t, (Err e). auto.
  - exists t1, (Ok api). split; [exact H1|]. cbn zeta. exec_inv.
    + right. eexists _, (Ok _). rewrite !BNFacts.of_string_of_Z. auto.
    + right. eexists _, (Err _). auto.
    + left. eauto.
Qed.

(** Every execution of [getQuote]: no call at all, or [checkSaleClosed]
    alone, or [checkSaleClosed] answering that the sale is open and then
    [getDepositRate]. *)
Lemma getQuote_inv this network from to amount t res :
  exec (getQuote this network from to amount) t res ->
  (t = [] /\ forall q, res <> Ok (Some q)) \/
  exists t1 r1, exec (checkSaleClosed this network) t1 r1 /\
    ((t = t1 /\ forall q, res <> Ok (Some q)) \/
     exists t2 r2, r1 = Ok false /\ exec (getDepositRate this network) t2 r2 /\
                   t = t1 ++ t2 /\
                   (forall q, res = Ok (Some q) -> exists rate, r2 = Ok rate)).
Proof.
  open_method getQuote. intros H. exec_inv; auto; try (left; split; [reflexivity|discriminate]).
  all: right; eexists _, _; (split; [eassumption|]); rewrite ?app_nil_r.
  all: try (left; split; [reflexivity|discriminate]).
  all: right; eexists _, _; repeat split; eauto; discriminate.
Qed.

(** X11: with a cache that answers with what was stored, a quote request
    constructs at most one RPC provider, and the three reads of the sale
    (isClosed, PPM, exchangeRate) go to the presale address through one and
    the same provider. *)
Theorem getQuote_one_provider this network from to amount cache t res :
  exec (getQuote this network from to amount) t res ->
  apiCache_coherent cache t ->
  (length (List.filter is_new_provider t) <= 1)%nat /\
  (forall ev, In ev t ->
     match ev with
     | EvIsClosed c _ | EvPPM c _ | EvExchangeRate c _ =>
         ethers.address c = presaleAddress (config this)
     | _ => True
     end) /\
  (forall c1 r1 c2 r2, In (EvIsClosed c1 r1) t -> In (EvPPM c2 r2) t -> c1 = c2) /\
  (forall c2 r2 c3 r3, In (EvPPM c2 r2) t -> In (EvExchangeRate c3 r3) t -> c2 = c3).
Proof.
  intros H Hc. apply getQuote_inv in H.
  assert (Hnil : (length (List.filter is_new_provider []) <= 1)%nat /\
    (forall ev, In ev [] ->
       match ev with
       | EvIsClosed c _ | EvPPM c _ | EvExchangeRate c _ =>
           ethers.address c = presaleAddress (config this)
       | _ => True
       end) /\
    (forall c1 (r1 : Result bool) c2 (r2 : Result Z),
       In (EvIsClosed c1 r1) [] -> In (EvPPM c2 r2) [] -> c1 = c2) /\
    (forall c2 (r2 : Result Z) c3 (r3 : Result Z),
       In (EvPPM c2 r2) [] -> In (EvExchangeRate c3 r3) [] -> c2 = c3))
    by (cbn; repeat split; try lia; contradiction).
  destruct H as [[-> _]|(t1 & r1 & H1 & H)]; [exact Hnil|].
  apply checkSaleClosed_inv in H1. destruct H1 as (ta1 & ra1 & Ha1 & H1).
  pose proof (_getApi_inv _ _ _ _ _ Ha1) as Hi1.
  destruct (chainId_of this network "ZERO") as [cid|] eqn:Ecid.
  2:{ destruct Hi1 as (-> & e & -> & _). destruct H1 as [-> ->].
      destruct H as [[-> _]|(t2 & r2 & [=] & _)]. exact Hnil. }
  clear Hnil.
  assert (Hshape : exists tc,
            t = ta1 ++ tc /\
            (tc <> [] -> exists api, ra1 = Ok api) /\
            (forall api, ra1 = Ok api ->
               let c := {| ethers.address := presaleAddress (config this);
                           ethers.provider := api |} in
               (exists r, tc = [EvIsClosed c r]) \/
               (exists e, tc = [EvIsClosed c (Ok false); EvApiCacheGet cid (Some api);
                                EvPPM c (Err e)]) \/
               (exists ppm r, tc = [EvIsClosed c (Ok false); EvApiCacheGet cid (Some api);
                                    EvPPM c (Ok ppm); EvExchangeRate c r]))).
  { destruct H as [[-> _]|(t2 & r2 & -> & H2 & -> & _)].
    - destruct ra1 as [api|e].
      + destruct H1 as (r & -> & _). eexists. split; [reflexivity|].
        split; [eauto|]. intros api' [= <-]. left. eauto.
      + destruct H1 as [-> _]. exists []. rewrite app_nil_r. split; [reflexivity|].
        split; [congruence|discriminate].
    - destruct ra1 as [api|e]; [|destruct H1 as [_ [=]]].
      destruct H1 as (r & -> & <-).
      apply getDepositRate_inv in H2. destruct H2 as (ta2 & ra2 & Ha2 & H2).
      assert (E : exists tc, t2 = ta2 ++ tc).
      { destruct ra2 as [api2|e2]; cbn zeta in H2.
        - destruct H2 as [(e & -> & _)|(ppm & r & -> & _)]; eauto.
        - destruct H2 as [-> _]. exists []. now rewrite app_nil_r. }
      destruct E as (tc & ->).
      assert (Hc12 : apiCache_coherent cache (ta1 ++ ta2)).
      { apply apiCache_coherent_app in Hc. destruct Hc as [Hc1 Hc2].
        apply apiCache_coherent_app in Hc1. destruct Hc1 as [Hc1 _].
        apply apiCache_coherent_app in Hc2. destruct Hc2 as [Hc2 _].
        apply apiCache_coherent_app. split; [exact Hc1|].
        rewrite apiCache_after_app in Hc2. exact Hc2. }
      destruct (_getApi_again _ _ _ _ _ _ _ _ _ _ Ha1 Ha2 Hc12 eq_refl)
        as (cid' & Hcid & -> & ->).
      rewrite Ecid in Hcid. injection Hcid as <-. cbn zeta in H2.
      eexists. rewrite <- app_assoc. split; [reflexivity|]. split; [eauto|].
      intros api' [= <-]. right.
      destruct H2 as [(e & H2 & _)|(ppm & r & H2 & _)];
        apply app_inv_head in H2; subst tc; cbn; eauto. }
  destruct Hshape as (tc & -> & Hne & Htc).
  assert (Hta : (length (List.filter is_new_provider ta1) <= 1)%nat /\
                forall ev, In ev ta1 -> is_api_event ev = true).
  { split; [|eapply _getApi_events, Ha1].
    destruct Hi1 as [(api & -> & _)|([api|e] & -> & _)]; cbn; lia. }
  destruct Hta as [Hcount Hapi].
  assert (Hin : forall ev, In ev (ta1 ++ tc) ->
                  is_api_event ev = true \/ In ev tc).
  { intros ev Hev. apply in_app_or in Hev. destruct Hev; auto. }
  destruct ra1 as [api|e].
  2:{ destruct tc as [|ev0 tc]; [|destruct Hne as (api & [=]); discriminate].
      rewrite app_nil_r. split; [exact Hcount|]. split; [|split].
      - intros ev Hev. apply Hapi in Hev. destruct ev; try discriminate; exact I.
      - intros c1 r1' c2 r2 Hev. apply Hapi in Hev. discriminate.
      - intros c2 r2 c3 r3 Hev. apply Hapi in Hev. discriminate. }
  specialize (Htc api eq_refl). cbn zeta in Htc.
  split; [|split; [|split]].
  - rewrite List.filter_app, length_app.
    destruct Htc as [(r & ->)|[(e & ->)|(ppm & r & ->)]]; cbn; lia.
  - intros ev Hev. apply Hin in Hev. destruct Hev as [Hev|Hev].
    + destruct ev; try discriminate; exact I.
    + destruct Htc as [(r & ->)|[(e & ->)|(ppm & r & ->)]]; in_inv Hev; subst; auto.
  - intros c1 r1' c2 r2 Hev1 Hev2. apply Hin in Hev1, Hev2.
    destruct Hev1 as [Hev1|Hev1]; [discriminate|].
    destruct Hev2 as [Hev2|Hev2]; [discriminate|].
    destruct Htc as [(r & ->)|[(e & ->)|(ppm & r & ->)]];
      in_inv Hev1; in_inv Hev2; congruence.
  - intros c2 r2 c3 r3 Hev1 Hev2. apply Hin in Hev1, Hev2.
    destruct Hev1 as [Hev1|Hev1]; [discriminate|].
    destruct Hev2 as [Hev2|Hev2]; [discriminate|].
    destruct Htc as [(r & ->)|[(e & ->)|(ppm & r & ->)]];
      in_inv Hev1; in_inv Hev2; congruence.
Qed.

Lemma getQuote_one_provider_witness :
  exec Sample.quote_100_units
    (snd (Sample.outcome Sample.answers Sample.quote_100_units))
    (fst (Sample.outcome Sample.answers Sample.quote_100_units)) /\
  apiCache_coherent ∅ (snd (Sample.outcome Sample.answers Sample.quote_100_units)) /\
  (length (List.filter is_new_provider
             (snd (Sample.outcome Sample.answers Sample.quote_100_units))) <= 1)%nat.
Proof.
  split; [apply Sample_exec|].
  assert (Hc : apiCache_coherent ∅
                 (snd (Sample.outcome Sample.answers Sample.quote_100_units)))
    by (vm_compute; repeat split).
  split; [exact Hc|].
  exact (proj1 (getQuote_one_provider Sample.provider "mainnet" "SOV" "ZERO"
                  (BN.Fin 1 (-16)) ∅ _ _
                  (Sample_exec Sample.answers Sample.quote_100_units) Hc)).
Defined.

(** ** Slippage *)

Lemma round_half_up_div_nonneg n d : 0 <= n -> 0 < d -> 0 <= BN.round_half_up_div n d.
Proof.
  intros Hn Hd. unfold BN.round_half_up_div.
  rewrite (Z.sgn_pos d) by exact Hd. rewrite Z.mul_1_r.
  apply Z.mul_nonneg_nonneg; [apply Z.sgn_nonneg; exact Hn|].
  apply Z.div_pos; lia.
Qed.

Lemma of_Z_nonneg_chars n :
  0 <= n -> JsString.of_Z n = string_of_list_ascii (JsString.digits n).
Proof.
  intros Hn. with_strategy transparent [JsString.of_Z] (unfold JsString.of_Z).
  destruct (Z.ltb_spec n 0); [lia|]. now rewrite Z.abs_eq.
Qed.

(** [toFixed(0)] of a non-negative value is the decimal string of the value
    rounded to the nearest integer, ties upwards. *)
Lemma toFixed0_mk c e :
  0 <= c -> e < 0 ->
  BN.toFixed0 (BN.mk c e) = JsString.of_Z (BN.round_half_up_div c (10 ^ (- e))).
Proof.
  intros Hc He.
  assert (Hd : 0 < 10 ^ (- e)) by (apply Z.pow_pos_nonneg; lia).
  rewrite of_Z_nonneg_chars by now apply round_half_up_div_nonneg.
  destruct (Z.eq_dec c 0) as [->|Hnz].
  - rewrite mk_zero. unfold BN.round_half_up_div. cbn [Z.sgn Z.mul]. reflexivity.
  - destruct (mk_nonzero c e Hnz) as (c' & k & E & Hk & Hv). rewrite E.
    assert (Hcc : c = c' * 10 ^ k).
    { apply (BNFacts.value_inj _ _ e). rewrite <- Hv. symmetry.
      now apply BNFacts.value_shift. }
    assert (Hpk : 0 < 10 ^ k) by (apply Z.pow_pos_nonneg; lia).
    assert (Hc' : 0 < c') by nia.
    cbn [BN.toFixed0]. destruct (Z.leb_spec 0 (e + k)) as [Hek|Hek].
    + with_strategy transparent [BN.toFixed] (unfold BN.toFixed).
      cbn [BN.toFixed_chars]. unfold BN.sign_chars, BN.fixed_body.
      destruct (Z.ltb_spec c' 0); [lia|]. destruct (Z.leb_spec 0 (e + k)); [|lia].
      cbn [app]. rewrite (Z.abs_eq c') by lia. do 2 f_equal.
      replace c with (c' * 10 ^ (e + k) * 10 ^ (- e)).
      * rewrite BNArith.round_half_up_div_exact by lia. reflexivity.
      * rewrite Hcc, <- Z.mul_assoc, <- Z.pow_add_r by lia. do 2 f_equal. lia.
    + unfold BN.sign_chars. destruct (Z.ltb_spec c' 0); [lia|]. cbn [app].
      do 2 f_equal.
      assert (Hd' : 0 < 10 ^ (- (e + k))) by (apply Z.pow_pos_nonneg; lia).
      rewrite Z.abs_eq by (apply round_half_up_div_nonneg; lia).
      rewrite <- (BNArith.round_half_up_div_scale c' (10 ^ (- (e + k))) (10 ^ k)) by exact Hpk.
      rewrite <- Hcc, <- Z.pow_add_r by lia. do 2 f_equal. lia.
Qed.

(** X12: [_calculateSlippage] of a non-negative whole amount [a] is the decimal
    string of 0.995 * a rounded to the nearest integer, ties upwards, that
    is of (995 * a + 500) / 1000 rounded down: an integer that ethers
    accepts, not above the amount and not more than 0.5 % and a half unit
    below it. *)
Theorem _calculateSlippage_spec (amount : Amount) a :
  BN_ amount = BN.of_Z a -> 0 <= a ->
  let n := (995 * a + 500) / 1000 in
  _calculateSlippage amount = JsString.of_Z n /\
  ethers.BigNumber_from (_calculateSlippage amount) = Ok n /\
  0 <= n <= a /\
  200 * (a - n) <= a + 100.
Proof.
  intros Ha Hpos n.
  assert (Hs : _calculateSlippage amount = JsString.of_Z n).
  { unfold _calculateSlippage. rewrite Ha.
    with_strategy transparent [BN.of_Z] (unfold BN.of_Z).
    rewrite BNArith.times_mk, toFixed0_mk by lia. f_equal.
    unfold BN.round_half_up_div, n. change (10 ^ (- (0 + -3))) with 1000.
    change (Z.sgn 1000) with 1. change (Z.abs 1000) with 1000.
    rewrite Z.abs_eq by lia.
    destruct (Z.eq_dec a 0) as [->|Hnz]; [reflexivity|].
    rewrite Z.sgn_pos by lia.
    replace (2 * (a * 995) + 1000) with (2 * (995 * a + 500)) by ring.
    change (2 * 1000) with (2 * 1000). rewrite Z.div_mul_cancel_l by lia. lia. }
  split; [exact Hs|]. split; [rewrite Hs; apply BigNumber_from_of_Z|].
  pose proof (Z.div_mod (995 * a + 500) 1000 ltac:(lia)) as Hdm.
  pose proof (Z.mod_pos_bound (995 * a + 500) 1000 ltac:(lia)) as Hb.
  fold n in Hdm. lia.
Qed.

Lemma _calculateSlippage_spec_witness :
  BN_ (AmountString "1000") = BN.of_Z 1000 /\ 0 <= 1000 /\
  _calculateSlippage (AmountString "1000") = JsString.of_Z ((995 * 1000 + 500) / 1000).
Proof.
  assert (H : BN_ (AmountString "1000") = BN.of_Z 1000) by (vm_compute; reflexivity).
  assert (H0 : 0 <= 1000) by lia.
  split; [exact H|]. split; [exact H0|].
  exact (proj1 (_calculateSlippage_spec (AmountString "1000") 1000 H H0)).
Defined.

Example _calculateSlippage_examples :
  _calculateSlippage (AmountString "1000") = "995"%string /\
  _calculateSlippage (AmountString "100") = "100"%string /\
  _calculateSlippage (AmountString "101") = "100"%string /\
  _calculateSlippage (AmountString "1") = "1"%string /\
  _calculateSlippage (AmountString "0.5") = "0"%string /\
  _calculateSlippage (AmountString "-0.4") = "-0"%string /\
  _calculateSlippage (AmountBN BN.NaN) = "NaN"%string.
Proof. repeat split; vm_compute; reflexivity. Qed.

(** ** The state machine and the table of statuses *)

(** The updates of [performNextSwapAction], status by status. *)
Lemma performNextSwapAction_returns this store network walletId swap t upd :
  exec (performNextSwapAction this store network walletId swap) t (Ok (Some upd)) ->
  (status swap = "WAITING_FOR_APPROVE_CONFIRMATIONS"%string /\
   Updates.status upd = "APPROVE_CONFIRMED"%string) \/
  (status swap = "APPROVE_CONFIRMED"%string /\
   Updates.status upd = "WAITING_FOR_SWAP_CONFIRMATIONS"%string) \/
  (status swap = "WAITING_FOR_SWAP_CONFIRMATIONS"%string /\
   (Updates.status upd = "SUCCESS"%string \/ Updates.status upd = "FAILED"%string)).
Proof.
  intros H. open_method performNextSwapAction.
  destruct (String.eqb_spec (status swap) "WAITING_FOR_APPROVE_CONFIRMATIONS") as [E1|_].
  { left. split; [exact E1|]. unfold withInterval in H.
    apply waitForApproveConfirmations_returns in H.
    destruct H as [[=]|(upd' & [= <-] & Hs)]. exact Hs. }
  destruct (String.eqb_spec (status swap) "APPROVE_CONFIRMED") as [E2|_].
  { right. left. split; [exact E2|].
    apply exec_withLock in H. destruct H as (t' & H & _).
    apply exec_bind in H. destruct H as [(e & _ & [=])|(u & t1 & t2 & H1 & H2 & _)].
    cbn in H2. destruct H2 as [_ [= ->]].
    apply sendSwap_returns in H1. destruct H1 as (? & ? & ? & ? & _ & _ & ->).
    reflexivity. }
  destruct (String.eqb_spec (status swap) "WAITING_FOR_SWAP_CONFIRMATIONS") as [E3|_].
  { right. right. split; [exact E3|]. unfold withInterval in H.
    apply waitForSwapConfirmations_returns in H.
    destruct H as [[=]|(upd' & [= <-] & Hs)]. exact Hs. }
  destruct H as [_ [=]].
Qed.

(** X13: the state machine against the static table of statuses.  An update is
    returned only for a swap whose status is listed with the filter status
    PENDING; the status of the update is listed too, and its step is not
    below the step of the swap and below totalSteps: the timeline never
    goes back.  For any other status of the swap, listed as COMPLETED or
    REFUNDED or not listed at all, no call is made and there is no
    update. *)
Theorem performNextSwapAction_step this store network walletId swap t res :
  exec (performNextSwapAction this store network walletId swap) t res ->
  (forall upd, res = Ok (Some upd) ->
     exists step step' filterStatus,
       status_info (status swap) = Some (step, "PENDING"%string) /\
       status_info (Updates.status upd) = Some (step', filterStatus) /\
       step <= step' < totalSteps) /\
  ((forall step, status_info (status swap) <> Some (step, "PENDING"%string)) ->
   t = [] /\ res = Ok None).
Proof.
  intros H. split.
  - intros upd ->. apply performNextSwapAction_returns in H.
    destruct H as [[-> ->]|[[-> ->]|[-> [-> | ->]]]];
      eexists _, _, _; (split; [reflexivity|]); (split; [reflexivity|]);
      unfold totalSteps; lia.
  - intros Hno. open_method performNextSwapAction.
    destruct (String.eqb_spec (status swap) "WAITING_FOR_APPROVE_CONFIRMATIONS") as [E1|_].
    { exfalso. apply (Hno 0). rewrite E1. reflexivity. }
    destruct (String.eqb_spec (status swap) "APPROVE_CONFIRMED") as [E2|_].
    { exfalso. apply (Hno 1). rewrite E2. reflexivity. }
    destruct (String.eqb_spec (status swap) "WAITING_FOR_SWAP_CONFIRMATIONS") as [E3|_].
    { exfalso. apply (Hno 1). rewrite E3. reflexivity. }
    exact H.
Qed.

Lemma performNextSwapAction_step_witness :
  exec Sample.submit (snd (Sample.outcome Sample.answers Sample.submit))
    (fst (Sample.outcome Sample.answers Sample.submit)) /\
  exists upd,
    fst (Sample.outcome Sample.answers Sample.submit) = Ok (Some upd) /\
    exists step step' filterStatus,
      status_info "APPROVE_CONFIRMED" = Some (step, "PENDING"%string) /\
      status_info (Updates.status upd) = Some (step', filterStatus) /\
      step <= step' < totalSteps.
Proof.
  split; [apply Sample_exec|].
  eexists. split; [vm_compute; reflexivity|].
  exact (proj1 (performNextSwapAction_step Sample.provider tt "mainnet" "wallet"
                  (Sample.swap100 "APPROVE_CONFIRMED") _ _
                  (Sample_exec Sample.answers Sample.submit))
           _ eq_refl).
Defined.

(** ** Quotes and fees only read *)

(** X14: a quote request only reads: every call it makes is one of [_getApi]
    (the cache, the construction of an RPC provider) or a read of the
    contract at the presale address.  It asks nothing from the store or the
    chain client and submits nothing. *)
Theorem getQuote_read_only this network from to amount t res :
  exec (getQuote this network from to amount) t res ->
  forall ev, In ev t ->
    is_api_event ev = true \/
    is_contract_read (presaleAddress (config this)) ev = true.
Proof.
  intros H ev Hin. apply getQuote_inv in H.
  assert (Hcs : forall t1 r1, exec (checkSaleClosed this network) t1 r1 ->
                  In ev t1 ->
                  is_api_event ev = true \/
                  is_contract_read (presaleAddress (config this)) ev = true).
  { intros t1 r1 H1 Hin1. apply checkSaleClosed_inv in H1.
    destruct H1 as (ta & ra & Ha & H1). destruct ra as [api|e].
    - destruct H1 as (r & -> & _). apply in_app_or in Hin1.
      destruct Hin1 as [Hin1|[<-|[]]].
      + left. eapply _getApi_events; eassumption.
      + right. cbn. apply String.eqb_refl.
    - destruct H1 as [-> _]. left. eapply _getApi_events; eassumption. }
  assert (Hdr : forall t2 r2, exec (getDepositRate this network) t2 r2 ->
                  In ev t2 ->
                  is_api_event ev = true \/
                  is_contract_read (presaleAddress (config this)) ev = true).
  { intros t2 r2 H2 Hin2. apply getDepositRate_inv in H2.
    destruct H2 as (ta & ra & Ha & H2). destruct ra as [api|e].
    - cbn zeta in H2. destruct H2 as [(e & -> & _)|(ppm & r & -> & _)];
        apply in_app_or in Hin2; destruct Hin2 as [Hin2|Hin2];
        try (left; eapply _getApi_events; eassumption);
        in_inv Hin2; subst; right; cbn; apply String.eqb_refl.
    - destruct H2 as [-> _]. left. eapply _getApi_events; eassumption. }
  destruct H as [[-> _]|(t1 & r1 & H1 & [[-> _]|(t2 & r2 & _ & H2 & -> & _)])].
  - contradiction.
  - eapply Hcs; eassumption.
  - apply in_app_or in Hin. destruct Hin; [eapply Hcs|eapply Hdr]; eassumption.
Qed.

Lemma getQuote_read_only_witness :
  exec Sample.quote_100_units
    (snd (Sample.outcome Sample.answers Sample.quote_100_units))
    (fst (Sample.outcome Sample.answers Sample.quote_100_units)) /\
  In (EvPPM {| ethers.address := presaleAddress (config Sample.provider);
               ethers.provider := 0%nat |} (Ok 1000000))
     (snd (Sample.outcome Sample.answers Sample.quote_100_units)) /\
  (is_api_event (EvPPM {| ethers.address := presaleAddress (config Sample.provider);
                          ethers.provider := 0%nat |} (Ok 1000000)) = true \/
   is_contract_read (presaleAddress (config Sample.provider))
     (EvPPM {| ethers.address := presaleAddress (config Sample.provider);
               ethers.provider := 0%nat |} (Ok 1000000)) = true).
Proof.
  split; [apply Sample_exec|].
  assert (Hin : In (EvPPM {| ethers.address := presaleAddress (config Sample.provider);
                             ethers.provider := 0%nat |} (Ok 1000000))
                   (snd (Sample.outcome Sample.answers Sample.quote_100_units)))
    by (vm_compute; auto 10).
  split; [exact Hin|].
  exact (getQuote_read_only Sample.provider "mainnet" "SOV" "ZERO" (BN.Fin 1 (-16)) _ _
           (Sample_exec Sample.answers Sample.quote_100_units) _ Hin).
Defined.

(** The loop over the fee prices makes no call. *)
Lemma estimateFees_loop_trace this gasLimit nativeAsset feePrices :
  forall fees t res,
    exec (estimateFees_loop this gasLimit nativeAsset feePrices fees) t res -> t = [].
Proof.
  induction feePrices as [|fp rest IH]; intros fees t res H;
    with_strategy transparent [estimateFees_loop] (cbn [estimateFees_loop] in H).
  - now destruct H.
  - unfold deref in H. destruct (cryptoassets this !! nativeAsset); cbn in H.
    + eapply IH, H.
    + now destruct H.
Qed.

Lemma estimateFees_no_dispatch this network walletId asset txType (quote : Quote)
    feePrices t res :
  exec (estimateFees this network walletId asset txType quote feePrices) t res ->
  forall ev, In ev t -> is_dispatch ev = false.
Proof.
  open_method estimateFees. intros H ev Hin.
  exec_inv;
    repeat match goal with
      | H : exec (estimateFees_loop _ _ _ _ _) _ _ |- _ =>
          apply estimateFees_loop_trace in H; subst
      end;
    rewrite ?app_nil_r in Hin; simpl in Hin;
    repeat first
      [ contradiction
      | destruct Hin as [<-|Hin]; [reflexivity|]
      | apply in_app_or in Hin; destruct Hin as [Hin|Hin]
      | eapply requiresApproval_no_dispatch; eassumption
      | eapply buildApprovalTx_no_dispatch; eassumption ].
Qed.

(** X15: estimating the fees submits nothing, and the table it returns has an
    entry for each of the fee prices asked for and for nothing else: for no
    fee price it is empty. *)
Theorem estimateFees_read_only this network walletId asset txType (quote : Quote)
    feePrices t res :
  exec (estimateFees this network walletId asset txType quote feePrices) t res ->
  dispatches t = [] /\
  (forall fees, res = Ok fees ->
     forall feePrice, is_Some (fees !! feePrice) <-> feePrice ∈ feePrices).
Proof.
  intros H. split; [apply dispatches_none; eapply estimateFees_no_dispatch, H|].
  intros fees -> k. open_method estimateFees.
  assert (Hloop : exists gasLimit nativeAsset t',
            exec (estimateFees_loop this gasLimit nativeAsset feePrices ∅) t' (Ok fees)).
  { exec_inv; try discriminate; eauto. }
  destruct Hloop as (gasLimit & nativeAsset & t' & Hloop).
  apply estimateFees_loop_spec in Hloop. destruct Hloop as (_ & Hnat & Hfees).
  rewrite Hfees. destruct (decide (k ∈ feePrices)) as [Hin|Hnin].
  - destruct Hnat as [native ->]; [intros ->; now apply elem_of_nil in Hin|].
    cbn. split; [auto|eauto].
  - rewrite lookup_empty. split; [intros [x [=]]|contradiction].
Qed.

Lemma estimateFees_read_only_witness :
  exec Sample.fees (snd (Sample.outcome Sample.answers Sample.fees))
    (fst (Sample.outcome Sample.answers Sample.fees)) /\
  dispatches (snd (Sample.outcome Sample.answers Sample.fees)) = [].
Proof.
  split; [apply Sample_exec|].
  exact (proj1 (estimateFees_read_only Sample.provider "mainnet" "wallet" "SOV" "SWAP"
                  Sample.quote100 [BN.Fin 5 0; BN.Fin 1 1] _ _
                  (Sample_exec Sample.answers Sample.fees))).
Defined.

(** ** Quotes that are not numbers *)

(** A product with an infinity or with NaN is not finite. *)
Lemma times_not_finite x y : BN.to_Q y = None -> BN.to_Q (BN.times x y) = None.
Proof.
  with_strategy transparent [BN.times] (unfold BN.times).
  destruct x as [c1 e1|n1|], y as [c2 e2|n2|]; try discriminate; intros _;
    try reflexivity; cbn; destruct (_ =? 0); reflexivity.
Qed.

Lemma times_not_finite_l x y :
  BN.to_Q x = None -> BN.to_Q (BN.times x y) = None.
Proof.
  with_strategy transparent [BN.times] (unfold BN.times).
  destruct x as [c1 e1|n1|], y as [c2 e2|n2|]; try discriminate; intros _;
    try reflexivity; cbn; destruct (_ =? 0); reflexivity.
Qed.

(** A division by zero is not finite. *)
Lemma dividedBy_zero_r er : BN.to_Q (BN.dividedBy (BN.of_Z er) (BN.of_Z 0)) = None.
Proof.
  destruct (BNArith.of_Z_spec er) as (c & k & -> & _).
  with_strategy transparent [BN.dividedBy BN.of_Z BN.mk] (cbn).
  destruct (c =? 0); reflexivity.
Qed.

(** The trace of a quote request that returns a quote: calls of [_getApi],
    between them the sale reported open, at the end the PPM and the exchange
    rate. *)
Lemma getQuote_trace this network from to amount t q :
  exec (getQuote this network from to amount) t (Ok (Some q)) ->
  exists ta1 c1 ta2 c2 ppm er,
    (forall ev, In ev ta1 \/ In ev ta2 -> is_api_event ev = true) /\
    t = ta1 ++ EvIsClosed c1 (Ok false) :: ta2
        ++ [EvPPM c2 (Ok ppm); EvExchangeRate c2 (Ok er)].
Proof.
  intros H. apply getQuote_inv in H.
  destruct H as [[_ H]|(t1 & r1 & H1 & [[_ H]|(t2 & r2 & -> & H2 & -> & Hr)])];
    try (exfalso; eapply H; reflexivity).
  destruct (Hr q eq_refl) as (rate & ->).
  apply checkSaleClosed_inv in H1. destruct H1 as (ta1 & ra1 & Ha1 & H1).
  destruct ra1 as [api1|e]; [|destruct H1 as [_ [=]]].
  destruct H1 as (r & -> & <-).
  apply getDepositRate_inv in H2. destruct H2 as (ta2 & ra2 & Ha2 & H2).
  destruct ra2 as [api2|e]; [|destruct H2 as [_ [=]]]. cbn zeta in H2.
  destruct H2 as [(e & _ & [=])|(ppm & r & -> & Hrate)].
  destruct r as [er|e]; [|discriminate].
  eexists ta1, _, ta2, _, ppm, er. split.
  - intros ev [Hin|Hin];
      [exact (_getApi_events _ _ _ _ _ Ha1 _ Hin)|exact (_getApi_events _ _ _ _ _ Ha2 _ Hin)].
  - rewrite <- app_assoc. reflexivity.
Qed.

(** A quote returned after the contract reported a PPM of zero has a
    toAmount that is not a finite number. *)
Lemma zero_PPM_not_finite this network from to amount t q c :
  exec (getQuote this network from to amount) t (Ok (Some q)) ->
  In (EvPPM c (Ok 0)) t ->
  exists b, toAmount q = AmountBN b /\ BN.to_Q b = None.
Proof.
  intros H Hin.
  destruct (getQuote_trace _ _ _ _ _ _ _ H) as (ta1 & c1 & ta2 & c2 & ppm0 & er0 & Hapi & Ht).
  apply getQuote_returns in H.
  destruct H as (fromInfo & t1 & t2 & c' & ppm & er & _ & _ & _ & _ & _ & Ht' & ->).
  assert (E : ppm = ppm0).
  { rewrite Ht in Ht'.
    change (ta1 ++ EvIsClosed c1 (Ok false) :: ta2
            ++ [EvPPM c2 (Ok ppm0); EvExchangeRate c2 (Ok er0)])
      with (ta1 ++ (EvIsClosed c1 (Ok false) :: ta2)
            ++ [EvPPM c2 (Ok ppm0)] ++ [EvExchangeRate c2 (Ok er0)]) in Ht'.
    change [EvPPM c' (Ok ppm); EvExchangeRate c' (Ok er)]
      with ([EvPPM c' (Ok ppm)] ++ [EvExchangeRate c' (Ok er)]) in Ht'.
    rewrite !app_assoc in Ht'. apply app_inj_tail in Ht'. destruct Ht' as [Ht' _].
    apply app_inj_tail in Ht'. destruct Ht' as [_ [= _ ->]]. reflexivity. }
  subst ppm. rewrite Ht in Hin. clear Ht Ht'.
  assert (ppm0 = 0) as ->.
  { apply in_app_or in Hin. destruct Hin as [Hin|[Hin|Hin]]; [| discriminate |].
    - pose proof (Hapi _ (or_introl Hin)). discriminate.
    - apply in_app_or in Hin. destruct Hin as [Hin|Hin].
      + pose proof (Hapi _ (or_intror Hin)). discriminate.
      + in_inv Hin. now injection Hin. }
  eexists. split; [reflexivity|]. apply times_not_finite, dividedBy_zero_r.
Qed.

(** The exchange rate is the last read of a quote request: once it is
    answered, a quote is returned. *)
Lemma getQuote_after_exchangeRate this network from to amount t res c er :
  exec (getQuote this network from to amount) t res ->
  In (EvExchangeRate c (Ok er)) t ->
  exists q, res = Ok (Some q).
Proof.
  intros H Hin.
  assert (Hclosed : forall t1 r1, exec (checkSaleClosed this network) t1 r1 ->
                      ~ In (EvExchangeRate c (Ok er)) t1).
  { intros t1 r1 H1 Hin1. apply checkSaleClosed_inv in H1.
    destruct H1 as (ta & ra & Ha & H1).
    destruct ra as [api|e]; [destruct H1 as (r & -> & _)|destruct H1 as [-> _]].
    - apply in_app_or in Hin1. destruct Hin1 as [Hin1|Hin1].
      + pose proof (_getApi_events _ _ _ _ _ Ha _ Hin1). discriminate.
      + in_inv Hin1.
    - pose proof (_getApi_events _ _ _ _ _ Ha _ Hin1). discriminate. }
  assert (Hrate : forall t2 e, exec (getDepositRate this network) t2 (Err e) ->
                    ~ In (EvExchangeRate c (Ok er)) t2).
  { intros t2 e H2 Hin2. apply getDepositRate_inv in H2.
    destruct H2 as (ta & ra & Ha & H2).
    destruct ra as [api|e']; [|destruct H2 as [-> _]].
    - cbn zeta in H2. destruct H2 as [(e' & -> & _)|(ppm & r & -> & Hr)].
      + apply in_app_or in Hin2. destruct Hin2 as [Hin2|Hin2].
        * pose proof (_getApi_events _ _ _ _ _ Ha _ Hin2). discriminate.
        * in_inv Hin2.
      + destruct r as [er'|e']; [discriminate|].
        apply in_app_or in Hin2. destruct Hin2 as [Hin2|Hin2].
        * pose proof (_getApi_events _ _ _ _ _ Ha _ Hin2). discriminate.
        * in_inv Hin2.
    - pose proof (_getApi_events _ _ _ _ _ Ha _ Hin2). discriminate. }
  open_method getQuote.
  exec_inv; eauto; rewrite ?app_nil_r in Hin; exfalso;
    try (apply in_app_or in Hin; destruct Hin as [Hin|Hin]);
    try contradiction;
    try (eapply Hclosed; eassumption);
    try (eapply Hrate; eassumption).
Qed.

(** X16: when the contract answers a PPM of zero and then its exchange
    rate, [getQuote] neither raises nor returns null: the rate is a division
    by zero and the request returns a quote whose toAmount is not a finite
    number (an infinity, or NaN). *)
Theorem getQuote_zero_PPM this network from to amount t res c c' er :
  exec (getQuote this network from to amount) t res ->
  In (EvPPM c (Ok 0)) t ->
  In (EvExchangeRate c' (Ok er)) t ->
  exists q b, res = Ok (Some q) /\ toAmount q = AmountBN b /\ BN.to_Q b = None.
Proof.
  intros H Hppm Her.
  destruct (getQuote_after_exchangeRate _ _ _ _ _ _ _ _ _ H Her) as (q & ->).
  destruct (zero_PPM_not_finite _ _ _ _ _ _ _ _ H Hppm) as (b & Hb & Hq).
  exists q, b. auto.
Qed.

Lemma getQuote_zero_PPM_witness :
  exec Sample.quote_100_units
    (snd (Sample.outcome Sample.answers_zero_ppm Sample.quote_100_units))
    (fst (Sample.outcome Sample.answers_zero_ppm Sample.quote_100_units)) /\
  In (EvPPM {| ethers.address := presaleAddress (config Sample.provider);
               ethers.provider := 0%nat |} (Ok 0))
     (snd (Sample.outcome Sample.answers_zero_ppm Sample.quote_100_units)) /\
  In (EvExchangeRate {| ethers.address := presaleAddress (config Sample.provider);
                        ethers.provider := 0%nat |} (Ok 500000))
     (snd (Sample.outcome Sample.answers_zero_ppm Sample.quote_100_units)) /\
  exists q b,
    fst (Sample.outcome Sample.answers_zero_ppm Sample.quote_100_units) = Ok (Some q) /\
    toAmount q = AmountBN b /\ BN.to_Q b = None.
Proof.
  assert (H : exec Sample.quote_100_units
                (snd (Sample.outcome Sample.answers_zero_ppm Sample.quote_100_units))
                (fst (Sample.outcome Sample.answers_zero_ppm Sample.quote_100_units)))
    by exact (Sample_exec Sample.answers_zero_ppm Sample.quote_100_units).
  assert (Hppm : In (EvPPM {| ethers.address := presaleAddress (config Sample.provider);
                              ethers.provider := 0%nat |} (Ok 0))
                   (snd (Sample.outcome Sample.answers_zero_ppm Sample.quote_100_units)))
    by (vm_compute; auto 10).
  assert (Her : In (EvExchangeRate
                      {| ethers.address := presaleAddress (config Sample.provider);
                         ethers.provider := 0%nat |} (Ok 500000))
                   (snd (Sample.outcome Sample.answers_zero_ppm Sample.quote_100_units)))
    by (vm_compute; auto 10).
  split; [exact H|]. split; [exact Hppm|]. split; [exact Her|].
  exact (getQuote_zero_PPM Sample.provider "mainnet" "SOV" "ZERO" (BN.Fin 1 (-16)) _ _ _ _ _
           H Hppm Her).
Defined.

(** The quote of the sample deployment at a PPM of zero: 100 base units are
    quoted an infinite amount. *)
Example getQuote_zero_PPM_sample :
  fst (Sample.outcome Sample.answers_zero_ppm Sample.quote_100_units)
  = Ok (Some {| from := "SOV"; to := "ZERO";
                fromAmount := AmountString "100"; toAmount := AmountBN (BN.Inf false);
                fee := None; fromAccountId := None; toAccountId := None |}).
Proof. vm_compute. reflexivity. Qed.

(** X17: the guard [amount <= 0] of [getQuote] lets through an amount that is
    not a finite number: NaN, for which every comparison is false, and the
    positive infinity.  The quote returned then carries the amount as it is
    ("NaN", "Infinity") and a toAmount that is not a finite number either. *)
Theorem getQuote_not_finite this network from to amount t q :
  exec (getQuote this network from to amount) t (Ok (Some q)) ->
  BN.to_Q amount = None ->
  (amount = BN.NaN \/ amount = BN.Inf false) /\
  fromAmount q = AmountString (BN.toFixed amount) /\
  exists b, toAmount q = AmountBN b /\ BN.to_Q b = None.
Proof.
  intros H Hq. apply getQuote_returns in H.
  destruct H as (fromInfo & t1 & t2 & c & ppm & er & _ & _ & _ & Hle & _ & _ & ->).
  assert (Hcase : amount = BN.NaN \/ amount = BN.Inf false).
  { destruct amount as [c0 e0|[]|]; try discriminate; auto. }
  assert (Hu : currencyToUnit fromInfo amount = amount).
  { with_strategy transparent [currencyToUnit BN.of_BN BN.times]
      (unfold currencyToUnit, BN.of_BN, BN.times).
    rewrite BNArith.pow_10. destruct Hcase as [-> | ->]; reflexivity. }
  split; [exact Hcase|]. cbn [fromAmount toAmount]. rewrite Hu.
  split; [reflexivity|]. eexists. split; [reflexivity|].
  now apply times_not_finite_l.
Qed.

Lemma getQuote_not_finite_witness :
  exec Sample.quote_nan (snd (Sample.outcome Sample.answers Sample.quote_nan))
    (Ok (Some {| from := "SOV"; to := "ZERO";
                 fromAmount := AmountString "NaN"; toAmount := AmountBN BN.NaN;
                 fee := None; fromAccountId := None; toAccountId := None |})) /\
  BN.to_Q BN.NaN = None /\
  AmountString "NaN" = AmountString (BN.toFixed BN.NaN).
Proof.
  assert (H : exec Sample.quote_nan (snd (Sample.outcome Sample.answers Sample.quote_nan))
                (Ok (Some {| from := "SOV"; to := "ZERO";
                             fromAmount := AmountString "NaN"; toAmount := AmountBN BN.NaN;
                             fee := None; fromAccountId := None; toAccountId := None |})))
    by exact (Sample_exec Sample.answers Sample.quote_nan).
  split; [exact H|]. split; [reflexivity|].
  exact (proj1 (proj2 (getQuote_not_finite Sample.provider "mainnet" "SOV" "ZERO" BN.NaN _ _
                         H eq_refl))).
Defined.

(** ** What a step of the state machine submits *)

Lemma pollers_no_dispatch swap network walletId :
  (forall t res, exec (waitForApproveConfirmations swap network walletId) t res ->
     forall ev, In ev t -> is_dispatch ev = false) /\
  (forall t res, exec (waitForSwapConfirmations swap network walletId) t res ->
     forall ev, In ev t -> is_dispatch ev = false).
Proof.
  split; intros t res H ev Hin.
  - open_method waitForApproveConfirmations. unfold catch_TxNotFoundError in *.
    exec_inv; in_inv Hin; subst; reflexivity.
  - open_method waitForSwapConfirmations. unfold catch_TxNotFoundError in *.
    exec_inv; in_inv Hin; subst; reflexivity.
Qed.

(** X18: a step of the state machine submits at most one transaction, and none
    unless the swap is in state APPROVE_CONFIRMED: polling for
    confirmations never sends anything. *)
Theorem performNextSwapAction_dispatches this store network walletId swap t res :
  exec (performNextSwapAction this store network walletId swap) t res ->
  (length (dispatches t) <= 1)%nat /\
  (status swap <> "APPROVE_CONFIRMED"%string -> dispatches t = []).
Proof.
  intros H. open_method performNextSwapAction.
  destruct (pollers_no_dispatch swap network walletId) as [Ha Hs].
  destruct (String.eqb_spec (status swap) "WAITING_FOR_APPROVE_CONFIRMATIONS") as [E1|_].
  { unfold withInterval in H. rewrite (dispatches_none t) by (eapply Ha, H).
    split; [simpl; lia|reflexivity]. }
  destruct (String.eqb_spec (status swap) "APPROVE_CONFIRMED") as [E2|E2].
  { split; [|contradiction].
    apply exec_withLock in H. destruct H as (t' & H & ->).
    apply exec_bind in H.
    assert (Hd : (length (dispatches t') <= 1)%nat).
    { destruct H as [(e & H & _)|(u & t1 & t2 & H1 & H2 & ->)].
      - eapply sendSwap_dispatches, H.
      - cbn in H2. destruct H2 as [-> _]. rewrite app_nil_r.
        eapply sendSwap_dispatches, H1. }
    change (EvLockAcquire (network, from swap) :: t' ++ [EvLockRelease (network, from swap)])
      with ([EvLockAcquire (network, from swap)] ++ t' ++ [EvLockRelease (network, from swap)]).
    rewrite !dispatches_app. cbn. rewrite app_nil_r. exact Hd. }
  destruct (String.eqb_spec (status swap) "WAITING_FOR_SWAP_CONFIRMATIONS") as [E3|_].
  { unfold withInterval in H. rewrite (dispatches_none t) by (eapply Hs, H).
    split; [simpl; lia|reflexivity]. }
  destruct H as [-> _]. split; [simpl; lia|reflexivity].
Qed.

Lemma performNextSwapAction_dispatches_witness :
  exec Sample.submit (snd (Sample.outcome Sample.answers Sample.submit))
    (fst (Sample.outcome Sample.answers Sample.submit)) /\
  (length (dispatches (snd (Sample.outcome Sample.answers Sample.submit))) <= 1)%nat.
Proof.
  split; [apply Sample_exec|].
  exact (proj1 (performNextSwapAction_dispatches Sample.provider tt "mainnet" "wallet"
                  (Sample.swap100 "APPROVE_CONFIRMED") _ _
                  (Sample_exec Sample.answers Sample.submit))).
Defined.

(** ** The gas estimate of the approval *)

(** An event that is in no trace made of the traces of [_getApi] and of
    explicit events of other kinds. *)
Ltac absent_tac Hin :=
  simpl in Hin;
  repeat first
    [ contradiction
    | discriminate Hin
    | destruct Hin as [Hin|Hin]; [try discriminate Hin|]
    | apply in_app_or in Hin; destruct Hin as [Hin|Hin]
    | match goal with
      | H : exec (_getApi _ _ _) ?t _ |- _ =>
          pose proof (_getApi_events _ _ _ _ _ H _ Hin); discriminate
      end ].

(** X19: the gas of the approval is estimated on the transaction that
    [buildApprovalTx] builds.  The call of estimateGas ends the trace and
    follows the lookup of the unused addresses made by [buildApprovalTx],
    with only the RPC provider fetched in between; the raw transaction
    handed to estimateGas has the first of these addresses as its sender,
    the token contract as recipient, the call data of
    approve(spender, amount), and the value "0x0". *)
Theorem estimateFees_raw_approval this network walletId asset txType (quote : Quote)
    feePrices t res client rawTx r :
  exec (estimateFees this network walletId asset txType quote feePrices) t res ->
  In (EvEstimateGas client rawTx r) t ->
  exists t0 addresses ta info owner v data,
    t = t0 ++ EvGetUnusedAddresses network walletId [from quote] (toAccountId quote)
                (Ok addresses) :: ta ++ [EvEstimateGas client rawTx r] /\
    (forall ev, In ev ta -> is_api_event ev = true) /\
    head addresses = Some owner /\
    cryptoassets this !! from quote = Some info /\
    BN_ (fromAmount quote) = BN.of_Z v /\
    encodeFunctionData this "approve"
      [ethers.ArgAddress (JsString.toLowerCase (presaleAddress (config this)));
       ethers.ArgUint v] = Ok data /\
    rawTx = {| RawTx.from := Some owner;
               RawTx.to := contractAddress info;
               RawTx.data := data;
               RawTx.value := "0x0" |}.
Proof.
  open_method estimateFees. intros H Hin.
  assert (Hreq : forall t1 b, exec (requiresApproval this network walletId quote) t1 b ->
                   ~ In (EvEstimateGas client rawTx r) t1).
  { intros t1 b H1 Hin1. open_method requiresApproval. open_method inputAmount_of.
    exec_inv; absent_tac Hin1. }
  assert (Hbuild : forall t3 b, exec (buildApprovalTx this network walletId quote) t3 b ->
                     ~ In (EvEstimateGas client rawTx r) t3).
  { intros t3 b H3 Hin3. open_method buildApprovalTx. open_method inputAmount_of.
    exec_inv; absent_tac Hin3. }
  exec_inv;
    repeat match goal with
      | H : exec (estimateFees_loop _ _ _ _ _) _ _ |- _ =>
          apply estimateFees_loop_trace in H; subst
      end;
    rewrite ?app_nil_r in Hin; simpl in Hin;
    repeat first
      [ contradiction
      | discriminate Hin
      | destruct Hin as [Hin|Hin]; [try discriminate Hin|]
      | apply in_app_or in Hin; destruct Hin as [Hin|Hin]
      | match goal with
        | H : exec (requiresApproval _ _ _ _) ?t _ |- _ =>
            exfalso; exact (Hreq _ _ H Hin)
        end
      | match goal with
        | H : exec (buildApprovalTx _ _ _ _) ?t _ |- _ =>
            exfalso; exact (Hbuild _ _ H Hin)
        end ].
  all: injection Hin as <- <- <-.
  all: match goal with H : exec (buildApprovalTx _ _ _ _) _ (Ok _) |- _ =>
         apply buildApprovalTx_built in H;
         destruct H as (addresses & ta & info & owner & v & data
                        & -> & Hta & Hhead & Hinfo & Hv & Hdata & ->) end.
  all: rewrite ?app_nil_r.
  all: match goal with
       | |- context [?a :: ?b :: ?t1 ++ (_ :: _) ++ _] => exists (a :: b :: t1)
       end.
  all: exists addresses, ta, info, owner, v, data; repeat split; auto.
Qed.

Lemma estimateFees_raw_approval_witness :
  exec Sample.fees (snd (Sample.outcome Sample.answers Sample.fees))
    (fst (Sample.outcome Sample.answers Sample.fees)) /\
  exists client rawTx,
    In (EvEstimateGas client rawTx (Ok 50000))
       (snd (Sample.outcome Sample.answers Sample.fees)) /\
    exists t0 addresses ta info owner v data,
      snd (Sample.outcome Sample.answers Sample.fees)
      = t0 ++ EvGetUnusedAddresses "mainnet" "wallet" ["SOV"%string] None (Ok addresses)
              :: ta ++ [EvEstimateGas client rawTx (Ok 50000)] /\
      (forall ev, In ev ta -> is_api_event ev = true) /\
      head addresses = Some owner /\
      cryptoassets Sample.provider !! "SOV"%string = Some info /\
      BN_ (AmountString "100") = BN.of_Z v /\
      encodeFunctionData Sample.provider "approve"
        [ethers.ArgAddress
           (JsString.toLowerCase (presaleAddress (config Sample.provider)));
         ethers.ArgUint v] = Ok data /\
      rawTx = {| RawTx.from := Some owner;
                 RawTx.to := contractAddress info;
                 RawTx.data := data;
                 RawTx.value := "0x0" |}.
Proof.
  split; [apply Sample_exec|].
  eexists _, _.
  assert (Hin : In (EvEstimateGas 7%nat
                      {| RawTx.from := Some "0xAAaa000000000000000000000000000000000001"%string;
                         RawTx.to := contractAddress Sample.SOV;
                         RawTx.data := "0xapprove";
                         RawTx.value := "0x0" |} (Ok 50000))
                   (snd (Sample.outcome Sample.answers Sample.fees)))
    by (vm_compute; auto 20).
  split; [exact Hin|].
  exact (estimateFees_raw_approval Sample.provider "mainnet" "wallet" "SOV" "SWAP"
           Sample.quote100 [BN.Fin 5 0; BN.Fin 1 1] _ _ _ _ _
           (Sample_exec Sample.answers Sample.fees) Hin).
Defined.

(** On the sample deployment the sender of the estimated transaction is the
    address the wallet answered. *)
Example estimateFees_sender :
  exists t0,
    snd (Sample.outcome Sample.answers Sample.fees)
    = t0 ++ [EvGetUnusedAddresses "mainnet" "wallet" ["SOV"%string] None
               (Ok ["0xAAaa000000000000000000000000000000000001"%string]);
             EvApiCacheGet 30 (Some 0%nat);
             EvEstimateGas 7%nat
               {| RawTx.from := Some "0xAAaa000000000000000000000000000000000001"%string;
                  RawTx.to := contractAddress Sample.SOV;
                  RawTx.data := "0xapprove";
                  RawTx.value := "0x0" |} (Ok 50000)].
Proof.
  exists (firstn 7 (snd (Sample.outcome Sample.answers Sample.fees))).
  vm_compute. reflexivity.
Qed.

(** ** The fees *)

(** The rounded quotient is a nearest integer, whatever the sign of the
    dividend. *)
Lemma round_half_up_div_near n d :
  0 < d -> 2 * Z.abs (BN.round_half_up_div n d * d - n) <= d.
Proof.
  intros Hd. destruct (Z.le_gt_cases 0 n) as [Hn|Hn].
  - now apply BNArith.round_half_up_div_nearest.
  - pose proof (BNArith.round_half_up_div_nearest (- n) d ltac:(lia) Hd) as H.
    assert (E : BN.round_half_up_div n d = - BN.round_half_up_div (- n) d).
    { with_strategy transparent [BN.round_half_up_div] (unfold BN.round_half_up_div).
      rewrite Z.abs_opp, Z.sgn_opp. ring. }
    rewrite E. lia.
Qed.

(** A fee price that is not a number gives a fee that is not a number. *)
Lemma fee_in_native_not_finite native gasBudget feePrice :
  BN.to_Q feePrice = None ->
  BN.to_Q (fee_in_native native gasBudget feePrice) = None.
Proof.
  intros H. unfold fee_in_native.
  with_strategy transparent [unitToCurrency] (unfold unitToCurrency).
  rewrite (BNFacts.of_BN_canonical (BN.times _ _)) by apply BNArith.canonical_times.
  rewrite BNArith.pow_10.
  assert (Hp : BN.to_Q (BN.times (BN.times (BN.of_Z gasBudget) (BN.mk 11 (-1)))
                          (BN.times (BN.of_BN feePrice) (BN.of_Z (10 ^ 9)))) = None).
  { apply times_not_finite, times_not_finite_l.
    destruct feePrice; [discriminate|reflexivity|reflexivity]. }
  destruct (BN.times _ _) as [c e|n|]; [discriminate| |];
    with_strategy transparent [BN.dividedBy] (cbn [BN.dividedBy]); reflexivity.
Qed.

(** C7: [estimateFees] raises at once, before any call, for a transaction
    type other than SWAP.  Otherwise, when it returns, the gas budget is
    750,000 when no approval is required, and 750,000 plus the gas estimated
    for the raw form (sender, recipient and call data, value "0x0") of the
    transaction [buildApprovalTx] builds when one is.  Every candidate fee
    price c * 10^e, in gwei, is mapped to the fee
    gasBudget * 1.1 * feePrice * 10^9 / 10^decimals in the unit of the
    chain's native asset, that is gasBudget * 11 * c * 10^(e + 8 - decimals):
    exactly when this has at most 20 decimal places, and rounded to a
    nearest multiple of 10^-20, ties away from zero, when it has more.  A
    fee price that is not a number gives a fee that is not a number. *)
Theorem estimateFees_spec this network walletId asset txType (quote : Quote)
    feePrices t res :
  exec (estimateFees this network walletId asset txType quote feePrices) t res ->
  (txType <> "SWAP"%string ->
   t = [] /\ res = Err (Error ("Invalid tx type " ++ txType))) /\
  (txType = "SWAP"%string ->
   forall fees, res = Ok fees ->
     exists account client t1 t2 approve gasBudget,
       t = [EvGetAccount (fromAccountId quote) (Ok account);
            EvGetClient network walletId (from quote) (type <$> account) (Ok client)]
           ++ t1 ++ t2 /\
       exec (requiresApproval this network walletId quote) t1 (Ok approve) /\
       (approve = false -> t2 = [] /\ gasBudget = 750000) /\
       (approve = true ->
        exists t3 approvalTx gas,
          exec (buildApprovalTx this network walletId quote) t3 (Ok approvalTx) /\
          t2 = t3 ++ [EvEstimateGas client
                        {| RawTx.from := TxData.from approvalTx;
                           RawTx.to := TxData.to approvalTx;
                           RawTx.data := TxData.data approvalTx;
                           RawTx.value := "0x0" |} (Ok gas)] /\
          gasBudget = 750000 + gas) /\
       forall feePrice, In feePrice feePrices ->
         exists info chainInfo native,
           cryptoassets this !! asset = Some info /\
           chains this !! chain info = Some chainInfo /\
           cryptoassets this !! nativeAsset chainInfo = Some native /\
           fees !! feePrice = Some (BN.toFixed (fee_in_native native gasBudget feePrice)) /\
           (forall c e, feePrice = BN.Fin c e ->
              let k := e + 8 - Z.of_nat (decimals native) in
              let scale := 10 ^ (- 20 - k) in
              (-20 <= k ->
               fee_in_native native gasBudget feePrice = BN.mk (gasBudget * 11 * c) k) /\
              (k < -20 ->
               fee_in_native native gasBudget feePrice =
               BN.mk (BN.round_half_up_div (gasBudget * 11 * c) scale) (-20) /\
               2 * Z.abs (BN.round_half_up_div (gasBudget * 11 * c) scale * scale
                          - gasBudget * 11 * c) <= scale)) /\
           (BN.to_Q feePrice = None ->
            BN.to_Q (fee_in_native native gasBudget feePrice) = None)).
Proof.
  open_method estimateFees. unfold fromTxType. intros H. split.
  - intros Hne. destruct (String.eqb_spec txType "SWAP") as [|_]; [contradiction|].
    exact H.
  - intros -> fees ->. cbn [String.eqb Ascii.eqb Bool.eqb negb] in H.
    assert (Hfee : forall native gasBudget feePrice,
      (forall c e, feePrice = BN.Fin c e ->
         let k := e + 8 - Z.of_nat (decimals native) in
         let scale := 10 ^ (- 20 - k) in
         (-20 <= k ->
          fee_in_native native gasBudget feePrice = BN.mk (gasBudget * 11 * c) k) /\
         (k < -20 ->
          fee_in_native native gasBudget feePrice =
          BN.mk (BN.round_half_up_div (gasBudget * 11 * c) scale) (-20) /\
          2 * Z.abs (BN.round_half_up_div (gasBudget * 11 * c) scale * scale
                     - gasBudget * 11 * c) <= scale)) /\
      (BN.to_Q feePrice = None ->
       BN.to_Q (fee_in_native native gasBudget feePrice) = None)).
    { intros native gasBudget feePrice. split.
      - intros c e -> k scale. split.
        + intros Hk. now apply fee_in_native_exact.
        + intros Hk. split; [now apply fee_in_native_rounded|].
          apply round_half_up_div_near. apply Z.pow_pos_nonneg; lia.
      - apply fee_in_native_not_finite. }
    exec_inv; try discriminate.
    all: try match goal with H : Ok _ = Ok _ |- _ => injection H as -> end.
    all: apply estimateFees_loop_spec in H; destruct H as (-> & Hnat & Hfees).
    all: eexists _, _, _, _, _, _.
    all: split; [cbn [app]; reflexivity|]; split; [eassumption|].
    + split; [discriminate|].
      split.
      { intros _.
        match goal with
        | H : exec (buildApprovalTx _ _ _ _) _ (Ok _) |- _ =>
            destruct (buildApprovalTx_returns _ _ _ _ _ _ H)
              as (info0 & owner & v & data & _ & _ & _ & ->)
        end.
        eexists _, _, _. split; [eassumption|].
        split; [apply app_nil_r|]. apply Z.add_comm. }
      intros feePrice Hin.
      destruct Hnat as [native Hnative]; [intros ->; contradiction|].
      eexists _, _, native. split; [reflexivity|]. split; [eassumption|].
      split; [eassumption|]. split; [|apply Hfee].
      rewrite Hfees, Hnative.
      destruct (decide (feePrice ∈ feePrices)) as [_|Hn]; [reflexivity|].
      exfalso. apply Hn. now apply list_elem_of_In.
    + split; [auto|]. split; [discriminate|].
      intros feePrice Hin.
      destruct Hnat as [native Hnative]; [intros ->; contradiction|].
      eexists _, _, native. split; [reflexivity|]. split; [eassumption|].
      split; [eassumption|]. split; [|apply Hfee].
      rewrite Hfees, Hnative.
      destruct (decide (feePrice ∈ feePrices)) as [_|Hn]; [reflexivity|].
      exfalso. apply Hn. now apply list_elem_of_In.
Qed.

Lemma estimateFees_spec_witness :
  exec Sample.fees_tiny (snd (Sample.outcome Sample.answers Sample.fees_tiny))
    (fst (Sample.outcome Sample.answers Sample.fees_tiny)) /\
  forall fees, fst (Sample.outcome Sample.answers Sample.fees_tiny) = Ok fees ->
    exists account client t1 t2 approve gasBudget,
      snd (Sample.outcome Sample.answers Sample.fees_tiny)
      = [EvGetAccount None (Ok account);
         EvGetClient "mainnet" "wallet" "SOV" (type <$> account) (Ok client)]
        ++ t1 ++ t2 /\
      exec (requiresApproval Sample.provider "mainnet" "wallet" Sample.quote100)
        t1 (Ok approve) /\
      (approve = false -> t2 = [] /\ gasBudget = 750000) /\
      (approve = true ->
       exists t3 approvalTx gas,
         exec (buildApprovalTx Sample.provider "mainnet" "wallet" Sample.quote100)
           t3 (Ok approvalTx) /\
         t2 = t3 ++ [EvEstimateGas client
                       {| RawTx.from := TxData.from approvalTx;
                          RawTx.to := TxData.to approvalTx;
                          RawTx.data := TxData.data approvalTx;
                          RawTx.value := "0x0" |} (Ok gas)] /\
         gasBudget = 750000 + gas) /\
      forall feePrice, In feePrice [BN.Fin 1 (-16); BN.Fin 1 (-18)] ->
        exists info chainInfo native,
          cryptoassets Sample.provider !! "SOV"%string = Some info /\
          chains Sample.provider !! chain info = Some chainInfo /\
          cryptoassets Sample.provider !! nativeAsset chainInfo = Some native /\
          fees !! feePrice = Some (BN.toFixed (fee_in_native native gasBudget feePrice)) /\
          (forall c e, feePrice = BN.Fin c e ->
             let k := e + 8 - Z.of_nat (decimals native) in
             let scale := 10 ^ (- 20 - k) in
             (-20 <= k ->
              fee_in_native native gasBudget feePrice = BN.mk (gasBudget * 11 * c) k) /\
             (k < -20 ->
              fee_in_native native gasBudget feePrice =
              BN.mk (BN.round_half_up_div (gasBudget * 11 * c) scale) (-20) /\
              2 * Z.abs (BN.round_half_up_div (gasBudget * 11 * c) scale * scale
                         - gasBudget * 11 * c) <= scale)) /\
          (BN.to_Q feePrice = None ->
           BN.to_Q (fee_in_native native gasBudget feePrice) = None).
Proof.
  split; [apply Sample_exec|].
  exact (proj2 (estimateFees_spec Sample.provider "mainnet" "wallet" "SOV" "SWAP"
                  Sample.quote100 [BN.Fin 1 (-16); BN.Fin 1 (-18)] _ _
                  (Sample_exec Sample.answers Sample.fees_tiny)) eq_refl).
Defined.

(** C7, as stated, fails: at the budget of 800,000 gas (750,000 and an
    approval estimated at 50,000) the fee price of 10^-18 gwei is mapped to
    the fee "0", and 10^-16 gwei to 9 * 10^-20, while
    gasBudget * 1.1 * feePrice * 10^9 / 10^18 is 8.8 * 10^-22 and
    8.8 * 10^-20. *)
Lemma estimateFees_fee_is_rounded :
  exists fees t,
    Sample.outcome Sample.answers Sample.fees_tiny = (Ok fees, t) /\
    (exists client rawTx, In (EvEstimateGas client rawTx (Ok 50000)) t) /\
    fees !! BN.Fin 1 (-18) = Some "0"%string /\
    fees !! BN.Fin 1 (-16) = Some "0.00000000000000000009"%string /\
    ~ (BN.value 0 0
       == inject_Z (750000 + 50000) * (11 # 10) * BN.value 1 (-18)
          * inject_Z (10 ^ 9) / inject_Z (10 ^ 18))%Q /\
    ~ (BN.value 9 (-20)
       == inject_Z (750000 + 50000) * (11 # 10) * BN.value 1 (-16)
          * inject_Z (10 ^ 9) / inject_Z (10 ^ 18))%Q.
Proof.
  eexists _, _. split; [vm_compute; reflexivity|].
  split; [eexists _, _; simpl; eauto 20|].
  split; [vm_compute; reflexivity|]. split; [vm_compute; reflexivity|].
  split; vm_compute; discriminate.
Qed.

(* ===================================================================== *)
(** * The request for origin access                                       *)
(* ===================================================================== *)

Module OriginAccessFacts.
Import OriginAccess.

(** A settled promise stays as it is, whatever is delivered. *)
Lemma promise_settled origin signals : forall r,
  promise r <> Pending -> promise (foldl (deliver origin) r signals) = promise r.
Proof.
  induction signals as [|s signals IH]; intros r Hr; [reflexivity|]. cbn [foldl].
  assert (Hs : promise (deliver origin r s) = promise r).
  { destruct s as [allowed accountId ch wallet|]; cbn.
    - destruct (listening r); [|reflexivity].
      destruct allowed; cbn; destruct (promise r) eqn:E; cbn; congruence.
    - destruct (popup r); [|reflexivity]. cbn.
      destruct (promise r) eqn:E; cbn; congruence. }
  rewrite IH; [exact Hs|congruence].
Qed.

(** A call without listeners is not affected by signals. *)
Lemma deliver_idle origin signals : forall r,
  listening r = false -> popup r = false -> foldl (deliver origin) r signals = r.
Proof.
  induction signals as [|s signals IH]; intros r Hl Hp; [reflexivity|]. cbn [foldl].
  assert (Hs : deliver origin r s = r)
    by (destruct s; cbn; rewrite ?Hl, ?Hp; reflexivity).
  rewrite Hs. now apply IH.
Qed.

Lemma flag_inv_deliver origin r s : flag_inv r -> flag_inv (deliver origin r s).
Proof.
  intros (k & Hf & Hp).
  assert (Hrun : forall evs q,
            flags evs = [false] -> q <> Pending ->
            exists k', flags (effects r ++ evs) = true :: replicate k' false /\
                       (settle (promise r) q = Pending <-> k' = 0%nat)).
  { intros evs q Hevs Hq. exists (S k). unfold flags in *. rewrite omap_app, Hf, Hevs.
    rewrite replicate_S_end. split; [reflexivity|].
    split; [|discriminate]. intros Hs. exfalso.
    destruct (promise r); cbn in Hs; congruence. }
  destruct s as [allowed accountId ch wallet|]; cbn.
  - destruct (listening r); [|exists k; auto].
    destruct allowed; cbn; apply Hrun; try reflexivity; discriminate.
  - destruct (popup r); [|exists k; auto]. cbn. apply Hrun; [reflexivity|discriminate].
Qed.

Lemma flag_inv_run origin signals : forall r,
  flag_inv r -> flag_inv (foldl (deliver origin) r signals).
Proof.
  induction signals as [|s signals IH]; intros r Hr; [exact Hr|].
  cbn [foldl]. apply IH, flag_inv_deliver, Hr.
Qed.

(** The connections committed once the listener of the origin event has
    been removed are those committed before. *)
Lemma connections_deaf origin m signals : forall r,
  listening r = false ->
  In (Commit m) (effects (foldl (deliver origin) r signals)) ->
  In (Commit m) (effects r) \/ m = SET_ORIGIN_ACCESS_ACTIVE false.
Proof.
  induction signals as [|s signals IH]; intros r Hl Hin; [now left|].
  cbn [foldl] in Hin. destruct s as [allowed accountId ch wallet|]; cbn in Hin.
  - rewrite Hl in Hin. now apply IH.
  - destruct (popup r); [|now apply IH]. cbn in Hin.
    apply IH in Hin; [|exact Hl]. cbn in Hin. destruct Hin as [Hin|Hin]; [|now right].
    apply in_app_or in Hin. destruct Hin as [Hin|[[= <-]|[]]]; auto.
Qed.

Lemma effects_grow origin signals : forall r ev,
  In ev (effects r) -> In ev (effects (foldl (deliver origin) r signals)).
Proof.
  induction signals as [|s signals IH]; intros r ev Hin; [exact Hin|].
  cbn [foldl]. apply IH. destruct s as [allowed accountId ch wallet|]; cbn.
  - destruct (listening r); [|exact Hin]. destruct allowed; cbn; apply in_or_app; now left.
  - destruct (popup r); [|exact Hin]. cbn. apply in_or_app; now left.
Qed.

Lemma connection_listening origin o w a c signals : forall r,
  listening r = true -> popup r = true ->
  In (Commit (ADD_EXTERNAL_CONNECTION o w a c))
     (effects (foldl (deliver origin) r signals)) <->
  In (Commit (ADD_EXTERNAL_CONNECTION o w a c)) (effects r) \/
  (o = origin /\ first_emitted signals = Some (Emitted true a c w)).
Proof.
  induction signals as [|s signals IH]; intros r Hl Hp.
  - cbn. split; [auto|]. intros [H|[_ [=]]]. exact H.
  - cbn [foldl]. destruct s as [allowed accountId ch wallet|].
    + unfold first_emitted. cbn [List.find is_emitted].
      set (r' := deliver origin r (Emitted allowed accountId ch wallet)).
      assert (Hl' : listening r' = false) by (unfold r'; cbn; rewrite Hl; destruct allowed; reflexivity).
      assert (Hr' : In (Commit (ADD_EXTERNAL_CONNECTION o w a c)) (effects r') <->
                    In (Commit (ADD_EXTERNAL_CONNECTION o w a c)) (effects r) \/
                    (o = origin /\ Some (Emitted allowed accountId ch wallet)
                                   = Some (Emitted true a c w))).
      { unfold r'. cbn. rewrite Hl. destruct allowed; cbn; rewrite in_app_iff; cbn.
        - split.
          + intros [H|[[=]|[[= <- <- <- <-]|[]]]]; auto.
          + intros [H|[-> [= <- <- <-]]]; auto.
        - split.
          + intros [H|[[=]|[]]]; auto.
          + intros [H|[_ [=]]]; auto. }
      rewrite <- Hr'. split.
      * intros H. apply connections_deaf in H; [|exact Hl'].
        destruct H as [H|[=]]. exact H.
      * apply effects_grow.
    + unfold first_emitted. cbn [List.find is_emitted].
      assert (Hl' : listening (deliver origin r PopupClosed) = true)
        by (cbn; rewrite Hp; exact Hl).
      assert (Hp' : popup (deliver origin r PopupClosed) = true)
        by (cbn; rewrite Hp; reflexivity).
      rewrite (IH _ Hl' Hp').
      cbn. rewrite Hp. cbn. rewrite in_app_iff. cbn.
      split.
      * intros [[H|[[=]|[]]]|H]; auto.
      * intros [H|H]; auto.
Qed.

End OriginAccessFacts.

(** X20: the flag of [requestOriginAccess].  When a request is active already,
    the action only logs: it commits nothing, dispatches nothing, opens no
    popup, and its promise resolves with undefined.  Otherwise it sets the
    flag once, and every way out resets it: the failure of the unlock, and
    each listener that runs; the promise is pending exactly as long as the
    flag has not been reset. *)
Theorem requestOriginAccess_flag stringify active unlock origin chain signals :
  let r := OriginAccess.run stringify active unlock origin chain signals in
  if active : bool
  then OriginAccess.effects r = [OriginAccess.ConsoleLog origin chain] /\
       OriginAccess.promise r = OriginAccess.Resolved None
  else exists k,
         OriginAccess.flags (OriginAccess.effects r) = true :: replicate k false /\
         (OriginAccess.promise r = OriginAccess.Pending <-> k = 0%nat).
Proof.
  cbn zeta. unfold OriginAccess.run. destruct active.
  - rewrite OriginAccessFacts.deliver_idle by reflexivity. split; reflexivity.
  - apply OriginAccessFacts.flag_inv_run. destruct unlock as [u|e].
    + exists 0%nat. split; [reflexivity|]. split; reflexivity.
    + exists 1%nat. split; [reflexivity|]. split; discriminate.
Qed.

(** X21: the promise of [requestOriginAccess] is settled by the first signal
    that reaches it and by none after it.  An origin event that allows the
    access resolves it with accepted and with the chain of the event, which
    need not be the chain that was requested; a refusal and the closing of
    the popup reject it with the error User denied. *)
Theorem requestOriginAccess_settles_once stringify u origin chain s rest :
  OriginAccess.promise
    (OriginAccess.run stringify false (Ok u) origin chain (s :: rest)) =
  match s with
  | OriginAccess.Emitted true _ chosen _ =>
      OriginAccess.Resolved
        (Some {| OriginAccess.accepted := true; OriginAccess.chain := chosen |})
  | _ => OriginAccess.Rejected (Error "User denied")
  end.
Proof.
  unfold OriginAccess.run. cbn [foldl].
  rewrite OriginAccessFacts.promise_settled.
  - destruct s as [[] accountId ch wallet|]; reflexivity.
  - destruct s as [[] accountId ch wallet|]; discriminate.
Qed.

(** X22: the connection of an origin is committed exactly when the first origin
    event that reaches the call allows the access, with the account and the
    chain of that event and the wallet active at that moment.  The closing
    of the popup does not remove the listener: an approval that arrives
    after it still commits the connection, although the promise has been
    rejected. *)
Theorem requestOriginAccess_connection stringify active unlock origin chain signals
    o w a c :
  In (OriginAccess.Commit (OriginAccess.ADD_EXTERNAL_CONNECTION o w a c))
     (OriginAccess.effects
        (OriginAccess.run stringify active unlock origin chain signals)) <->
  active = false /\ (exists u, unlock = Ok u) /\ o = origin /\
  OriginAccess.first_emitted signals = Some (OriginAccess.Emitted true a c w).
Proof.
  unfold OriginAccess.run. destruct active.
  - rewrite OriginAccessFacts.deliver_idle by reflexivity. cbn.
    split; [intros [[=]|[]]|intros [[=] _]].
  - destruct unlock as [u|e].
    + rewrite OriginAccessFacts.connection_listening by reflexivity. cbn. split.
      * intros [[[=]|[[=]|[[=]|[[=]|[[=]|[]]]]]]|[-> H]]. eauto.
      * intros (_ & _ & -> & H). auto.
    + rewrite OriginAccessFacts.deliver_idle by reflexivity. cbn. split.
      * intros [[=]|[[=]|[[=]|[[=]|[]]]]].
      * intros (_ & (u & [=]) & _).
Qed.

Lemma requestOriginAccess_connection_witness :
  let stringify := fun origin chain => ("origin=" ++ origin ++ "&chain=" ++ chain)%string in
  let signals := [OriginAccess.PopupClosed;
                  OriginAccess.Emitted true "account-1" "rsk" "wallet-1"] in
  (false = false /\ (exists u, Ok tt = Ok u) /\
   "https://app.example"%string = "https://app.example"%string /\
   OriginAccess.first_emitted signals
   = Some (OriginAccess.Emitted true "account-1" "rsk" "wallet-1")) /\
  In (OriginAccess.Commit
        (OriginAccess.ADD_EXTERNAL_CONNECTION "https://app.example" "wallet-1"
           "account-1" "rsk"))
     (OriginAccess.effects
        (OriginAccess.run stringify false (Ok tt) "https://app.example" "bitcoin" signals)) /\
  OriginAccess.promise
    (OriginAccess.run stringify false (Ok tt) "https://app.example" "bitcoin" signals)
  = OriginAccess.Rejected (Error "User denied").
Proof.
  intros stringify signals.
  assert (H : false = false /\ (exists u, Ok tt = Ok u) /\
              "https://app.example"%string = "https://app.example"%string /\
              OriginAccess.first_emitted signals
              = Some (OriginAccess.Emitted true "account-1" "rsk" "wallet-1"))
    by (repeat split; eauto).
  split; [exact H|]. split; [|reflexivity].
  exact (proj2 (requestOriginAccess_connection stringify false (Ok tt)
                  "https://app.example" "bitcoin" signals
                  "https://app.example" "wallet-1" "account-1" "rsk") H).
Defined.

(** X23: when the wallet cannot be unlocked, [requestOriginAccess] resets the
    flag and rejects with the error of the unlock.  It has opened no popup
    and registered no listener, so nothing that happens afterwards has an
    effect on the store. *)
Theorem requestOriginAccess_unlock_failure stringify e origin chain signals :
  let r := OriginAccess.run stringify false (Err e) origin chain signals in
  OriginAccess.effects r =
    [OriginAccess.ConsoleLog origin chain;
     OriginAccess.Commit (OriginAccess.SET_ORIGIN_ACCESS_ACTIVE true);
     OriginAccess.Dispatch "requestUnlockWallet" (Err e);
     OriginAccess.Commit (OriginAccess.SET_ORIGIN_ACCESS_ACTIVE false)] /\
  OriginAccess.promise r = OriginAccess.Rejected e.
Proof.
  cbn zeta. unfold OriginAccess.run.
  rewrite OriginAccessFacts.deliver_idle by reflexivity. split; reflexivity.
Qed.

Example requestOriginAccess_accepted :
  let stringify := fun origin chain => ("origin=" ++ origin ++ "&chain=" ++ chain)%string in
  OriginAccess.run stringify false (Ok tt) "https://app.example" "bitcoin"
    [OriginAccess.Emitted true "account-1" "rsk" "wallet-1"; OriginAccess.PopupClosed]
  = {| OriginAccess.effects :=
         [OriginAccess.ConsoleLog "https://app.example" "bitcoin";
          OriginAccess.Commit (OriginAccess.SET_ORIGIN_ACCESS_ACTIVE true);
          OriginAccess.Dispatch "requestUnlockWallet" (Ok tt);
          OriginAccess.Once "origin:https://app.example";
          OriginAccess.CreatePopup "/enable?origin=https://app.example&chain=bitcoin";
          OriginAccess.Commit (OriginAccess.SET_ORIGIN_ACCESS_ACTIVE false);
          OriginAccess.Commit
            (OriginAccess.ADD_EXTERNAL_CONNECTION "https://app.example" "wallet-1"
               "account-1" "rsk");
          OriginAccess.Commit (OriginAccess.SET_ORIGIN_ACCESS_ACTIVE false)];
       OriginAccess.promise :=
         OriginAccess.Resolved
           (Some {| OriginAccess.accepted := true; OriginAccess.chain := "rsk" |});
       OriginAccess.listening := false;
       OriginAccess.popup := true |}.
Proof. reflexivity. Qed.

(* ===================================================================== *)
(** * Quotes, once more                                                   *)
(* ===================================================================== *)

(** X24: a quote is refused for the reasons the code spells out and for no
    other: when [getQuote] returns null, the source or the target asset is
    not on rsk, or the JavaScript comparison [amount <= 0] holds, or the
    pair is not SOV -> ZERO, or the presale contract has answered that the
    sale is closed. *)
Theorem getQuote_null_only_if this network from to amount t :
  exec (getQuote this network from to amount) t (Ok None) ->
  exists fromInfo,
    cryptoassets this !! from = Some fromInfo /\
    (chain fromInfo <> "rsk"%string \/
     (exists toInfo, cryptoassets this !! to = Some toInfo /\
        (chain toInfo <> "rsk"%string \/
         BN.js_le_zero amount = true \/
         (from, to) <> ("SOV", "ZERO")%string \/
         exists c, In (EvIsClosed c (Ok true)) t))).
Proof.
  open_method getQuote. intros H.
  destruct (cryptoassets this !! from) as [fromInfo|] eqn:Hfrom; cbn in H;
    [|destruct H; discriminate].
  exists fromInfo. split; [reflexivity|].
  destruct (String.eqb_spec (chain fromInfo) "rsk") as [E1|E1]; cbn in H; [|now left].
  right.
  destruct (cryptoassets this !! to) as [toInfo|] eqn:Hto; cbn in H;
    [|destruct H; discriminate].
  exists toInfo. split; [reflexivity|].
  destruct (String.eqb_spec (chain toInfo) "rsk") as [E2|E2]; cbn in H; [|now left].
  right.
  destruct (BN.js_le_zero amount) eqn:Ele; cbn in H; [now left|]. right.
  destruct (String.eqb_spec from "SOV") as [E3|E3]; cbn in H; [|left; congruence].
  destruct (String.eqb_spec to "ZERO") as [E4|E4]; cbn in H; [|left; congruence].
  right.
  apply exec_bind in H. destruct H as [(e & _ & [=])|(b & t1 & t2 & H1 & H2 & ->)].
  destruct b; cbn in H2.
  - apply checkSaleClosed_spec in H1. destruct H1 as [_ H1].
    destruct (H1 true eq_refl) as (t0 & c & ->). exists c.
    apply in_or_app. left. apply in_or_app. right. now left.
  - apply exec_bind in H2. destruct H2 as [(e & _ & [=])|(r & t3 & t4 & _ & H3 & _)].
    cbn in H3. destruct H3 as [_ [=]].
Qed.

Lemma getQuote_null_only_if_witness :
  exec Sample.quote_unsupported_pair
    (snd (Sample.outcome Sample.answers Sample.quote_unsupported_pair)) (Ok None) /\
  exists fromInfo,
    cryptoassets Sample.provider !! "SOV"%string = Some fromInfo /\
    (chain fromInfo <> "rsk"%string \/
     (exists toInfo, cryptoassets Sample.provider !! "RBTC"%string = Some toInfo /\
        (chain toInfo <> "rsk"%string \/
         BN.js_le_zero (BN.Fin 1 0) = true \/
         ("SOV", "RBTC")%string <> ("SOV", "ZERO")%string \/
         exists c, In (EvIsClosed c (Ok true))
                     (snd (Sample.outcome Sample.answers Sample.quote_unsupported_pair))))).
Proof.
  assert (H : exec Sample.quote_unsupported_pair
                (snd (Sample.outcome Sample.answers Sample.quote_unsupported_pair))
                (Ok None))
    by exact (Sample_exec Sample.answers Sample.quote_unsupported_pair).
  split; [exact H|].
  exact (getQuote_null_only_if Sample.provider "mainnet" "SOV" "RBTC" (BN.Fin 1 0) _ H).
Defined.

(** X25: the amount of a quote survives the way to the contracts.  The
    fromAmount that [getQuote] prints is read back by [BN] as the amount in
    base units it was printed from, and the conversion for the contracts,
    [ethers.BigNumber.from(BN(quote.fromAmount).toFixed())], returns [v]
    exactly when that amount is the integer [v]. *)
Theorem getQuote_amount_round_trip this network from to amount t q :
  exec (getQuote this network from to amount) t (Ok (Some q)) ->
  exists fromInfo,
    cryptoassets this !! from = Some fromInfo /\
    BN_ (fromAmount q) = currencyToUnit fromInfo amount /\
    forall v, exec (inputAmount_of q) [] (Ok v) <->
              currencyToUnit fromInfo amount = BN.of_Z v.
Proof.
  intros H. apply getQuote_returns in H.
  destruct H as (fromInfo & t1 & t2 & c & ppm & er & Hfrom & _ & _ & _ & _ & _ & ->).
  exists fromInfo. split; [exact Hfrom|]. cbn [fromAmount BN_].
  rewrite BNFacts.of_string_toFixed by apply canonical_currencyToUnit.
  split; [reflexivity|]. intros v.
  open_method inputAmount_of. cbn [fromAmount BN_].
  rewrite BNFacts.of_string_toFixed by apply canonical_currencyToUnit.
  rewrite <- BigNumber_from_toFixed by apply canonical_currencyToUnit.
  unfold lift. destruct (ethers.BigNumber_from _) as [v0|e0]; cbn.
  - split; [intros [_ [= ->]]; reflexivity|intros [= ->]; auto].
  - split; [intros [_ [=]]|discriminate].
Qed.

Lemma getQuote_amount_round_trip_witness :
  exec Sample.quote_100_units
    (snd (Sample.outcome Sample.answers Sample.quote_100_units))
    (Ok (Some Sample.quote_100_expected)) /\
  exists fromInfo,
    cryptoassets Sample.provider !! "SOV"%string = Some fromInfo /\
    BN_ (fromAmount Sample.quote_100_expected)
    = currencyToUnit fromInfo (BN.Fin 1 (-16)).
Proof.
  assert (H : exec Sample.quote_100_units
                (snd (Sample.outcome Sample.answers Sample.quote_100_units))
                (Ok (Some Sample.quote_100_expected)))
    by exact (Sample_exec Sample.answers Sample.quote_100_units).
  split; [exact H|].
  destruct (getQuote_amount_round_trip Sample.provider "mainnet" "SOV" "ZERO"
              (BN.Fin 1 (-16)) _ _ H) as (fromInfo & Hfrom & Hamount & _).
  exists fromInfo. split; [exact Hfrom|exact Hamount].
Defined.

(** A node that cannot be reached: the error of the lookup comes out of the
    poller as it is. *)
Example poller_node_down :
  Sample.outcome Sample.answers_node_down Sample.waitApprove
  = (Err Sample.NetworkError,
     [EvGetClient "mainnet" "wallet" "SOV" None (Ok 7%nat);
      EvGetTransactionByHash 7%nat (Some "0xapp"%string) (Err Sample.NetworkError)]).
Proof. vm_compute. reflexivity. Qed.
